(** * Build Number (Abacus) GitHub Action: a shallow embedding of [src/main.ts]

    The development follows the source file top-down:

    - JavaScript strings, numbers ([Number], [String] on numbers), JSON
      values, [JSON.parse], [JSON.stringify], [encodeURIComponent] and the
      [URL] class, as far as [main.ts] uses them;
    - the helpers of [main.ts] ([requireNonEmpty], [validateName],
      [parseInteger], [buildUrl], [truncate], [sanitizeForLogs], ...);
    - the retry loop [requestWithRetries] and the entry point [run], written
      in a small monad that threads the observable trace (log lines, sleeps,
      HTTP requests, outputs) and the exceptions of the program.

    Strings are byte strings: a JavaScript string is represented by its
    UTF-8 encoding, so that every ASCII string is represented by itself. *)

From Stdlib Require Import ZArith NArith Bool List String Ascii Lia.
From Stdlib Require Import DecimalString QArith Qround.
From Stdlib Require Import Floats.SpecFloat.
Import ListNotations.

Local Open Scope string_scope.
Local Open Scope Z_scope.

(* ===================================================================== *)
(** * Strings *)
(* ===================================================================== *)

Module Str.

Definition code (c : ascii) : Z := Z.of_N (N_of_ascii c).
Definition chr (z : Z) : ascii := ascii_of_N (Z.to_N z).

(** The double quote character, and a way to write literals that contain
    it: [q] turns every apostrophe into a double quote. *)
Definition dquote : ascii := Eval compute in chr 34.

Definition nl : string := String (chr 10) EmptyString.
Definition dq : string := String dquote EmptyString.

Fixpoint q (s : string) : string :=
  match s with
  | EmptyString => EmptyString
  | String c r => String (if Ascii.eqb c "'" then dquote else c) (q r)
  end.

Definition in_range (lo hi : Z) (c : ascii) : bool :=
  (lo <=? code c) && (code c <=? hi).

Definition is_digit (c : ascii) : bool := in_range 48 57 c.
Definition is_upper (c : ascii) : bool := in_range 65 90 c.
Definition is_lower (c : ascii) : bool := in_range 97 122 c.
Definition is_alpha (c : ascii) : bool := is_upper c || is_lower c.
Definition is_alnum (c : ascii) : bool := is_alpha c || is_digit c.

Fixpoint forallb (p : ascii -> bool) (s : string) : bool :=
  match s with
  | EmptyString => true
  | String c r => p c && forallb p r
  end.

Fixpoint drop (n : nat) (s : string) : string :=
  match n, s with
  | O, _ => s
  | S n', String _ r => drop n' r
  | S _, EmptyString => EmptyString
  end.

Fixpoint take (n : nat) (s : string) : string :=
  match n, s with
  | S n', String c r => String c (take n' r)
  | _, _ => EmptyString
  end.

Fixpoint rev_onto (acc s : string) : string :=
  match s with
  | EmptyString => acc
  | String c r => rev_onto (String c acc) r
  end.

Definition rev (s : string) : string := rev_onto EmptyString s.

Fixpoint repeat (c : ascii) (n : nat) : string :=
  match n with
  | O => EmptyString
  | S n' => String c (repeat c n')
  end.

Definition is_empty (s : string) : bool :=
  match s with EmptyString => true | _ => false end.

(** [contains sub s]: [sub] occurs in [s] ([String.prototype.includes]). *)
Fixpoint contains (sub s : string) : bool :=
  prefix sub s ||
  match s with
  | EmptyString => false
  | String _ r => contains sub r
  end.

(** [endsWith s suffix]. *)
Definition endsWith (s suffix : string) : bool :=
  prefix (rev suffix) (rev s).

(** Split at every byte satisfying [p]; the separators are dropped. *)
Fixpoint split_on (p : ascii -> bool) (s : string) : list string :=
  match s with
  | EmptyString => [EmptyString]
  | String c r =>
      if p c then EmptyString :: split_on p r
      else match split_on p r with
           | [] => [String c EmptyString]
           | h :: t => String c h :: t
           end
  end.

(** The longest prefix of bytes satisfying [p], and the rest. *)
Fixpoint span (p : ascii -> bool) (s : string) : string * string :=
  match s with
  | EmptyString => (EmptyString, EmptyString)
  | String c r =>
      if p c then let (a, b) := span p r in (String c a, b)
      else (EmptyString, s)
  end.

Fixpoint join (sep : string) (l : list string) : string :=
  match l with
  | [] => EmptyString
  | [x] => x
  | x :: r => x ++ sep ++ join sep r
  end.

(** ASCII lower-casing (header names are compared this way). *)
Definition lower_char (c : ascii) : ascii :=
  if is_upper c then chr (code c + 32) else c.

Fixpoint lower (s : string) : string :=
  match s with
  | EmptyString => EmptyString
  | String c r => String (lower_char c) (lower r)
  end.

(** Length in bytes of the white space character (ECMAScript [WhiteSpace]
    or [LineTerminator]) at the head of [s], in UTF-8; [0] if there is
    none.  The multi-byte ones are U+00A0, U+1680, U+2000..U+200A, U+2028,
    U+2029, U+202F, U+205F, U+3000 and U+FEFF. *)
Definition ws_len (s : string) : nat :=
  match s with
  | EmptyString => O
  | String c r =>
      let a := code c in
      if ((9 <=? a) && (a <=? 13)) || (a =? 32) then 1%nat
      else
        match r with
        | String c1 r1 =>
            let b := code c1 in
            if (a =? 194) && (b =? 160) then 2%nat
            else
              match r1 with
              | String c2 _ =>
                  let d := code c2 in
                  if (a =? 225) && (b =? 154) && (d =? 128) then 3%nat
                  else if (a =? 226) && (b =? 128) &&
                          (((128 <=? d) && (d <=? 138)) || (d =? 168) ||
                           (d =? 169) || (d =? 175)) then 3%nat
                  else if (a =? 226) && (b =? 129) && (d =? 159) then 3%nat
                  else if (a =? 227) && (b =? 128) && (d =? 128) then 3%nat
                  else if (a =? 239) && (b =? 187) && (d =? 191) then 3%nat
                  else O
              | EmptyString => O
              end
        | EmptyString => O
        end
  end.

Fixpoint trimStart_aux (fuel : nat) (s : string) : string :=
  match fuel with
  | O => s
  | S f =>
      match ws_len s with
      | O => s
      | n => trimStart_aux f (drop n s)
      end
  end.

Definition trimStart (s : string) : string := trimStart_aux (length s) s.

Definition is_blank (s : string) : bool := is_empty (trimStart s).

Fixpoint trimEnd (s : string) : string :=
  match s with
  | EmptyString => EmptyString
  | String c r => if is_blank s then EmptyString else String c (trimEnd r)
  end.

(** [String.prototype.trim]. *)
Definition trim (s : string) : string := trimEnd (trimStart s).

(** Decimal rendering of an integer, as a template literal renders a
    number that is a (small) integer. *)
Definition of_Z (z : Z) : string := NilZero.string_of_int (Z.to_int z).

Definition hex_digit (n : Z) : ascii :=
  if n <? 10 then chr (48 + n) else chr (55 + n).

Definition hex_digit_lower (n : Z) : ascii :=
  if n <? 10 then chr (48 + n) else chr (87 + n).

(** ["%XX"], upper-case, for one byte. *)
Definition pct (c : ascii) : string :=
  String "%" (String (hex_digit (code c / 16))
             (String (hex_digit (code c mod 16)) EmptyString)).

Definition hex_val (c : ascii) : option Z :=
  if is_digit c then Some (code c - 48)
  else if in_range 65 70 c then Some (code c - 55)
  else if in_range 97 102 c then Some (code c - 87)
  else None.

(** Percent-encode every byte outside the set [keep]. *)
Fixpoint pct_encode (keep : ascii -> bool) (s : string) : string :=
  match s with
  | EmptyString => EmptyString
  | String c r =>
      (if keep c then String c EmptyString else pct c) ++ pct_encode keep r
  end.

End Str.

(* ===================================================================== *)
(** * Numbers

    A JavaScript number is an IEEE 754 binary64 value: [spec_float] with
    precision 53 and maximal exponent 1024. *)
(* ===================================================================== *)

Module Num.

Definition prec : Z := 53.
Definition emax : Z := 1024.

Definition number : Type := spec_float.

Definition NaN : number := S754_nan.

(** The binary64 value nearest to the integer [z]. *)
Definition of_Z (z : Z) : number := binary_normalize prec emax z 0 false.

(** The binary64 value nearest to [m * 10^e] (ties to even), with the
    sign [neg]; [m] is a natural number. *)
Definition of_decimal (neg : bool) (m e : Z) : number :=
  match m with
  | Z0 => S754_zero neg
  | Zpos p =>
      if 0 <=? e then
        match m * 10 ^ e with
        | Zpos q => binary_round prec emax neg q 0
        | _ => S754_zero neg
        end
      else
        SFdiv prec emax (S754_finite neg p 0)
              (S754_finite false (Z.to_pos (10 ^ (- e))) 0)
  | Zneg _ => NaN
  end.

Definition isFinite (x : number) : bool :=
  match x with
  | S754_zero _ | S754_finite _ _ _ => true
  | _ => false
  end.

(** The value of [x] when it is a finite integer. *)
Definition to_Z (x : number) : option Z :=
  match x with
  | S754_zero _ => Some 0
  | S754_finite s m e =>
      if 0 <=? e then Some (cond_Zopp s (Zpos m * 2 ^ e))
      else if (Zpos m) mod 2 ^ (- e) =? 0
           then Some (cond_Zopp s (Zpos m / 2 ^ (- e)))
           else None
  | _ => None
  end.

Definition isInteger (x : number) : bool :=
  match to_Z x with Some _ => true | None => false end.

(** An integral number, as an integer. *)
Definition int_value (x : number) : Z :=
  match to_Z x with Some z => z | None => 0 end.

(** ** [Number(string)]: the StringToNumber conversion *)

Fixpoint digits_val (radix acc : Z) (s : string) : option Z :=
  match s with
  | EmptyString => Some acc
  | String c r =>
      match Str.hex_val c with
      | Some d => if d <? radix then digits_val radix (acc * radix + d) r
                  else None
      | None => None
      end
  end.

(** [0x..], [0o..], [0b..]: at least one digit, no sign. *)
Definition parse_radix (radix : Z) (digits : string) : number :=
  if Str.is_empty digits then NaN
  else match digits_val radix 0 digits with
       | Some v => of_Z v
       | None => NaN
       end.

Definition dec_val (s : string) : Z :=
  match digits_val 10 0 s with Some v => v | None => 0 end.

(** The part after [e] or [E]: an optional sign and at least one digit. *)
Definition parse_exponent (s : string) : option Z :=
  let '(neg, r) :=
    match s with
    | String "+" r => (false, r)
    | String "-" r => (true, r)
    | _ => (false, s)
    end in
  if Str.is_empty r || negb (Str.forallb Str.is_digit r) then None
  else Some (if neg then - dec_val r else dec_val r).

(** StrUnsignedDecimalLiteral: [Infinity], [D+ . D* E?], [. D+ E?] or
    [D+ E?]; anything else is [NaN]. *)
Definition parse_unsigned_decimal (neg : bool) (s : string) : number :=
  if (s =? "Infinity")%string then S754_infinity neg
  else
    let '(ip, r1) := Str.span Str.is_digit s in
    let '(fp, r2) :=
      match r1 with
      | String "." r => Str.span Str.is_digit r
      | _ => (EmptyString, r1)
      end in
    if Str.is_empty ip && Str.is_empty fp then NaN
    else
      let m := dec_val (ip ++ fp) in
      let e0 := - Z.of_nat (String.length fp) in
      match r2 with
      | EmptyString => of_decimal neg m e0
      | String c r3 =>
          if (Ascii.eqb c "e" || Ascii.eqb c "E")%bool then
            match parse_exponent r3 with
            | Some x => of_decimal neg m (x + e0)
            | None => NaN
            end
          else NaN
      end.

(** [Number(raw)] on a string. *)
Definition Number (raw : string) : number :=
  match Str.trim raw with
  | EmptyString => S754_zero false
  | String "0" (String "x" r) | String "0" (String "X" r) => parse_radix 16 r
  | String "0" (String "o" r) | String "0" (String "O" r) => parse_radix 8 r
  | String "0" (String "b" r) | String "0" (String "B" r) => parse_radix 2 r
  | String "+" r => parse_unsigned_decimal false r
  | String "-" r => parse_unsigned_decimal true r
  | t => parse_unsigned_decimal false t
  end.

(** ** [String(number)]: Number::toString, radix 10 *)

Definition lt_pow10 (N D n : Z) : bool :=
  if 0 <=? n then N <? 10 ^ n * D else N * 10 ^ (- n) <? D.

(** The [n] with [10^(n-1) <= N/D < 10^n], for positive [N] and [D]. *)
Definition dec_exponent (N D : Z) : Z :=
  let est := (Z.log2 N - Z.log2 D) * 30103 / 100000 in
  match find (lt_pow10 N D)
             [est - 2; est - 1; est; est + 1; est + 2; est + 3] with
  | Some n => n
  | None => est + 4
  end.

Definition Qlt_bool (a b : Q) : bool := negb (Qle_bool b a).

Definition Qpow2 (e : Z) : Q := Qpower (2 # 1) e.
Definition Qpow10 (e : Z) : Q := Qpower (10 # 1) e.

(** The reals that round to the binary64 value [m * 2^e] lie between the
    midpoints to its two neighbours; the midpoints themselves round to it
    when [m] is even. *)
Definition round_interval (m : positive) (e : Z) : Q * Q * bool :=
  let v := (inject_Z (Zpos m) * Qpow2 e)%Q in
  let up := Qpow2 (e - 1) in
  let down :=
    if (Zpos m =? 2 ^ (prec - 1)) && (emin prec emax <? e)
    then Qpow2 (e - 2) else Qpow2 (e - 1) in
  ((v - down)%Q, (v + up)%Q, Z.even (Zpos m)).

(** The [k]-digit integer [s] such that [s * 10^(n-k)] rounds to [v] and
    is nearest to [v], if there is one. *)
Definition digits_for (v lo hi : Q) (closed : bool) (n k : Z) : option Z :=
  let sc := Qpow10 (n - k) in
  let s_lo := Qfloor (v / sc) in
  let s_hi := s_lo + 1 in
  let ok (s : Z) :=
    let c := (inject_Z s * sc)%Q in
    if closed then Qle_bool lo c && Qle_bool c hi
    else Qlt_bool lo c && Qlt_bool c hi in
  match ok s_lo, ok s_hi with
  | true, false => Some s_lo
  | false, true => Some s_hi
  | true, true =>
      match Qcompare (v - inject_Z s_lo * sc) (inject_Z s_hi * sc - v) with
      | Lt => Some s_lo
      | Gt => Some s_hi
      | Eq => Some (if Z.even s_lo then s_lo else s_hi)
      end
  | false, false => None
  end.

Fixpoint shortest (fuel : nat) (v lo hi : Q) (closed : bool) (n k : Z)
  : Z * Z :=
  match fuel with
  | O => (Qfloor (v / Qpow10 (n - k)), k)
  | S f =>
      match digits_for v lo hi closed n k with
      | Some s => (s, k)
      | None => shortest f v lo hi closed n (k + 1)
      end
  end.

Definition format_digits (digits : string) (k n : Z) : string :=
  if (k <=? n) && (n <=? 21) then
    digits ++ Str.repeat "0" (Z.to_nat (n - k))
  else if (0 <? n) && (n <=? 21) then
    Str.take (Z.to_nat n) digits ++ "." ++ Str.drop (Z.to_nat n) digits
  else if (-6 <? n) && (n <=? 0) then
    "0." ++ Str.repeat "0" (Z.to_nat (- n)) ++ digits
  else
    let e := n - 1 in
    let es := (if e <? 0 then "-" else "+") ++ Str.of_Z (Z.abs e) in
    if k =? 1 then digits ++ "e" ++ es
    else Str.take 1 digits ++ "." ++ Str.drop 1 digits ++ "e" ++ es.

Definition toString_pos (m : positive) (e : Z) : string :=
  let '(lo, hi, closed) := round_interval m e in
  let v := (inject_Z (Zpos m) * Qpow2 e)%Q in
  let n0 :=
    if 0 <=? e then dec_exponent (Zpos m * 2 ^ e) 1
    else dec_exponent (Zpos m) (2 ^ (- e)) in
  let '(s, k) := shortest 20 v lo hi closed n0 1 in
  let '(s, k, n) := if s =? 10 ^ k then (1, 1, n0 + 1) else (s, k, n0) in
  format_digits (Str.of_Z s) k n.

(** [String(x)] for a number [x]. *)
Definition toString (x : number) : string :=
  match x with
  | S754_nan => "NaN"
  | S754_zero _ => "0"
  | S754_infinity s => if s then "-Infinity" else "Infinity"
  | S754_finite s m e => (if s then "-" else EmptyString) ++ toString_pos m e
  end.

End Num.

(* ===================================================================== *)
(** * JSON values, [JSON.parse] and [JSON.stringify] *)
(* ===================================================================== *)

(** The values [JSON.parse] produces.  The fields of an object are kept in
    property order: array-index keys in ascending order first, then the
    other keys in insertion order. *)
#[local] Set Warnings "-register-all".
Inductive JSValue : Type :=
| JNull
| JBool (b : bool)
| JNum (x : Num.number)
| JStr (s : string)
| JArr (elems : list JSValue)
| JObj (fields : list (string * JSValue)).

Module JSON.

(** ** Property access and order *)

Fixpoint lookup (k : string) (fields : list (string * JSValue))
  : option JSValue :=
  match fields with
  | [] => None
  | (k', v) :: r => if (k' =? k)%string then Some v else lookup k r
  end.

(** An array index: the canonical decimal form of an integer in
    [0 .. 2^32 - 2]. *)
Definition array_index (k : string) : option Z :=
  match k with
  | EmptyString => None
  | String c r =>
      if Str.forallb Str.is_digit k &&
         (negb (Ascii.eqb c "0") || Str.is_empty r) &&
         (Z.of_nat (String.length k) <=? 10) &&
         (Num.dec_val k <=? 4294967294)
      then Some (Num.dec_val k) else None
  end.

Fixpoint replace_field (k : string) (v : JSValue)
  (fields : list (string * JSValue)) : list (string * JSValue) :=
  match fields with
  | [] => []
  | (k', v') :: r =>
      if (k' =? k)%string then (k, v) :: r
      else (k', v') :: replace_field k v r
  end.

(** Insert a fresh index key [i] after the smaller index keys. *)
Fixpoint insert_index (i : Z) (k : string) (v : JSValue)
  (fields : list (string * JSValue)) : list (string * JSValue) :=
  match fields with
  | [] => [(k, v)]
  | (k', v') :: r =>
      match array_index k' with
      | Some j => if j <? i then (k', v') :: insert_index i k v r
                  else (k, v) :: fields
      | None => (k, v) :: fields
      end
  end.

(** Define the property [k] of an object. *)
Definition set_field (k : string) (v : JSValue)
  (fields : list (string * JSValue)) : list (string * JSValue) :=
  match lookup k fields with
  | Some _ => replace_field k v fields
  | None =>
      match array_index k with
      | Some i => insert_index i k v fields
      | None => (fields ++ [(k, v)])%list
      end
  end.

(** ** [JSON.parse] *)

Definition is_json_ws (c : ascii) : bool :=
  let a := Str.code c in (a =? 32) || (a =? 9) || (a =? 10) || (a =? 13).

Fixpoint skip_ws (s : string) : string :=
  match s with
  | String c r => if is_json_ws c then skip_ws r else s
  | EmptyString => s
  end.

(** UTF-8 (generalised to lone surrogates) of a code point. *)
Definition utf8 (cp : Z) : string :=
  let b (z : Z) := String (Str.chr z) EmptyString in
  if cp <? 128 then b cp
  else if cp <? 2048 then b (192 + cp / 64) ++ b (128 + cp mod 64)
  else if cp <? 65536 then
    b (224 + cp / 4096) ++ b (128 + (cp / 64) mod 64) ++ b (128 + cp mod 64)
  else
    b (240 + cp / 262144) ++ b (128 + (cp / 4096) mod 64) ++
    b (128 + (cp / 64) mod 64) ++ b (128 + cp mod 64).

(** [eat c s]: the rest of [s] after its first character, when that
    character is [c]. *)
Definition eat (c : ascii) (s : string) : option string :=
  match s with
  | String d r => if Ascii.eqb d c then Some r else None
  | EmptyString => None
  end.

(** The value of four hexadecimal digits. *)
Definition hex4 (a b c d : ascii) : option Z :=
  match Str.hex_val a, Str.hex_val b, Str.hex_val c, Str.hex_val d with
  | Some x, Some y, Some z, Some w => Some (((x * 16 + y) * 16 + z) * 16 + w)
  | _, _, _, _ => None
  end.

(** The character of a two-character escape. *)
Definition simple_escape (e : ascii) : option ascii :=
  if Ascii.eqb e Str.dquote then Some Str.dquote
  else if Ascii.eqb e "\" then Some "\"%char
  else if Ascii.eqb e "/" then Some "/"%char
  else if Ascii.eqb e "b" then Some (Str.chr 8)
  else if Ascii.eqb e "f" then Some (Str.chr 12)
  else if Ascii.eqb e "n" then Some (Str.chr 10)
  else if Ascii.eqb e "r" then Some (Str.chr 13)
  else if Ascii.eqb e "t" then Some (Str.chr 9)
  else None.

(** The code point of a surrogate pair: [hi] is the code unit of a first
    escape, the six characters are what follows it. *)
Definition surrogate_pair (hi : Z) (b1 b2 a b c d : ascii) : option Z :=
  if (55296 <=? hi) && (hi <=? 56319) &&
     Ascii.eqb b1 "\" && Ascii.eqb b2 "u" then
    match hex4 a b c d with
    | Some lo =>
        if (56320 <=? lo) && (lo <=? 57343)
        then Some (65536 + (hi - 55296) * 1024 + (lo - 56320))
        else None
    | None => None
    end
  else None.

Definition prepend (t : string) (o : option (string * string))
  : option (string * string) :=
  match o with
  | Some (t', rest) => Some (t ++ t', rest)
  | None => None
  end.

(** The characters of a string literal after its opening quote, up to the
    closing quote, and what follows the literal. *)
Fixpoint parse_string_body (s : string) : option (string * string) :=
  match s with
  | EmptyString => None
  | String c r =>
      if Ascii.eqb c Str.dquote then Some (EmptyString, r)
      else if Ascii.eqb c "\" then
        match r with
        | EmptyString => None
        | String e r' =>
            if Ascii.eqb e "u" then
              match r' with
              | String a (String b (String c' (String d r2))) =>
                  match hex4 a b c' d with
                  | None => None
                  | Some hi =>
                      match r2 with
                      | String b1 (String b2 (String a' (String b'
                          (String c'' (String d' r4))))) =>
                          match surrogate_pair hi b1 b2 a' b' c'' d' with
                          | Some cp => prepend (utf8 cp) (parse_string_body r4)
                          | None => prepend (utf8 hi) (parse_string_body r2)
                          end
                      | _ => prepend (utf8 hi) (parse_string_body r2)
                      end
                  end
              | _ => None
              end
            else
              match simple_escape e with
              | Some x => prepend (String x EmptyString) (parse_string_body r')
              | None => None
              end
        end
      else if Str.code c <? 32 then None
      else prepend (String c EmptyString) (parse_string_body r)
  end.

(** A string literal with its opening quote. *)
Definition parse_key (s : string) : option (string * string) :=
  match eat Str.dquote s with
  | Some r => parse_string_body r
  | None => None
  end.

(** The exponent part of a number token, when there is one: the exponent
    and what follows; [Some None] when there is none, [None] when it is
    malformed. *)
Definition parse_exponent_part (s : string) : option (option (Z * string)) :=
  match s with
  | String c r =>
      if (Ascii.eqb c "e" || Ascii.eqb c "E")%bool then
        let '(eneg, r1) :=
          match eat "+" r with
          | Some r' => (false, r')
          | None =>
              match eat "-" r with
              | Some r' => (true, r')
              | None => (false, r)
              end
          end in
        let '(ed, r2) := Str.span Str.is_digit r1 in
        if Str.is_empty ed then None
        else Some (Some (if eneg then - Num.dec_val ed else Num.dec_val ed, r2))
      else Some None
  | EmptyString => Some None
  end.

(** The fraction part of a number token: its digits and what follows. *)
Definition parse_fraction_part (s : string) : option (string * string) :=
  match eat "." s with
  | Some r =>
      let '(fp, r') := Str.span Str.is_digit r in
      if Str.is_empty fp then None else Some (fp, r')
  | None => Some (EmptyString, s)
  end.

(** A number token: an optional minus sign; [0] or a non-empty digit
    sequence without leading zero; optionally a dot and at least one digit;
    optionally [e] or [E], a sign and at least one digit. *)
Definition parse_number (s : string) : option (Num.number * string) :=
  let '(neg, s1) :=
    match eat "-" s with
    | Some r => (true, r)
    | None => (false, s)
    end in
  let '(ip, r1) := Str.span Str.is_digit s1 in
  if Str.is_empty ip || (prefix "0" ip && (1 <? String.length ip)%nat) then None
  else
    match parse_fraction_part r1 with
    | None => None
    | Some (fp, r2) =>
        let m := Num.dec_val (ip ++ fp) in
        let e0 := - Z.of_nat (String.length fp) in
        match parse_exponent_part r2 with
        | None => None
        | Some None => Some (Num.of_decimal neg m e0, r2)
        | Some (Some (x, r3)) => Some (Num.of_decimal neg m (x + e0), r3)
        end
    end.

(** A literal name at the head of [s]. *)
Definition parse_literal (s : string) : option (JSValue * string) :=
  if prefix "true" s then Some (JBool true, Str.drop 4 s)
  else if prefix "false" s then Some (JBool false, Str.drop 5 s)
  else if prefix "null" s then Some (JNull, Str.drop 4 s)
  else None.

Section Composite.

(** The parser of one value, for the elements and members. *)
Variable parse_value : string -> option (JSValue * string).

(** The elements of an array, from the first one to the closing
    bracket; [s] starts at an element. *)
Fixpoint parse_elements (fuel : nat) (s : string) (acc : list JSValue)
  : option (list JSValue * string) :=
  match fuel with
  | O => None
  | S f =>
      match parse_value s with
      | Some (v, r) =>
          match skip_ws r with
          | String c r' =>
              if Ascii.eqb c "," then
                parse_elements f (skip_ws r') (acc ++ [v])%list
              else if Ascii.eqb c "]" then Some ((acc ++ [v])%list, r')
              else None
          | EmptyString => None
          end
      | None => None
      end
  end.

(** The members of an object, from the first key to the closing brace;
    [s] starts at a key. *)
Fixpoint parse_members (fuel : nat) (s : string)
  (acc : list (string * JSValue))
  : option (list (string * JSValue) * string) :=
  match fuel with
  | O => None
  | S f =>
      match parse_key s with
      | Some (k, r1) =>
          match eat ":" (skip_ws r1) with
          | Some r2 =>
              match parse_value (skip_ws r2) with
              | Some (v, r3) =>
                  match skip_ws r3 with
                  | String c r' =>
                      if Ascii.eqb c "," then
                        parse_members f (skip_ws r') (set_field k v acc)
                      else if Ascii.eqb c "}" then
                        Some (set_field k v acc, r')
                      else None
                  | EmptyString => None
                  end
              | None => None
              end
          | None => None
          end
      | None => None
      end
  end.

End Composite.

(** One value at the head of [s] (no leading white space).  The fuel
    bounds the nesting depth and the number of elements of a container;
    the length of [s] is enough (see [parse_value_fuel]). *)
Fixpoint parse_value (fuel : nat) (s : string) : option (JSValue * string) :=
  match fuel with
  | O => None
  | S f =>
      match s with
      | EmptyString => None
      | String c r =>
          if Ascii.eqb c "{" then
            match eat "}" (skip_ws r) with
            | Some r' => Some (JObj [], r')
            | None =>
                match parse_members (parse_value f) f (skip_ws r) [] with
                | Some (fs, rest) => Some (JObj fs, rest)
                | None => None
                end
            end
          else if Ascii.eqb c "[" then
            match eat "]" (skip_ws r) with
            | Some r' => Some (JArr [], r')
            | None =>
                match parse_elements (parse_value f) f (skip_ws r) [] with
                | Some (vs, rest) => Some (JArr vs, rest)
                | None => None
                end
            end
          else if Ascii.eqb c Str.dquote then
            match parse_string_body r with
            | Some (t, rest) => Some (JStr t, rest)
            | None => None
            end
          else if Str.is_lower c then parse_literal s
          else
            match parse_number s with
            | Some (x, rest) => Some (JNum x, rest)
            | None => None
            end
      end
  end.

(** [JSON.parse(text)]; [None] when it throws a [SyntaxError]. *)
Definition parse (text : string) : option JSValue :=
  match parse_value (S (String.length text)) (skip_ws text) with
  | Some (v, rest) => if Str.is_empty (skip_ws rest) then Some v else None
  | None => None
  end.

(** ** [JSON.stringify] *)

Definition quote_char (c : ascii) : string :=
  let a := Str.code c in
  if a =? 8 then "\b"
  else if a =? 9 then "\t"
  else if a =? 10 then "\n"
  else if a =? 12 then "\f"
  else if a =? 13 then "\r"
  else if a =? 34 then String "\" (String Str.dquote EmptyString)
  else if a =? 92 then "\\"
  else if a <? 32 then
    "\u00" ++ String (Str.hex_digit_lower (a / 16))
                (String (Str.hex_digit_lower (a mod 16)) EmptyString)
  else String c EmptyString.

Fixpoint quote_body (s : string) : string :=
  match s with
  | EmptyString => EmptyString
  | String c r => quote_char c ++ quote_body r
  end.

(** QuoteJSONString. *)
Definition quote (s : string) : string :=
  String Str.dquote (quote_body s ++ String Str.dquote EmptyString).

Section Stringify.

(** The replacer function, as far as [main.ts] needs one: [replacer k]
    is [Some s] when the value of every property named [k] is replaced by
    the string [s], and [None] when it is kept. *)
Variable replacer : string -> option string.

(** The indentation unit ([JSON.stringify]'s third argument). *)
Variable gap : string.

Definition wrap (opening closing indent : string) (partial : list string)
  : string :=
  match partial with
  | [] => opening ++ closing
  | _ =>
      if Str.is_empty gap then
        opening ++ Str.join "," partial ++ closing
      else
        let inner := indent ++ gap in
        opening ++ Str.nl ++ inner ++
        Str.join ("," ++ Str.nl ++ inner) partial ++
        Str.nl ++ indent ++ closing
  end.

Definition colon : string := if Str.is_empty gap then ":" else ": ".

(** SerializeJSONProperty on a value the replacer has been applied to;
    [indent] is the current indentation. *)
Fixpoint serialize (indent : string) (v : JSValue) {struct v} : string :=
  match v with
  | JNull => "null"
  | JBool b => if b then "true" else "false"
  | JNum x => if Num.isFinite x then Num.toString x else "null"
  | JStr s => quote s
  | JArr elems =>
      wrap "[" "]" indent
        ((fix go (i : Z) (l : list JSValue) : list string :=
            match l with
            | [] => []
            | x :: r =>
                match replacer (Str.of_Z i) with
                | Some m => quote m
                | None => serialize (indent ++ gap) x
                end :: go (i + 1) r
            end) 0 elems)
  | JObj fields =>
      wrap "{" "}" indent
        ((fix go (l : list (string * JSValue)) : list string :=
            match l with
            | [] => []
            | (k, x) :: r =>
                (quote k ++ colon ++
                 match replacer k with
                 | Some m => quote m
                 | None => serialize (indent ++ gap) x
                 end) :: go r
            end) fields)
  end.

(** [JSON.stringify(v, replacer, gap)]: the replacer is first called
    with the empty key and [v] itself. *)
Definition stringify (v : JSValue) : string :=
  match replacer EmptyString with
  | Some m => quote m
  | None => serialize EmptyString v
  end.

End Stringify.

End JSON.

(** [String(v)] for a value. *)
Fixpoint ToString (v : JSValue) : string :=
  match v with
  | JNull => "null"
  | JBool b => if b then "true" else "false"
  | JNum x => Num.toString x
  | JStr s => s
  | JArr elems =>
      Str.join ","
        ((fix go (l : list JSValue) : list string :=
            match l with
            | [] => []
            | x :: r =>
                match x with
                | JNull => EmptyString
                | _ => ToString x
                end :: go r
            end) elems)
  | JObj _ => "[object Object]"
  end.

(* ===================================================================== *)
(** * [encodeURIComponent] and the [URL] class *)
(* ===================================================================== *)

(** The characters [encodeURIComponent] leaves alone: letters, digits
    and [- _ . ! ~ * ' ( )]. *)
Definition uri_unreserved (c : ascii) : bool :=
  Str.is_alnum c ||
  existsb (Ascii.eqb c) ["-"; "_"; "."; "!"; "~"; "*"; "'"; "("; ")"]%char.

(** Every other character is replaced by the escapes of its UTF-8 bytes. *)
Definition encodeURIComponent (s : string) : string :=
  Str.pct_encode uri_unreserved s.

Module URL.

(** An [https] URL record.  The model covers the URLs whose authority is a
    plain lower-case host name, which is what [main.ts] parses: the fixed
    base endpoint followed by a path. *)
Record t : Type := mk {
  host : string;
  path : list string;
  query : option string;
  fragment : option string
}.

Definition is_c0_or_space (c : ascii) : bool := Str.code c <=? 32.

Definition is_tab_or_newline (c : ascii) : bool :=
  let a := Str.code c in (a =? 9) || (a =? 10) || (a =? 13).

Fixpoint strip_leading (s : string) : string :=
  match s with
  | String c r => if is_c0_or_space c then strip_leading r else s
  | EmptyString => s
  end.

Fixpoint strip_trailing (s : string) : string :=
  match s with
  | EmptyString => EmptyString
  | String c r =>
      if Str.forallb is_c0_or_space s then EmptyString
      else String c (strip_trailing r)
  end.

Fixpoint remove_tab_newline (s : string) : string :=
  match s with
  | EmptyString => EmptyString
  | String c r =>
      if is_tab_or_newline c then remove_tab_newline r
      else String c (remove_tab_newline r)
  end.

(** The percent-encode sets, as predicates on the bytes that are kept. *)
Definition keep_query (c : ascii) : bool :=
  let a := Str.code c in
  (32 <? a) && (a <? 127) &&
  negb (existsb (Z.eqb a) [34; 35; 60; 62; 39]).

Definition keep_path (c : ascii) : bool :=
  let a := Str.code c in
  (32 <? a) && (a <? 127) &&
  negb (existsb (Z.eqb a) [34; 35; 60; 62; 63; 94; 96; 123; 125]).

Definition keep_fragment (c : ascii) : bool :=
  let a := Str.code c in
  (32 <? a) && (a <? 127) &&
  negb (existsb (Z.eqb a) [34; 60; 62; 96]).

Definition keep_form (c : ascii) : bool :=
  Str.is_alnum c || existsb (Ascii.eqb c) ["*"; "-"; "."; "_"]%char.

Definition is_single_dot (seg : string) : bool :=
  let l := Str.lower seg in
  ((l =? ".") || (l =? "%2e"))%string.

Definition is_double_dot (seg : string) : bool :=
  let l := Str.lower seg in
  ((l =? "..") || (l =? ".%2e") || (l =? "%2e.") || (l =? "%2e%2e"))%string.

(** The path state: [segs] are the raw segments between slashes, [acc]
    the path built so far. *)
Fixpoint path_state (acc : list string) (segs : list string) : list string :=
  match segs with
  | [] => acc
  | seg :: rest =>
      let last := match rest with [] => true | _ => false end in
      let acc' :=
        if is_double_dot seg then
          let shortened := removelast acc in
          if last then (shortened ++ [EmptyString])%list else shortened
        else if is_single_dot seg then
          if last then (acc ++ [EmptyString])%list else acc
        else (acc ++ [Str.pct_encode keep_path seg])%list in
      path_state acc' rest
  end.

Definition is_slash (c : ascii) : bool :=
  (Ascii.eqb c "/" || Ascii.eqb c "\")%bool.

(** Split [s] at the first byte satisfying [p]: the part before it, and
    the part after it when there is such a byte. *)
Fixpoint cut (p : ascii -> bool) (s : string) : string * option string :=
  match s with
  | EmptyString => (EmptyString, None)
  | String c r =>
      if p c then (EmptyString, Some r)
      else let '(a, b) := cut p r in (String c a, b)
  end.

Definition is_host_char (c : ascii) : bool :=
  Str.is_lower c || Str.is_digit c || Ascii.eqb c "." || Ascii.eqb c "-".

(** [new URL(input)]; [None] when the input is not an [https] URL of the
    shape the model covers (the constructor throws a [TypeError] on an
    invalid URL). *)
Definition parse (input : string) : option t :=
  let s := remove_tab_newline (strip_trailing (strip_leading input)) in
  match s with
  | String "h" (String "t" (String "t" (String "p" (String "s"
      (String ":" (String "/" (String "/" r))))))) =>
      let '(h, rest) := Str.span is_host_char r in
      if Str.is_empty h then None
      else
        let '(before_frag, frag) := cut (Ascii.eqb "#") rest in
        let '(raw_path, qry) := cut (Ascii.eqb "?") before_frag in
        let segs :=
          match raw_path with
          | EmptyString => Some [EmptyString]
          | String c p =>
              if is_slash c then Some (Str.split_on is_slash p) else None
          end in
        match segs with
        | Some l =>
            Some {| host := h;
                    path := path_state [] l;
                    query := option_map (Str.pct_encode keep_query) qry;
                    fragment := option_map (Str.pct_encode keep_fragment) frag |}
        | None => None
        end
  | _ => None
  end.

(** [url.toString()]. *)
Definition toString (u : t) : string :=
  "https://" ++ host u ++ "/" ++ Str.join "/" (path u) ++
  match query u with Some qs => "?" ++ qs | None => EmptyString end ++
  match fragment u with Some f => "#" ++ f | None => EmptyString end.

(** ** [url.searchParams] *)

Fixpoint pct_decode (s : string) : string :=
  match s with
  | EmptyString => EmptyString
  | String c r =>
      match c, r with
      | "%"%char, String a (String b r') =>
          match Str.hex_val a, Str.hex_val b with
          | Some x, Some y => String (Str.chr (x * 16 + y)) (pct_decode r')
          | _, _ => String c (pct_decode r)
          end
      | _, _ => String c (pct_decode r)
      end
  end.

Fixpoint plus_to_space (s : string) : string :=
  match s with
  | EmptyString => EmptyString
  | String c r =>
      String (if Ascii.eqb c "+" then " "%char else c) (plus_to_space r)
  end.

(** The [application/x-www-form-urlencoded] parser. *)
Definition form_parse (qs : string) : list (string * string) :=
  flat_map
    (fun piece =>
       if Str.is_empty piece then []
       else
         let '(n, v) := cut (Ascii.eqb "=") piece in
         let dec x := pct_decode (plus_to_space x) in
         [(dec n, dec match v with Some x => x | None => EmptyString end)])
    (Str.split_on (Ascii.eqb "&") qs).

Fixpoint form_encode (s : string) : string :=
  match s with
  | EmptyString => EmptyString
  | String c r =>
      (if Ascii.eqb c " " then "+"
       else if keep_form c then String c EmptyString
       else Str.pct c) ++ form_encode r
  end.

(** The [application/x-www-form-urlencoded] serializer. *)
Definition form_serialize (l : list (string * string)) : string :=
  Str.join "&" (map (fun '(n, v) => form_encode n ++ "=" ++ form_encode v) l).

Definition searchParams (u : t) : list (string * string) :=
  match query u with
  | Some qs => form_parse qs
  | None => []
  end.

(** [URLSearchParams.set] on the list: the first pair named [name] gets
    the value, the other ones are removed; a new pair is appended when
    there is none. *)
Fixpoint list_set (name value : string) (l : list (string * string))
  : list (string * string) :=
  match l with
  | [] => [(name, value)]
  | (n, v) :: r =>
      if (n =? name)%string then
        (n, value) :: filter (fun '(n', _) => negb (n' =? name)%string) r
      else (n, v) :: list_set name value r
  end.

(** [url.searchParams.set(name, value)]: the query of the URL becomes the
    serialization of the updated list. *)
Definition searchParams_set (name value : string) (u : t) : t :=
  let qs := form_serialize (list_set name value (searchParams u)) in
  {| host := host u;
     path := path u;
     query := if Str.is_empty qs then None else Some qs;
     fragment := fragment u |}.

End URL.

(* ===================================================================== *)
(** * The environment of the action: events, network, exceptions *)
(* ===================================================================== *)

Inductive HttpMethod : Type := GET | POST.

Definition HttpMethod_to_string (m : HttpMethod) : string :=
  match m with GET => "GET" | POST => "POST" end.

(** A thrown [Error] object. *)
Record JSError : Type := mkError { err_name : string; message : string }.

Definition Error (msg : string) : JSError := mkError "Error" msg.
Definition TypeError (msg : string) : JSError := mkError "TypeError" msg.

(** The body of a response, as [res.text()] delivers it: the text, or the
    error the promise is rejected with. *)
Inductive Body : Type :=
| BodyText (text : string)
| BodyError (e : JSError).

(** A [Response] of [fetch]. *)
Record Response : Type := mkResponse {
  status : Z;
  headers : list (string * string);
  body : Body
}.

(** [res.ok]. *)
Definition ok (res : Response) : bool :=
  (200 <=? status res) && (status res <=? 299).

(** [res.headers.get(name)]: names are compared case-insensitively and the
    values of a repeated header are joined; [None] is [null]. *)
Definition headers_get (res : Response) (name : string) : option string :=
  match filter (fun '(n, _) => (Str.lower n =? Str.lower name)%string)
               (headers res) with
  | [] => None
  | l => Some (Str.join ", " (map snd l))
  end.

(** What one call of [fetch] does: it resolves with a response or rejects
    with a transport error. *)
Inductive FetchResult : Type :=
| Responded (res : Response)
| Rejected (e : JSError).

(** The network: the result of the [n]-th call of [fetch], from [0]. *)
Definition Network : Type := nat -> FetchResult.

(** The observable actions of the program, in the order they happen. *)
Inductive Event : Type :=
| Info (msg : string)
| Debug (msg : string)
| SetSecret (secret : string)
| SetOutput (name value : string)
| SetFailed (msg : string)
| Fetch (url : string) (method : HttpMethod) (hdrs : list (string * string))
| Sleep (ms : Z).

Definition is_Fetch (e : Event) : bool :=
  match e with Fetch _ _ _ => true | _ => false end.

Definition is_Sleep (e : Event) : bool :=
  match e with Sleep _ => true | _ => false end.

(** How a computation ends: it returns, it throws, or the model ran out of
    fuel (which [requestWithRetries_total] excludes). *)
Inductive Outcome (A : Type) : Type :=
| Returned (a : A)
| Thrown (e : JSError)
| OutOfFuel.

Arguments Returned {A} a.
Arguments Thrown {A} e.
Arguments OutOfFuel {A}.

(** A computation reads the network, starts when [n] requests have been
    made, and yields its outcome, the events it emitted and the number of
    requests made when it ends. *)
Definition M (A : Type) : Type :=
  Network -> nat -> Outcome A * list Event * nat.

Definition ret {A} (a : A) : M A := fun _ n => (Returned a, [], n).

Definition bind {A B} (m : M A) (f : A -> M B) : M B :=
  fun net n =>
    match m net n with
    | (Returned a, ev, n') =>
        let '(o, ev', n'') := f a net n' in (o, (ev ++ ev')%list, n'')
    | (Thrown e, ev, n') => (Thrown e, ev, n')
    | (OutOfFuel, ev, n') => (OutOfFuel, ev, n')
    end.

Definition throw {A} (e : JSError) : M A := fun _ n => (Thrown e, [], n).

Definition out_of_fuel {A} : M A := fun _ n => (OutOfFuel, [], n).

(** [try { m } catch (err) { handler err }]. *)
Definition try_catch {A} (m : M A) (handler : JSError -> M A) : M A :=
  fun net n =>
    match m net n with
    | (Thrown e, ev, n') =>
        let '(o, ev', n'') := handler e net n' in (o, (ev ++ ev')%list, n'')
    | r => r
    end.

Definition emit (e : Event) : M unit := fun _ n => (Returned tt, [e], n).

Declare Scope js_scope.
Delimit Scope js_scope with js.
Notation "x <- m ;; k" := (bind m (fun x => k))
  (at level 61, m at next level, right associativity) : js_scope.
Notation "m ;;; k" := (bind m (fun _ => k))
  (at level 61, right associativity) : js_scope.
Local Open Scope js_scope.

(** [if (c) { m }]. *)
Definition when (c : bool) (m : M unit) : M unit := if c then m else ret tt.

(** [await fetch(url, { method, headers })]. *)
Definition fetch (url : string) (method : HttpMethod)
  (hdrs : list (string * string)) : M Response :=
  fun net n =>
    match net n with
    | Responded res => (Returned res, [Fetch url method hdrs], S n)
    | Rejected e => (Thrown e, [Fetch url method hdrs], S n)
    end.

(** [await res.text()]. *)
Definition text (res : Response) : M string :=
  match body res with
  | BodyText t => ret t
  | BodyError e => throw e
  end.

(** [await sleep(ms)]. *)
Definition sleep (ms : Z) : M unit := emit (Sleep ms).

Definition outcome_of {A} (r : Outcome A * list Event * nat) : Outcome A :=
  fst (fst r).
Definition events_of {A} (r : Outcome A * list Event * nat) : list Event :=
  snd (fst r).

(** The number of HTTP requests among the events. *)
Definition attempts (ev : list Event) : nat := List.length (filter is_Fetch ev).

(** The waits among the events, in order. *)
Definition sleeps (ev : list Event) : list Z :=
  flat_map (fun e => match e with Sleep ms => [ms] | _ => [] end) ev.

(** The requests and the waits among the events, in order. *)
Definition timeline (ev : list Event) : list Event :=
  filter (fun e => is_Fetch e || is_Sleep e) ev.

(** A value is truthy when it is a non-empty string. *)
Definition truthy (s : string) : bool := negb (Str.is_empty s).

(** A template literal renders an integer with [String]. *)
Definition show (z : Z) : string := Num.toString (Num.of_Z z).

(* ===================================================================== *)
(** * [main.ts] *)
(* ===================================================================== *)

(** The operations.  The type exists at compile time only: at run time an
    operation is the string the workflow supplied. *)
Module Op.

Inductive Operation : Type :=
  hit | create | get | info | set | update | reset | delete.

Definition name (op : Operation) : string :=
  match op with
  | hit => "hit" | create => "create" | get => "get" | info => "info"
  | set => "set" | update => "update" | reset => "reset"
  | delete => "delete"
  end.

End Op.

Definition BASE_URL : string := "https://abacus.jasoncameron.dev".
Definition MAX_ATTEMPTS : Z := 5.
Definition MAX_LOG_BODY_CHARS : Z := 2000.

(** [NAME_RE = /^[A-Za-z0-9_.-]{3,64}$/]. *)
Definition name_char (c : ascii) : bool :=
  Str.is_alnum c || Ascii.eqb c "_" || Ascii.eqb c "." || Ascii.eqb c "-".

Definition NAME_RE_test (value : string) : bool :=
  Str.forallb name_char value &&
  (3 <=? String.length value)%nat && (String.length value <=? 64)%nat.

(** [url.endsWith("/") ? url.slice(0, -1) : url]. *)
Definition normalizeBaseUrl (url : string) : string :=
  if Str.endsWith url "/"
  then Str.take (String.length url - 1) url
  else url.

(** [if (!value || value.trim().length === 0) throw ...]. *)
Definition requireNonEmpty (name value : string) : M unit :=
  if negb (truthy value) || (String.length (Str.trim value) =? 0)%nat
  then throw (Error ("Missing required input: " ++ name))
  else ret tt.

Definition validateName (kind value : string) : M unit :=
  if negb (NAME_RE_test value)
  then throw (Error ("Invalid " ++ kind ++
                     ": must match ^[A-Za-z0-9_-.]{3,64}$ (got " ++
                     Str.dq ++ value ++ Str.dq ++ ")"))
  else ret tt.

(** [parseInteger]: the result is a finite integer, given by its value. *)
Definition parseInteger (name raw : string) : M Z :=
  let v := Num.Number raw in
  if negb (Num.isFinite v) || negb (Num.isInteger v) then
    throw (Error ("Invalid " ++ name ++ ": expected integer, got " ++
                  Str.dq ++ raw ++ Str.dq))
  else ret (Num.int_value v).

(** The integer a raw input denotes, when [parseInteger] accepts it. *)
Definition integer_input (raw : string) : option Z :=
  let v := Num.Number raw in
  if negb (Num.isFinite v) || negb (Num.isInteger v) then None
  else Some (Num.int_value v).

Definition isAdminOp (op : string) : bool :=
  ((op =? "set") || (op =? "update") || (op =? "reset") ||
   (op =? "delete"))%string.

Definition methodFor (op : string) : HttpMethod :=
  if isAdminOp op then POST else GET.

(** [buildUrl]; [None] is [undefined].  The numbers it is given are the
    integers [parseInteger] returned; [new URL] throws on an invalid URL
    (which does not happen here, see [buildUrl_total]). *)
Definition buildUrl (op namespace key : string)
  (initializer value : option Z) : M string :=
  let base := normalizeBaseUrl BASE_URL in
  let path := "/" ++ op ++ "/" ++ encodeURIComponent namespace ++ "/" ++
              encodeURIComponent key in
  match URL.parse (base ++ path) with
  | None => throw (TypeError "Invalid URL")
  | Some url =>
      let url :=
        match initializer with
        | Some i =>
            if (op =? "create")%string
            then URL.searchParams_set "initializer" (show i) url
            else url
        | None => url
        end in
      let url :=
        match value with
        | Some v =>
            if ((op =? "set") || (op =? "update"))%string
            then URL.searchParams_set "value" (show v) url
            else url
        | None => url
        end in
      ret (URL.toString url)
  end.

(** [truncate]; the length is counted on the representation. *)
Definition truncate (s : string) (max : Z) : string :=
  let len := Z.of_nat (String.length s) in
  if len <=? max then s
  else Str.take (Z.to_nat max) s ++ "… [truncated " ++ show (len - max) ++
       " chars]".

Definition redactKeys : list string :=
  ["admin_key"; "authorization"; "Authorization"].

Definition redactKeys_has (k : string) : bool :=
  existsb (String.eqb k) redactKeys.

(** The replacer of [sanitizeForLogs]:
    [(k, v) => redactKeys.has(k) ? "***" : v]. *)
Definition redact_replacer (k : string) : option string :=
  if redactKeys_has k then Some "***" else None.

(** [sanitizeForLogs]; [JSON.stringify] does not throw on a JSON value, so
    that the [catch] branch is not entered. *)
Definition sanitizeForLogs (input : JSValue) : string :=
  match input with
  | JStr s => truncate s MAX_LOG_BODY_CHARS
  | _ => truncate (JSON.stringify redact_replacer "  " input)
                  MAX_LOG_BODY_CHARS
  end.

Definition logRateLimit (res : Response) : M unit :=
  let part (label header : string) : list string :=
    match headers_get res header with
    | Some v => if truthy v then [label ++ "=" ++ v] else []
    | None => []
    end in
  let parts :=
    (part "limit" "X-RateLimit-Limit" ++
     part "remaining" "X-RateLimit-Remaining" ++
     part "reset" "X-RateLimit-Reset" ++
     part "retryAfterMs" "Retry-After")%list in
  when (0 <? List.length parts)%nat
       (emit (Info ("rate-limit: " ++ Str.join " " parts))).

Inductive Step : Type :=
| Continue (backoffMs : Z)
| Return (res : Response).

(** [bodyText = await res.text()] under its own [try]/[catch], and the
    diagnostic line for a non-empty body. *)
Definition logBody (label : string) (res : Response) : M unit :=
  bodyText <- try_catch (text res) (fun _ => ret EmptyString) ;;
  when (truthy bodyText)
       (emit (Debug ("response body (" ++ label ++ "): " ++
                     sanitizeForLogs (JStr bodyText)))).

(** One iteration of the loop of [requestWithRetries], after the attempt
    counter has been incremented: the [try] block and its [catch]. *)
Definition attempt_once (url : string) (method : HttpMethod)
  (hdrs : list (string * string)) (attempt backoffMs : Z) : M Step :=
  try_catch
    (res <- fetch url method hdrs ;;
     emit (Info ("response: status=" ++ show (status res))) ;;;
     logRateLimit res ;;;
     if (status res =? 429) && (attempt <? MAX_ATTEMPTS) then
       waitMs <- match headers_get res "Retry-After" with
                 | Some ra =>
                     if truthy ra then
                       v <- parseInteger "Retry-After" ra ;;
                       ret (Z.max 0 v)
                     else ret backoffMs
                 | None => ret backoffMs
                 end ;;
       logBody "429" res ;;;
       emit (Info ("retry: status=429 waitMs=" ++ show waitMs)) ;;;
       sleep waitMs ;;;
       ret (Continue (Z.min (backoffMs * 2) 8000))
     else if (500 <=? status res) && (status res <=? 599) &&
             (attempt <? MAX_ATTEMPTS) then
       logBody "5xx" res ;;;
       emit (Info ("retry: status=" ++ show (status res) ++
                   " backoffMs=" ++ show backoffMs)) ;;;
       sleep backoffMs ;;;
       ret (Continue (Z.min (backoffMs * 2) 8000))
     else ret (Return res))
    (fun err =>
       emit (Info ("network error: " ++ message err)) ;;;
       if MAX_ATTEMPTS <=? attempt then throw err
       else
         emit (Info ("retry: network backoffMs=" ++ show backoffMs)) ;;;
         sleep backoffMs ;;;
         ret (Continue (Z.min (backoffMs * 2) 8000))).

(** The [while (true)] loop; [attempt] and [backoffMs] are the values of
    the variables when an iteration starts. *)
Fixpoint retry_loop (fuel : nat) (url : string) (method : HttpMethod)
  (hdrs : list (string * string)) (attempt backoffMs : Z) : M Response :=
  match fuel with
  | O => out_of_fuel
  | S f =>
      let attempt := attempt + 1 in
      emit (Info ("attempt: " ++ show attempt ++ "/" ++ show MAX_ATTEMPTS)) ;;;
      step <- attempt_once url method hdrs attempt backoffMs ;;
      match step with
      | Return res => ret res
      | Continue b => retry_loop f url method hdrs attempt b
      end
  end.

Definition requestWithRetries_fuel (fuel : nat) (url : string)
  (method : HttpMethod) (hdrs : list (string * string)) : M Response :=
  emit (Info ("request: " ++ HttpMethod_to_string method ++ " " ++ url)) ;;;
  retry_loop fuel url method hdrs 0 500.

(** [requestWithRetries]: the loop ends within [MAX_ATTEMPTS] iterations
    (see [requestWithRetries_total]). *)
Definition requestWithRetries (url : string) (method : HttpMethod)
  (hdrs : list (string * string)) : M Response :=
  requestWithRetries_fuel (Z.to_nat MAX_ATTEMPTS) url method hdrs.

(** [readJsonSafely]: the pair [{ rawText, json }]. *)
Definition readJsonSafely (res : Response) : M (string * JSValue) :=
  rawText <- text res ;;
  if negb (truthy rawText) then ret (EmptyString, JObj [])
  else
    match JSON.parse rawText with
    | Some json => ret (rawText, json)
    | None => ret (rawText, JObj [("error", JStr rawText)])
    end.

(** [payload?.name], for the property names [main.ts] reads: [None] is
    [undefined]. *)
Definition opt_member (payload : JSValue) (name : string) : option JSValue :=
  match payload with
  | JObj fields => JSON.lookup name fields
  | _ => None
  end.

(** [payload.name]: reading a property of [null] throws. *)
Definition member (payload : JSValue) (name : string) : M (option JSValue) :=
  match payload with
  | JNull =>
      throw (TypeError ("Cannot read properties of null (reading '" ++
                        name ++ "')"))
  | _ => ret (opt_member payload name)
  end.

Definition setOutputIfPresent (name : string) (value : option JSValue)
  : M unit :=
  match value with
  | None | Some JNull => ret tt
  | Some v => emit (SetOutput name (ToString v))
  end.

(** [if (payload?.[k] !== undefined) out[k] = payload[k]]. *)
Definition copy_field (payload : JSValue) (k : string)
  (out : list (string * JSValue)) : list (string * JSValue) :=
  match opt_member payload k with
  | Some v => JSON.set_field k v out
  | None => out
  end.

Definition logOutputs (operation : string) (payload : JSValue) : M unit :=
  let out := copy_field payload "value" [] in
  let out :=
    if (operation =? "create")%string then
      let out := copy_field payload "namespace" out in
      let out := copy_field payload "key" out in
      match opt_member payload "admin_key" with
      | Some _ => JSON.set_field "admin_key" (JStr "***") out
      | None => out
      end
    else out in
  let out :=
    if (operation =? "info")%string then
      fold_left (fun o k => copy_field payload k o)
        ["exists"; "expires_in"; "expires_str"; "full_key"; "is_genuine"] out
    else out in
  let out :=
    if (operation =? "delete")%string then
      let out := copy_field payload "status" out in
      copy_field payload "message" out
    else out in
  emit (Info ("outputs: " ++ sanitizeForLogs (JObj out))).

(** [core.getInput]: the inputs of the workflow step, by name. *)
Definition Inputs : Type := string -> string.

(** The part of [run] after the response has arrived: the body is read
    and interpreted, the outputs are set. *)
Definition interpret (operation : string) (res : Response) : M unit :=
  parsed <- readJsonSafely res ;;
  let '(rawText, payload) := parsed in
  emit (Debug ("response body: " ++
               sanitizeForLogs match payload with
                               | JNull => JStr rawText
                               | _ => payload
                               end)) ;;;
  (if negb (ok res) then
     let errMsg :=
       match opt_member payload "error" with
       | Some (JStr e) => e
       | _ => "Request failed with status " ++ show (status res)
       end in
     throw (Error (errMsg ++ " (operation=" ++ operation ++ ")"))
   else ret tt) ;;;
  v <- member payload "value" ;; setOutputIfPresent "value" v ;;;
  when (operation =? "create")%string
       (v <- member payload "namespace" ;; setOutputIfPresent "namespace" v ;;;
        v <- member payload "key" ;; setOutputIfPresent "key" v ;;;
        v <- member payload "admin_key" ;; setOutputIfPresent "admin_key" v ;;;
        match opt_member payload "admin_key" with
        | Some (JStr k) => emit (SetSecret k)
        | _ => ret tt
        end) ;;;
  when (operation =? "info")%string
       (v <- member payload "exists" ;; setOutputIfPresent "exists" v ;;;
        v <- member payload "expires_in" ;; setOutputIfPresent "expires_in" v ;;;
        v <- member payload "expires_str" ;; setOutputIfPresent "expires_str" v ;;;
        v <- member payload "full_key" ;; setOutputIfPresent "full_key" v ;;;
        v <- member payload "is_genuine" ;; setOutputIfPresent "is_genuine" v) ;;;
  when (operation =? "delete")%string
       (v <- member payload "status" ;; setOutputIfPresent "status" v ;;;
        v <- member payload "message" ;; setOutputIfPresent "message" v) ;;;
  logOutputs operation payload.

(** The operation of an invocation: [core.getInput("operation") || "hit"]. *)
Definition operation_of (getInput : Inputs) : string :=
  if truthy (getInput "operation") then getInput "operation" else "hit".

Definition is_set_or_update (operation : string) : bool :=
  ((operation =? "set") || (operation =? "update"))%string.

(** The headers of the request. *)
Definition request_headers (operation adminKey : string)
  : list (string * string) :=
  ("Accept", "application/json") ::
  (if isAdminOp operation then [("Authorization", "Bearer " ++ adminKey)]
   else []).

(** The request of an invocation. *)
Record Request : Type := mkRequest {
  req_url : string;
  req_method : HttpMethod;
  req_headers : list (string * string)
}.

(** The part of [run] before the request is sent: the inputs are read and
    validated, the URL, the method and the headers are built. *)
Definition prepare (getInput : Inputs) : M Request :=
  let operationRaw := operation_of getInput in
  let operation := operationRaw in
  let namespace := getInput "namespace" in
  let key := getInput "key" in
  requireNonEmpty "namespace" namespace ;;;
  requireNonEmpty "key" key ;;;
  validateName "namespace" namespace ;;;
  validateName "key" key ;;;
  let initializerRaw :=
    if truthy (getInput "initializer") then getInput "initializer" else "0" in
  let valueRaw := getInput "value" in
  let adminKey := getInput "admin_key" in
  emit (Info ("op: " ++ operation ++ " namespace=" ++ namespace ++
              " key=" ++ key)) ;;;
  when (isAdminOp operation)
       (requireNonEmpty "admin_key" adminKey ;;;
        emit (SetSecret adminKey)) ;;;
  (if is_set_or_update operation &&
      (negb (truthy valueRaw) || (Str.trim valueRaw =? EmptyString)%string)
   then throw (Error ("Missing required input: value (required for operation="
                      ++ operation ++ ")"))
   else ret tt) ;;;
  initializer <- (if (operation =? "create")%string
                  then v <- parseInteger "initializer" initializerRaw ;;
                       ret (Some v)
                  else ret None) ;;
  value <- (if is_set_or_update operation
            then v <- parseInteger "value" valueRaw ;; ret (Some v)
            else ret None) ;;
  url <- buildUrl operation namespace key initializer value ;;
  let method := methodFor operation in
  let hdrs := request_headers operation adminKey in
  ret (mkRequest url method hdrs).

(** [run]: prepare the request, send it, interpret the response. *)
Definition run (getInput : Inputs) : M unit :=
  req <- prepare getInput ;;
  res <- requestWithRetries (req_url req) (req_method req) (req_headers req) ;;
  interpret (operation_of getInput) res.

(** The entry point: [run().catch((err) => core.setFailed(msg))]. *)
Definition main (getInput : Inputs) : M unit :=
  try_catch (run getInput) (fun err => emit (SetFailed (message err))).

(** The result of a whole invocation on a network. *)
Definition execute {A} (m : M A) (net : Network)
  : Outcome A * list Event * nat := m net O.

(** The inputs given by a list of pairs; an input that is not listed is
    empty. *)
Definition inputs_of (l : list (string * string)) : Inputs :=
  fun name =>
    match find (fun '(n, _) => (n =? name)%string) l with
    | Some (_, v) => v
    | None => EmptyString
    end.

(** The network that answers with the results [l], in order, and then
    goes on as [rest]. *)
Definition answers (l : list FetchResult) (rest : Network) : Network :=
  fun n => match nth_error l n with
           | Some r => r
           | None => rest (n - List.length l)%nat
           end.

(** A response with a text body. *)
Definition response (st : Z) (hdrs : list (string * string)) (b : string)
  : FetchResult :=
  Responded (mkResponse st hdrs (BodyText b)).

(** A network that is down: every request fails in the transport. *)
Definition unreachable : Network :=
  fun _ => Rejected (TypeError "fetch failed").

(* ===================================================================== *)
(** * Specification-level notions *)
(* ===================================================================== *)

(** A computation is silent when it returns its value without a request
    and without a wait. *)
Definition silent {A} (m : M A) (a : A) : Prop :=
  forall net n, exists ev, m net n = (Returned a, ev, n) /\ timeline ev = [].

(** The wait after a 429 response with attempts left. *)
Definition retry_wait (res : Response) (backoffMs : Z) : Z :=
  match headers_get res "Retry-After" with
  | Some ra =>
      if truthy ra then
        match integer_input ra with
        | Some v => Z.max 0 v
        | None => backoffMs
        end
      else backoffMs
  | None => backoffMs
  end.

(** The backoff after a retry. *)
Definition next_backoff (backoffMs : Z) : Z := Z.min (backoffMs * 2) 8000.

(** The redaction in the words of the specification: in a structured
    value, the value of every field with a credential-like name is the
    mask token; everything else is kept. *)
Fixpoint redact (v : JSValue) : JSValue :=
  match v with
  | JArr elems => JArr (map redact elems)
  | JObj fields =>
      JObj (map (fun kv : string * JSValue =>
                   (fst kv,
                    if redactKeys_has (fst kv) then JStr "***"
                    else redact (snd kv)))
                fields)
  | _ => v
  end.

(** No field with a credential-like name holds anything but the mask. *)
Fixpoint masked (v : JSValue) : bool :=
  match v with
  | JArr elems => forallb masked elems
  | JObj fields =>
      forallb (fun kv : string * JSValue =>
                 if redactKeys_has (fst kv) then
                   match snd kv with
                   | JStr s => (s =? "***")%string
                   | _ => false
                   end
                 else masked (snd kv))
              fields
  | _ => true
  end.

(** A character the URL parser does not strip. *)
Definition visible (c : ascii) : bool := negb (URL.is_c0_or_space c).

(** The query string of a built URL, in the words of the specification:
    [initializer] for [create], [value] for [set] and [update], nothing
    for any other operation. *)
Definition expected_query (op : Op.Operation) (initializer value : option Z)
  : string :=
  match op, initializer, value with
  | Op.create, Some i, _ => "?initializer=" ++ URL.form_encode (show i)
  | Op.set, _, Some v | Op.update, _, Some v =>
      "?value=" ++ URL.form_encode (show v)
  | _, _, _ => EmptyString
  end.

(** A computation is quiet when it makes no request and no wait, and
    does not run out of fuel. *)
Definition quiet {A} (m : M A) : Prop :=
  forall net n,
    timeline (events_of (m net n)) = [] /\ snd (m net n) = n /\
    outcome_of (m net n) <> OutOfFuel.

(** [JSON.stringify] without a replacer. *)
Definition no_replacer (k : string) : option string := None.

(** ** Notions for the further properties of the code *)

(** A status the executor does not retry: neither 429 nor 5xx. *)
Definition final_status (st : Z) : bool :=
  negb (st =? 429) && negb ((500 <=? st) && (st <=? 599)).

(** A result the executor retries while it has attempts left: a 429 or
    5xx response, or a transport failure. *)
Definition retryable (r : FetchResult) : bool :=
  match r with
  | Responded res => negb (final_status (status res))
  | Rejected _ => true
  end.

(** The wait after a retried result. *)
Definition wait_after (r : FetchResult) (backoffMs : Z) : Z :=
  match r with
  | Responded res =>
      if status res =? 429 then retry_wait res backoffMs else backoffMs
  | Rejected _ => backoffMs
  end.

(** The waits after the results [n], ..., [n + k - 1], all retried, from
    the backoff [backoffMs]. *)
Fixpoint waits (net : Network) (n : nat) (backoffMs : Z) (k : nat) : list Z :=
  match k with
  | O => []
  | S k' =>
      wait_after (net n) backoffMs :: waits net (S n) (next_backoff backoffMs) k'
  end.

(** What the executor ends with when its last request has the result [r]. *)
Definition outcome_for (r : FetchResult) : Outcome Response :=
  match r with
  | Responded res => Returned res
  | Rejected e => Thrown e
  end.

(** An event without the headers of the request it records. *)
Definition strip_headers (e : Event) : Event :=
  match e with
  | Fetch url method _ => Fetch url method []
  | _ => e
  end.

(** Two runs that differ at most in the headers of their requests. *)
Definition same_up_to_headers {A} (r r' : Outcome A * list Event * nat)
  : Prop :=
  outcome_of r = outcome_of r' /\ snd r = snd r' /\
  map strip_headers (events_of r) = map strip_headers (events_of r').

Definition is_SetOutput (e : Event) : bool :=
  match e with SetOutput _ _ => true | _ => false end.

Definition is_SetFailed (e : Event) : bool :=
  match e with SetFailed _ => true | _ => false end.

(** An event that reports the result of the invocation to the workflow:
    an output or the failure. *)
Definition is_result (e : Event) : bool := is_SetOutput e || is_SetFailed e.

(** All the events of a computation satisfy [P]. *)
Definition emits_only (P : Event -> Prop) {A} (m : M A) : Prop :=
  forall net n, Forall P (events_of (m net n)).


(** The [json] of [readJsonSafely] for a body text. *)
Definition payload_of (rawText : string) : JSValue :=
  if negb (truthy rawText) then JObj []
  else
    match JSON.parse rawText with
    | Some json => json
    | None => JObj [("error", JStr rawText)]
    end.

(** The part of [run] that sets the outputs of a successful response. *)
Definition set_outputs (operation : string) (payload : JSValue) : M unit :=
  v <- member payload "value" ;; setOutputIfPresent "value" v ;;;
  when (operation =? "create")%string
       (v <- member payload "namespace" ;; setOutputIfPresent "namespace" v ;;;
        v <- member payload "key" ;; setOutputIfPresent "key" v ;;;
        v <- member payload "admin_key" ;; setOutputIfPresent "admin_key" v ;;;
        match opt_member payload "admin_key" with
        | Some (JStr k) => emit (SetSecret k)
        | _ => ret tt
        end) ;;;
  when (operation =? "info")%string
       (v <- member payload "exists" ;; setOutputIfPresent "exists" v ;;;
        v <- member payload "expires_in" ;; setOutputIfPresent "expires_in" v ;;;
        v <- member payload "expires_str" ;; setOutputIfPresent "expires_str" v ;;;
        v <- member payload "full_key" ;; setOutputIfPresent "full_key" v ;;;
        v <- member payload "is_genuine" ;; setOutputIfPresent "is_genuine" v) ;;;
  when (operation =? "delete")%string
       (v <- member payload "status" ;; setOutputIfPresent "status" v ;;;
        v <- member payload "message" ;; setOutputIfPresent "message" v) ;;;
  logOutputs operation payload.

(** The names of the outputs an operation can set. *)
Definition output_names (operation : string) : list string :=
  ("value" ::
   (if (operation =? "create")%string
    then ["namespace"; "key"; "admin_key"] else []) ++
   (if (operation =? "info")%string
    then ["exists"; "expires_in"; "expires_str"; "full_key"; "is_genuine"]
    else []) ++
   (if (operation =? "delete")%string then ["status"; "message"] else []))%list.

(** An event without the credentials it records: the headers of a request
    and the value registered as a secret. *)
Definition hide_credentials (e : Event) : Event :=
  match e with
  | Fetch url method _ => Fetch url method []
  | SetSecret _ => SetSecret EmptyString
  | _ => e
  end.

(** Two computations that do the same up to the credentials in their
    events, and end with the same error or with values related by [R]. *)
Definition similar {A} (R : A -> A -> Prop) (m m' : M A) : Prop :=
  forall net n,
    snd (m net n) = snd (m' net n) /\
    map hide_credentials (events_of (m net n)) =
    map hide_credentials (events_of (m' net n)) /\
    match outcome_of (m net n), outcome_of (m' net n) with
    | Returned a, Returned a' => R a a'
    | Thrown e, Thrown e' => e = e'
    | OutOfFuel, OutOfFuel => True
    | _, _ => False
    end.

(** Two requests to the same URL with the same method. *)
Definition same_target (req req' : Request) : Prop :=
  req_url req = req_url req' /\ req_method req = req_method req'.

(** The output a field gives: none when the field is absent or [null]. *)
Definition output_of (name : string) (fields : list (string * JSValue))
  : list Event :=
  match JSON.lookup name fields with
  | None | Some JNull => []
  | Some x => [SetOutput name (ToString x)]
  end.




(* ===================================================================== *)
(** * Properties *)
(* ===================================================================== *)

Arguments show : simpl never.
Arguments sanitizeForLogs : simpl never.
Arguments Num.Number : simpl never.
Arguments String.append : simpl nomatch.
Arguments timeline : simpl never.
Arguments buildUrl : simpl never.
Arguments attempts : simpl never.

(** ** The models of the built-in functions on sample inputs *)

Lemma Number_samples :
  map (fun s => Num.to_Z (Num.Number s))
      ["2"; " 42 "; "1e3"; "0x10"; "-17"; "1.0"; "5."; "-0"; "1e21";
       "9007199254740993"; "1e-400"] =
  [Some 2; Some 42; Some 1000; Some 16; Some (-17); Some 1; Some 5; Some 0;
   Some 1000000000000000000000; Some 9007199254740992; Some 0] /\
  map integer_input
      ["1.5"; "abc"; "12px"; "Infinity"; "1e309"; "soon"; "1,5"; "- 1";
       "Wed, 21 Oct 2015 07:28:00 GMT"] =
  [None; None; None; None; None; None; None; None; None].
Proof. vm_compute. split; reflexivity. Qed.

Lemma toString_samples :
  map (fun s => Num.toString (Num.Number s))
      ["0"; "-0"; "7"; "-17"; "0.1"; "1.5"; "1e21"; "123456789012345678901";
       "5e-324"; "1e23"; "0.000001"; "1e-7"; "1.7976931348623157e308";
       "1e309"; "abc"] =
  ["0"; "0"; "7"; "-17"; "0.1"; "1.5"; "1e+21"; "123456789012345680000";
   "5e-324"; "1e+23"; "0.000001"; "1e-7"; "1.7976931348623157e+308";
   "Infinity"; "NaN"].
Proof. vm_compute. reflexivity. Qed.

Lemma JSON_samples :
  JSON.parse (Str.q "{'value':0,'namespace':'org','key':'k','admin_key':'secret'}") =
  Some (JObj [("value", JNum (S754_zero false)); ("namespace", JStr "org");
              ("key", JStr "k"); ("admin_key", JStr "secret")]) /\
  JSON.parse (Str.q "{'b':1,'1':[true,null],'b':'x'}") =
  Some (JObj [("1", JArr [JBool true; JNull]); ("b", JStr "x")]) /\
  map JSON.parse ["<html>"; "{"; "01"; "[1,]"; "tru"; "{}x"; " "] =
  [None; None; None; None; None; None; None] /\
  JSON.stringify no_replacer "  " (JObj [("a", JArr [JNum (Num.of_Z 1); JNull]);
                                         ("b", JObj [])]) =
  Str.q ("{" ++ Str.nl ++ "  'a': [" ++ Str.nl ++ "    1," ++ Str.nl ++
         "    null" ++ Str.nl ++ "  ]," ++ Str.nl ++ "  'b': {}" ++ Str.nl ++
         "}").
Proof. vm_compute. repeat split. Qed.

Lemma URL_samples :
  map (fun s => option_map URL.toString (URL.parse s))
      ["https://abacus.jasoncameron.dev";
       "https://abacus.jasoncameron.dev/hit/my-org/build-api";
       "https://abacus.jasoncameron.dev/hit/../abc";
       "https://abacus.jasoncameron.dev/a/./b/%2E%2e/c/..";
       "https://abacus.jasoncameron.dev/a b/c?x=1#f g"] =
  [Some "https://abacus.jasoncameron.dev/";
   Some "https://abacus.jasoncameron.dev/hit/my-org/build-api";
   Some "https://abacus.jasoncameron.dev/abc";
   Some "https://abacus.jasoncameron.dev/a/";
   Some "https://abacus.jasoncameron.dev/a%20b/c?x=1#f%20g"] /\
  encodeURIComponent "a b/c?d=e&f" = "a%20b%2Fc%3Fd%3De%26f".
Proof. vm_compute. split; reflexivity. Qed.

(** The whole invocation on the example of a successful [create]. *)
Lemma create_round_trip :
  execute (main (inputs_of [("operation", "create"); ("namespace", "org");
                            ("key", "k-1")]))
          (answers [response 200 []
                      (Str.q "{'value':0,'namespace':'org','key':'k-1','admin_key':'secret'}")]
                   unreachable) =
  (Returned tt,
   [Info "op: create namespace=org key=k-1";
    Info "request: GET https://abacus.jasoncameron.dev/create/org/k-1?initializer=0";
    Info "attempt: 1/5";
    Fetch "https://abacus.jasoncameron.dev/create/org/k-1?initializer=0" GET
      [("Accept", "application/json")];
    Info "response: status=200";
    Debug ("response body: " ++
           Str.q ("{" ++ Str.nl ++ "  'value': 0," ++ Str.nl ++
                  "  'namespace': 'org'," ++ Str.nl ++ "  'key': 'k-1'," ++
                  Str.nl ++ "  'admin_key': '***'" ++ Str.nl ++ "}"));
    SetOutput "value" "0"; SetOutput "namespace" "org"; SetOutput "key" "k-1";
    SetOutput "admin_key" "secret"; SetSecret "secret";
    Info ("outputs: " ++
          Str.q ("{" ++ Str.nl ++ "  'value': 0," ++ Str.nl ++
                 "  'namespace': 'org'," ++ Str.nl ++ "  'key': 'k-1'," ++
                 Str.nl ++ "  'admin_key': '***'" ++ Str.nl ++ "}"))],
   1%nat).
Proof. vm_compute. reflexivity. Qed.

(** ** The fuel of [trim] *)

Lemma drop_length (n : nat) (s : string) :
  String.length (Str.drop n s) = (String.length s - n)%nat.
Proof.
  revert s. induction n as [| n IH]; intros s.
  - cbn. lia.
  - destruct s as [| c r]; [reflexivity |]. cbn [Str.drop String.length].
    apply IH.
Qed.

(** What [trimStart] returns starts with no white space: the fuel, the
    length of the string, was enough. *)
Lemma trimStart_done (s : string) : Str.ws_len (Str.trimStart s) = O.
Proof.
  unfold Str.trimStart.
  assert (H : forall fuel t, (String.length t <= fuel)%nat ->
                             Str.ws_len (Str.trimStart_aux fuel t) = O).
  { induction fuel as [| f IH]; intros t Hle.
    - destruct t; [reflexivity | cbn in Hle; lia].
    - cbn [Str.trimStart_aux]. destruct (Str.ws_len t) as [| k] eqn:E;
        [exact E |].
      apply IH. rewrite drop_length.
      destruct t; [discriminate E | cbn [String.length] in *; lia]. }
  now apply H.
Qed.

(** ** The fuel of [JSON.parse] *)

Lemma skip_ws_length (s : string) :
  (String.length (JSON.skip_ws s) <= String.length s)%nat.
Proof.
  induction s as [| c r IH]; [reflexivity |].
  cbn [JSON.skip_ws]. destruct (JSON.is_json_ws c); cbn [String.length]; lia.
Qed.

Lemma eat_length (c : ascii) (s r : string) :
  JSON.eat c s = Some r -> String.length s = S (String.length r).
Proof.
  destruct s as [| d s']; [discriminate |]. cbn [JSON.eat].
  destruct (Ascii.eqb d c); [| discriminate]. intros H. now inversion H.
Qed.

Lemma span_length (p : ascii -> bool) (s a b : string) :
  Str.span p s = (a, b) ->
  String.length s = (String.length a + String.length b)%nat.
Proof.
  revert a b. induction s as [| c r IH]; intros a b H.
  - inversion H. reflexivity.
  - cbn [Str.span] in H. destruct (p c).
    + destruct (Str.span p r) as [a' b'] eqn:E. inversion H; subst.
      cbn [String.length]. now rewrite (IH a' b).
    + inversion H. reflexivity.
Qed.

Lemma prefix_drop_length (lit s : string) :
  prefix lit s = true ->
  (String.length (Str.drop (String.length lit) s) + String.length lit)%nat =
  String.length s.
Proof.
  revert s. induction lit as [| c lit IH]; intros s H.
  - cbn. lia.
  - destruct s as [| d s']; [discriminate |]. cbn [prefix] in H.
    destruct (ascii_dec c d); [| discriminate].
    cbn [String.length Str.drop]. rewrite <- (IH s' H). lia.
Qed.

Lemma prepend_inv (t0 t rest : string) (o : option (string * string)) :
  JSON.prepend t0 o = Some (t, rest) -> exists t', o = Some (t', rest).
Proof.
  destruct o as [[t' r] |]; [| discriminate]. intros H. inversion H; subst.
  now exists t'.
Qed.

(** A string literal is shorter than the text it was read from. *)
Lemma parse_string_body_rest (s t rest : string) :
  JSON.parse_string_body s = Some (t, rest) ->
  (String.length rest < String.length s)%nat.
Proof.
  assert (Hgen : forall n s t rest,
             (String.length s <= n)%nat ->
             JSON.parse_string_body s = Some (t, rest) ->
             (String.length rest < String.length s)%nat);
    [| intros H0; exact (Hgen (String.length s) s t rest (le_n _) H0)].
  clear. intros n.
  induction n as [| n IH]; intros s t rest Hle H.
  - destruct s; [discriminate H | cbn in Hle; lia].
  - destruct s as [| c r]; [discriminate H |].
    cbn [String.length] in Hle. cbn [JSON.parse_string_body] in H.
    destruct (Ascii.eqb c Str.dquote).
    { inversion H; subst. cbn [String.length]. lia. }
    destruct (Ascii.eqb c "\").
    2:{ destruct (Str.code c <? 32); [discriminate |].
        apply prepend_inv in H as [t' H]. apply IH in H; [| lia].
        cbn [String.length]. lia. }
    destruct r as [| e r']; [discriminate |].
    cbn [String.length] in Hle |- *.
    destruct (Ascii.eqb e "u").
    2:{ destruct (JSON.simple_escape e); [| discriminate].
        apply prepend_inv in H as [t' H]. apply IH in H; lia. }
    destruct r' as [| a [| b [| c' [| d r2]]]]; try discriminate.
    cbn [String.length] in Hle |- *.
    destruct (JSON.hex4 a b c' d) as [hi |]; [| discriminate].
    assert (Hplain : forall t1,
               JSON.prepend t1 (JSON.parse_string_body r2) = Some (t, rest) ->
               (String.length rest < S (S (S (S (S (S (String.length r2)))))))%nat).
    { intros t1 H1. apply prepend_inv in H1 as [t' H1].
      apply IH in H1; lia. }
    destruct r2 as [| b1 [| b2 [| a' [| b' [| c'' [| d' r4]]]]]];
      try (now apply Hplain in H).
    destruct (JSON.surrogate_pair hi b1 b2 a' b' c'' d');
      [| now apply Hplain in H].
    apply prepend_inv in H as [t' H]. apply IH in H;
      cbn [String.length] in *; lia.
Qed.

Lemma parse_key_rest (s t rest : string) :
  JSON.parse_key s = Some (t, rest) ->
  (String.length rest < String.length s)%nat.
Proof.
  unfold JSON.parse_key. destruct (JSON.eat Str.dquote s) as [r |] eqn:E;
    [| discriminate].
  intros H. apply parse_string_body_rest in H. apply eat_length in E. lia.
Qed.

Lemma parse_number_rest (s rest : string) (x : Num.number) :
  JSON.parse_number s = Some (x, rest) ->
  (String.length rest < String.length s)%nat.
Proof.
  unfold JSON.parse_number.
  assert (Hs1 : forall neg s1,
             match JSON.eat "-" s with
             | Some r => (true, r)
             | None => (false, s)
             end = (neg, s1) ->
             (String.length s1 <= String.length s)%nat).
  { intros neg s1 H. destruct (JSON.eat "-" s) as [r |] eqn:E;
      inversion H; subst; [apply eat_length in E |]; lia. }
  destruct (match JSON.eat "-" s with
            | Some r => (true, r)
            | None => (false, s)
            end) as [neg s1] eqn:Es.
  specialize (Hs1 neg s1 eq_refl).
  destruct (Str.span Str.is_digit s1) as [ip r1] eqn:Eip.
  apply span_length in Eip.
  destruct (Str.is_empty ip || _) eqn:Hip; [discriminate |].
  apply orb_false_iff in Hip as [Hip _].
  assert (Hpos : (0 < String.length ip)%nat)
    by (destruct ip; [discriminate Hip | cbn; lia]).
  unfold JSON.parse_fraction_part.
  assert (Hfrac : forall fp r2,
             match JSON.eat "." r1 with
             | Some r =>
                 let '(fp, r') := Str.span Str.is_digit r in
                 if Str.is_empty fp then None else Some (fp, r')
             | None => Some (EmptyString, r1)
             end = Some (fp, r2) ->
             (String.length r2 <= String.length r1)%nat).
  { intros fp r2 H. destruct (JSON.eat "." r1) as [r |] eqn:E.
    - apply eat_length in E.
      destruct (Str.span Str.is_digit r) as [fp' r'] eqn:Ef.
      apply span_length in Ef.
      destruct (Str.is_empty fp'); [discriminate |]. inversion H; subst. lia.
    - inversion H; subst. lia. }
  destruct (match JSON.eat "." r1 with
            | Some r =>
                let '(fp, r') := Str.span Str.is_digit r in
                if Str.is_empty fp then None else Some (fp, r')
            | None => Some (EmptyString, r1)
            end) as [[fp r2] |] eqn:Ef; [| discriminate].
  specialize (Hfrac fp r2 eq_refl).
  unfold JSON.parse_exponent_part.
  destruct r2 as [| c r3].
  { intros H. inversion H; subst. cbn [String.length] in *. lia. }
  destruct (Ascii.eqb c "e" || Ascii.eqb c "E")%bool.
  2:{ intros H. inversion H; subst. lia. }
  assert (Hsign : forall eneg r4,
             match JSON.eat "+" r3 with
             | Some r' => (false, r')
             | None =>
                 match JSON.eat "-" r3 with
                 | Some r' => (true, r')
                 | None => (false, r3)
                 end
             end = (eneg, r4) ->
             (String.length r4 <= String.length r3)%nat).
  { intros eneg r4 H. destruct (JSON.eat "+" r3) as [r |] eqn:E1.
    - apply eat_length in E1. inversion H; subst. lia.
    - destruct (JSON.eat "-" r3) as [r |] eqn:E2; inversion H; subst;
        [apply eat_length in E2 |]; lia. }
  destruct (match JSON.eat "+" r3 with
            | Some r' => (false, r')
            | None =>
                match JSON.eat "-" r3 with
                | Some r' => (true, r')
                | None => (false, r3)
                end
            end) as [eneg r4] eqn:Esign.
  specialize (Hsign eneg r4 eq_refl).
  destruct (Str.span Str.is_digit r4) as [ed r5] eqn:Ee.
  apply span_length in Ee.
  destruct (Str.is_empty ed); [discriminate |].
  intros H. inversion H; subst. cbn [String.length] in *. lia.
Qed.

Lemma parse_literal_rest (s rest : string) (v : JSValue) :
  JSON.parse_literal s = Some (v, rest) ->
  (String.length rest < String.length s)%nat.
Proof.
  unfold JSON.parse_literal. intros H.
  destruct (prefix "true" s) eqn:E1;
    [| destruct (prefix "false" s) eqn:E2;
       [| destruct (prefix "null" s) eqn:E3; [| discriminate]]];
    injection H as _ Hr; subst rest.
  - pose proof (prefix_drop_length _ _ E1) as L.
    cbn [String.length Str.drop] in L |- *. lia.
  - pose proof (prefix_drop_length _ _ E2) as L.
    cbn [String.length Str.drop] in L |- *. lia.
  - pose proof (prefix_drop_length _ _ E3) as L.
    cbn [String.length Str.drop] in L |- *. lia.
Qed.

Section CompositeFuel.

Variable pv : string -> option (JSValue * string).

Hypothesis pv_rest :
  forall s v rest, pv s = Some (v, rest) ->
                   (String.length rest < String.length s)%nat.

Lemma parse_elements_rest (fuel : nat) :
  forall s acc vs rest,
    JSON.parse_elements pv fuel s acc = Some (vs, rest) ->
    (String.length rest < String.length s)%nat.
Proof.
  induction fuel as [| f IH]; intros s acc vs rest H; [discriminate |].
  cbn [JSON.parse_elements] in H.
  destruct (pv s) as [[v r] |] eqn:E; [| discriminate].
  apply pv_rest in E. pose proof (skip_ws_length r) as L.
  destruct (JSON.skip_ws r) as [| c r']; [discriminate |].
  cbn [String.length] in L.
  destruct (Ascii.eqb c ",").
  - apply IH in H. pose proof (skip_ws_length r'). lia.
  - destruct (Ascii.eqb c "]"); [| discriminate]. inversion H; subst. lia.
Qed.

Lemma parse_members_rest (fuel : nat) :
  forall s acc fs rest,
    JSON.parse_members pv fuel s acc = Some (fs, rest) ->
    (String.length rest < String.length s)%nat.
Proof.
  induction fuel as [| f IH]; intros s acc fs rest H; [discriminate |].
  cbn [JSON.parse_members] in H.
  destruct (JSON.parse_key s) as [[k r1] |] eqn:Ek; [| discriminate].
  apply parse_key_rest in Ek. pose proof (skip_ws_length r1) as L1.
  destruct (JSON.eat ":" (JSON.skip_ws r1)) as [r2 |] eqn:Ec; [| discriminate].
  apply eat_length in Ec. pose proof (skip_ws_length r2) as L2.
  destruct (pv (JSON.skip_ws r2)) as [[v r3] |] eqn:E; [| discriminate].
  apply pv_rest in E. pose proof (skip_ws_length r3) as L3.
  destruct (JSON.skip_ws r3) as [| c r']; [discriminate |].
  cbn [String.length] in L3.
  destruct (Ascii.eqb c ",").
  - apply IH in H. pose proof (skip_ws_length r'). lia.
  - destruct (Ascii.eqb c "}"); [| discriminate]. inversion H; subst. lia.
Qed.

(** With fuel for the length of the text, the loops do not depend on the
    fuel, nor on what the value parser does on longer texts. *)
Variable pv' : string -> option (JSValue * string).

Lemma parse_elements_agree (fuel : nat) :
  forall fuel' s acc,
    (String.length s <= fuel)%nat -> (String.length s <= fuel')%nat ->
    (forall s', (String.length s' <= String.length s)%nat -> pv s' = pv' s') ->
    JSON.parse_elements pv fuel s acc = JSON.parse_elements pv' fuel' s acc.
Proof.
  induction fuel as [| f IH]; intros fuel' s acc Hf Hf' Hagree.
  - destruct s; [| cbn in Hf; lia].
    destruct fuel' as [| f']; [reflexivity |].
    cbn [JSON.parse_elements]. rewrite <- Hagree by reflexivity.
    destruct (pv EmptyString) as [[v r] |] eqn:E; [| reflexivity].
    apply pv_rest in E. cbn in E. lia.
  - destruct fuel' as [| f'].
    + destruct s; [| cbn in Hf'; lia].
      cbn [JSON.parse_elements].
      destruct (pv EmptyString) as [[v r] |] eqn:E; [| reflexivity].
      apply pv_rest in E. cbn in E. lia.
    + cbn [JSON.parse_elements]. rewrite <- Hagree by reflexivity.
      destruct (pv s) as [[v r] |] eqn:E; [| reflexivity].
      apply pv_rest in E. pose proof (skip_ws_length r) as L.
      destruct (JSON.skip_ws r) as [| c r']; [reflexivity |].
      cbn [String.length] in L. pose proof (skip_ws_length r') as L'.
      destruct (Ascii.eqb c ","); [| reflexivity].
      apply IH; try lia. intros s' Hs'. apply Hagree. lia.
Qed.

Lemma parse_members_agree (fuel : nat) :
  forall fuel' s acc,
    (String.length s <= fuel)%nat -> (String.length s <= fuel')%nat ->
    (forall s', (String.length s' <= String.length s)%nat -> pv s' = pv' s') ->
    JSON.parse_members pv fuel s acc = JSON.parse_members pv' fuel' s acc.
Proof.
  assert (Hempty : JSON.parse_key EmptyString = None) by reflexivity.
  induction fuel as [| f IH]; intros fuel' s acc Hf Hf' Hagree.
  - destruct s; [| cbn in Hf; lia].
    destruct fuel' as [| f']; [reflexivity |].
    cbn [JSON.parse_members]. now rewrite Hempty.
  - destruct fuel' as [| f'].
    + destruct s; [| cbn in Hf'; lia].
      cbn [JSON.parse_members]. now rewrite Hempty.
    + cbn [JSON.parse_members].
      destruct (JSON.parse_key s) as [[k r1] |] eqn:Ek; [| reflexivity].
      apply parse_key_rest in Ek. pose proof (skip_ws_length r1) as L1.
      destruct (JSON.eat ":" (JSON.skip_ws r1)) as [r2 |] eqn:Ec;
        [| reflexivity].
      apply eat_length in Ec. pose proof (skip_ws_length r2) as L2.
      rewrite <- Hagree by lia.
      destruct (pv (JSON.skip_ws r2)) as [[v r3] |] eqn:E; [| reflexivity].
      apply pv_rest in E. pose proof (skip_ws_length r3) as L3.
      destruct (JSON.skip_ws r3) as [| c r']; [reflexivity |].
      cbn [String.length] in L3. pose proof (skip_ws_length r') as L'.
      destruct (Ascii.eqb c ","); [| reflexivity].
      apply IH; try lia. intros s' Hs'. apply Hagree. lia.
Qed.

End CompositeFuel.

(** A value is shorter than the text it was read from. *)
Lemma parse_value_rest (fuel : nat) :
  forall s v rest,
    JSON.parse_value fuel s = Some (v, rest) ->
    (String.length rest < String.length s)%nat.
Proof.
  induction fuel as [| f IH]; intros s v rest H; [discriminate |].
  cbn [JSON.parse_value] in H.
  destruct s as [| c r]; [discriminate |].
  pose proof (skip_ws_length r) as L. cbn [String.length].
  destruct (Ascii.eqb c "{").
  { destruct (JSON.eat "}" (JSON.skip_ws r)) as [r' |] eqn:E.
    - apply eat_length in E. inversion H; subst. lia.
    - destruct (JSON.parse_members _ f _ _) as [[fs rest'] |] eqn:Em;
        [| discriminate].
      apply (parse_members_rest _ IH) in Em. inversion H; subst. lia. }
  destruct (Ascii.eqb c "[").
  { destruct (JSON.eat "]" (JSON.skip_ws r)) as [r' |] eqn:E.
    - apply eat_length in E. inversion H; subst. lia.
    - destruct (JSON.parse_elements _ f _ _) as [[vs rest'] |] eqn:Em;
        [| discriminate].
      apply (parse_elements_rest _ IH) in Em. inversion H; subst. lia. }
  destruct (Ascii.eqb c Str.dquote).
  { destruct (JSON.parse_string_body r) as [[t rest'] |] eqn:E;
      [| discriminate].
    apply parse_string_body_rest in E. inversion H; subst. lia. }
  destruct (Str.is_lower c).
  { apply parse_literal_rest in H. cbn [String.length] in H. lia. }
  destruct (JSON.parse_number (String c r)) as [[x rest'] |] eqn:E;
    [| discriminate].
  apply parse_number_rest in E. inversion H; subst.
  cbn [String.length] in E. lia.
Qed.

(** Fuel beyond the length of the text changes nothing. *)
Theorem parse_value_fuel (fuel : nat) :
  forall fuel' s,
    (String.length s < fuel)%nat -> (String.length s < fuel')%nat ->
    JSON.parse_value fuel s = JSON.parse_value fuel' s.
Proof.
  induction fuel as [| f IH]; intros fuel' s Hf Hf'; [lia |].
  destruct fuel' as [| f']; [lia |].
  cbn [JSON.parse_value].
  destruct s as [| c r]; [reflexivity |].
  cbn [String.length] in Hf, Hf'. pose proof (skip_ws_length r) as L.
  assert (Hagree : forall s',
             (String.length s' <= String.length (JSON.skip_ws r))%nat ->
             JSON.parse_value f s' = JSON.parse_value f' s').
  { intros s' Hs'. apply IH; lia. }
  rewrite (parse_members_agree (JSON.parse_value f) (parse_value_rest f)
             (JSON.parse_value f') f f' (JSON.skip_ws r) [])
    by (lia || exact Hagree).
  rewrite (parse_elements_agree (JSON.parse_value f) (parse_value_rest f)
             (JSON.parse_value f') f f' (JSON.skip_ws r) [])
    by (lia || exact Hagree).
  reflexivity.
Qed.

(** [JSON.parse] with any fuel beyond the length of the text. *)
Corollary JSON_parse_fuel (fuel : nat) (text : string) :
  (String.length text < fuel)%nat ->
  JSON.parse text =
  match JSON.parse_value fuel (JSON.skip_ws text) with
  | Some (v, rest) => if Str.is_empty (JSON.skip_ws rest) then Some v else None
  | None => None
  end.
Proof.
  intros Hf. unfold JSON.parse.
  pose proof (skip_ws_length text) as L.
  rewrite (parse_value_fuel (S (String.length text)) fuel) by lia.
  reflexivity.
Qed.

(** ** Traces *)

Lemma timeline_app (a b : list Event) :
  timeline (a ++ b) = (timeline a ++ timeline b)%list.
Proof. apply filter_app. Qed.

Lemma timeline_cons (e : Event) (l : list Event) :
  timeline (e :: l) =
  if is_Fetch e || is_Sleep e then e :: timeline l else timeline l.
Proof. reflexivity. Qed.

Lemma timeline_nil : timeline [] = [].
Proof. reflexivity. Qed.

Lemma attempts_timeline (ev : list Event) :
  attempts (timeline ev) = attempts ev.
Proof.
  unfold attempts, timeline. induction ev as [| e l IH]; [reflexivity |].
  destruct e; cbn; rewrite ?IH; reflexivity.
Qed.

Lemma sleeps_timeline (ev : list Event) : sleeps (timeline ev) = sleeps ev.
Proof.
  unfold sleeps, timeline. induction ev as [| e l IH]; [reflexivity |].
  destruct e; cbn; rewrite ?IH; reflexivity.
Qed.

Lemma attempts_app (a b : list Event) :
  attempts (a ++ b) = (attempts a + attempts b)%nat.
Proof. unfold attempts. now rewrite filter_app, length_app. Qed.

Lemma attempts_cons (e : Event) (l : list Event) :
  attempts (e :: l) = ((if is_Fetch e then 1 else 0) + attempts l)%nat.
Proof. unfold attempts. simpl. now destruct (is_Fetch e). Qed.

Lemma attempts_nil : attempts [] = 0%nat.
Proof. reflexivity. Qed.

Create Rewrite HintDb trace.
#[local] Hint Rewrite timeline_app timeline_cons timeline_nil
  attempts_app attempts_cons attempts_nil : trace.

Ltac trace_simpl :=
  autorewrite with trace; cbn [is_Fetch is_Sleep orb app Nat.add].

Lemma silent_ret {A} (a : A) : silent (ret a) a.
Proof. intros net n. exists []. now split. Qed.

Lemma silent_when (c : bool) (msg : string) :
  silent (when c (emit (Info msg))) tt.
Proof.
  intros net n. destruct c; cbn.
  - exists [Info msg]. now split.
  - exists []. now split.
Qed.

Lemma logRateLimit_silent (res : Response) : silent (logRateLimit res) tt.
Proof. unfold logRateLimit. apply silent_when. Qed.

Lemma logBody_silent (label : string) (res : Response) :
  silent (logBody label res) tt.
Proof.
  intros net n. unfold logBody, bind, try_catch, text.
  destruct (body res) as [t | e]; cbn.
  - destruct (truthy t); cbn; eexists; split; reflexivity.
  - eexists; split; reflexivity.
Qed.

Lemma parseInteger_run (name raw : string) (net : Network) (n : nat) :
  parseInteger name raw net n =
  match integer_input raw with
  | Some z => (Returned z, [], n)
  | None =>
      (Thrown (Error ("Invalid " ++ name ++ ": expected integer, got " ++
                      Str.dq ++ raw ++ Str.dq)), [], n)
  end.
Proof.
  unfold parseInteger, integer_input.
  now destruct (negb (Num.isFinite (Num.Number raw)) ||
                negb (Num.isInteger (Num.Number raw))).
Qed.

(** ** One attempt *)

Section Attempt.

Variables (url : string) (method : HttpMethod) (hdrs : list (string * string)).
Variables (net : Network) (n : nat).
Variables (attempt backoffMs : Z).

(** A transport failure: fatal at the ceiling, else wait and retry. *)
Lemma attempt_once_rejected (e : JSError) :
  net n = Rejected e ->
  attempt_once url method hdrs attempt backoffMs net n =
  if MAX_ATTEMPTS <=? attempt then
    (Thrown e,
     [Fetch url method hdrs; Info ("network error: " ++ message e)], S n)
  else
    (Returned (Continue (next_backoff backoffMs)),
     [Fetch url method hdrs; Info ("network error: " ++ message e);
      Info ("retry: network backoffMs=" ++ show backoffMs);
      Sleep backoffMs], S n).
Proof.
  intros Hnet. unfold attempt_once, try_catch, bind, fetch. rewrite Hnet.
  destruct (MAX_ATTEMPTS <=? attempt); reflexivity.
Qed.

(** What happens to a response, as a function of the counters. *)
Lemma attempt_once_responded (res : Response) :
  net n = Responded res ->
  exists ev,
    if (status res =? 429) && (attempt <? MAX_ATTEMPTS) then
      attempt_once url method hdrs attempt backoffMs net n =
      (Returned (Continue (next_backoff backoffMs)), ev, S n) /\
      timeline ev = [Fetch url method hdrs; Sleep (retry_wait res backoffMs)]
    else if (500 <=? status res) && (status res <=? 599) &&
            (attempt <? MAX_ATTEMPTS) then
      attempt_once url method hdrs attempt backoffMs net n =
      (Returned (Continue (next_backoff backoffMs)), ev, S n) /\
      timeline ev = [Fetch url method hdrs; Sleep backoffMs]
    else
      attempt_once url method hdrs attempt backoffMs net n =
      (Returned (Return res), ev, S n) /\
      timeline ev = [Fetch url method hdrs].
Proof.
  intros Hnet. unfold attempt_once, try_catch, bind, fetch. rewrite Hnet.
  cbn [emit]. unfold retry_wait, next_backoff.
  destruct (logRateLimit_silent res net (S n)) as (ev1 & E1 & T1).
  rewrite E1.
  destruct ((status res =? 429) && (attempt <? MAX_ATTEMPTS)) eqn:H429.
  - apply andb_prop in H429 as [_ Hlt].
    assert (Hge : (MAX_ATTEMPTS <=? attempt) = false)
      by (apply Z.leb_gt; now apply Z.ltb_lt).
    destruct (logBody_silent "429" res net (S n)) as (ev2 & E2 & T2).
    destruct (headers_get res "Retry-After") as [ra |].
    + destruct (truthy ra).
      * rewrite parseInteger_run.
        destruct (integer_input ra) as [v |].
        -- cbn. rewrite E2. cbn. eexists. split; [reflexivity |].
           trace_simpl. now rewrite T1, T2.
        -- cbn. rewrite Hge. cbn. eexists. split; [reflexivity |].
           trace_simpl. now rewrite T1.
      * cbn. rewrite E2. cbn. eexists. split; [reflexivity |].
        trace_simpl. now rewrite T1, T2.
    + cbn. rewrite E2. cbn. eexists. split; [reflexivity |].
      trace_simpl. now rewrite T1, T2.
  - destruct ((500 <=? status res) && (status res <=? 599) &&
              (attempt <? MAX_ATTEMPTS)) eqn:H5xx.
    + destruct (logBody_silent "5xx" res net (S n)) as (ev2 & E2 & T2).
      rewrite E2. cbn. eexists. split; [reflexivity |].
      trace_simpl. now rewrite T1, T2.
    + cbn. eexists. split; [reflexivity |].
      trace_simpl. now rewrite T1.
Qed.

(** A 429 response with attempts left. *)
Lemma attempt_once_429 (res : Response) :
  net n = Responded res -> status res = 429 -> attempt < MAX_ATTEMPTS ->
  exists ev,
    attempt_once url method hdrs attempt backoffMs net n =
    (Returned (Continue (next_backoff backoffMs)), ev, S n) /\
    timeline ev = [Fetch url method hdrs; Sleep (retry_wait res backoffMs)].
Proof.
  intros Hnet Hst Hlt.
  destruct (attempt_once_responded res Hnet) as (ev & H).
  rewrite Hst, (proj2 (Z.ltb_lt _ _) Hlt) in H. now exists ev.
Qed.

(** A 5xx response with attempts left. *)
Lemma attempt_once_5xx (res : Response) :
  net n = Responded res -> 500 <= status res <= 599 ->
  attempt < MAX_ATTEMPTS ->
  exists ev,
    attempt_once url method hdrs attempt backoffMs net n =
    (Returned (Continue (next_backoff backoffMs)), ev, S n) /\
    timeline ev = [Fetch url method hdrs; Sleep backoffMs].
Proof.
  intros Hnet [Hlo Hhi] Hlt.
  destruct (attempt_once_responded res Hnet) as (ev & H).
  replace (status res =? 429) with false in H
    by (symmetry; apply Z.eqb_neq; lia).
  rewrite (proj2 (Z.leb_le _ _) Hlo), (proj2 (Z.leb_le _ _) Hhi),
    (proj2 (Z.ltb_lt _ _) Hlt) in H.
  now exists ev.
Qed.

(** Every other response, and every response at the ceiling, is final. *)
Lemma attempt_once_final (res : Response) :
  net n = Responded res ->
  MAX_ATTEMPTS <= attempt \/
  (status res <> 429 /\ (status res < 500 \/ 599 < status res)) ->
  exists ev,
    attempt_once url method hdrs attempt backoffMs net n =
    (Returned (Return res), ev, S n) /\
    timeline ev = [Fetch url method hdrs].
Proof.
  intros Hnet Hfin.
  destruct (attempt_once_responded res Hnet) as (ev & H).
  destruct Hfin as [Hge | [H429 Hout]].
  - replace (attempt <? MAX_ATTEMPTS) with false in H
      by (symmetry; apply Z.ltb_ge; exact Hge).
    rewrite !andb_false_r in H. now exists ev.
  - replace (status res =? 429) with false in H
      by (symmetry; now apply Z.eqb_neq).
    replace ((500 <=? status res) && (status res <=? 599)) with false in H
      by (symmetry; apply andb_false_iff;
          destruct Hout; [left; apply Z.leb_gt | right; apply Z.leb_gt]; lia).
    now exists ev.
Qed.

(** An attempt goes on to another one only below the ceiling. *)
Lemma attempt_once_continue (b : Z) (ev : list Event) (n' : nat) :
  attempt_once url method hdrs attempt backoffMs net n =
  (Returned (Continue b), ev, n') ->
  attempt < MAX_ATTEMPTS.
Proof.
  intros E. destruct (net n) as [res | e] eqn:Hnet.
  - destruct (attempt_once_responded res Hnet) as (ev' & H).
    destruct (attempt <? MAX_ATTEMPTS) eqn:Hlt; [now apply Z.ltb_lt |].
    rewrite !andb_false_r in H. destruct H as [H _]. congruence.
  - rewrite (attempt_once_rejected e Hnet) in E.
    destruct (MAX_ATTEMPTS <=? attempt) eqn:Hge; [discriminate |].
    now apply Z.leb_gt.
Qed.

End Attempt.

(** ** The retry loop *)

Section Loop.

Variables (url : string) (method : HttpMethod) (hdrs : list (string * string)).
Variable net : Network.

(** The loop ends with the result of its last request: a response, or the
    transport failure of the attempt that reached the ceiling. *)
Lemma retry_loop_ends (fuel : nat) :
  forall (attempt backoffMs : Z) (n : nat),
    attempt < MAX_ATTEMPTS ->
    MAX_ATTEMPTS - attempt <= Z.of_nat fuel ->
    exists o ev,
      retry_loop fuel url method hdrs attempt backoffMs net n =
      (o, ev, (n + attempts ev)%nat) /\
      (1 <= attempts ev)%nat /\
      Z.of_nat (attempts ev) <= MAX_ATTEMPTS - attempt /\
      match o with
      | Returned res => net (n + attempts ev - 1)%nat = Responded res
      | Thrown e =>
          Z.of_nat (attempts ev) = MAX_ATTEMPTS - attempt /\
          net (n + attempts ev - 1)%nat = Rejected e
      | OutOfFuel => False
      end.
Proof.
  pose proof (eq_refl : MAX_ATTEMPTS = 5) as HM.
  induction fuel as [| f IH]; intros attempt backoffMs n Hlt Hfuel.
  - change (Z.of_nat 0) with 0 in Hfuel. lia.
  - assert (Hnext : forall ev1,
               attempts ev1 = 1%nat ->
               attempt + 1 < MAX_ATTEMPTS ->
               attempt_once url method hdrs (attempt + 1) backoffMs net n =
               (Returned (Continue (next_backoff backoffMs)), ev1, S n) ->
               exists o ev,
                 retry_loop (S f) url method hdrs attempt backoffMs net n =
                 (o, ev, (n + attempts ev)%nat) /\
                 (1 <= attempts ev)%nat /\
                 Z.of_nat (attempts ev) <= MAX_ATTEMPTS - attempt /\
                 match o with
                 | Returned res => net (n + attempts ev - 1)%nat = Responded res
                 | Thrown e =>
                     Z.of_nat (attempts ev) = MAX_ATTEMPTS - attempt /\
                     net (n + attempts ev - 1)%nat = Rejected e
                 | OutOfFuel => False
                 end).
    { intros ev1 A1 Hlt' E1.
      destruct (IH (attempt + 1) (next_backoff backoffMs) (S n) Hlt')
        as (o & ev & E & Hone & Hmax & Ho); [lia |].
      cbn [retry_loop]. unfold bind at 1. cbn [emit]. unfold bind at 1.
      rewrite E1, E.
      match goal with |- exists _ ev0, (_, ?l, _) = _ /\ _ => exists o, l end.
      split; [| split; [| split]].
      - trace_simpl. rewrite A1. f_equal. lia.
      - trace_simpl. lia.
      - trace_simpl. lia.
      - trace_simpl. rewrite A1.
        destruct o as [res | e |]; [| destruct Ho as [Hn Ho]; split; [lia |] |];
          try exact Ho;
          match goal with
          | |- net ?k = _ =>
              replace k with (S n + attempts ev - 1)%nat by lia
          end; exact Ho. }
    destruct (net n) as [res | e] eqn:Hnet.
    + destruct (attempt_once_responded url method hdrs net n (attempt + 1)
                  backoffMs res Hnet) as (ev1 & Hcases).
      assert (A1 : attempts ev1 = 1%nat).
      { rewrite <- attempts_timeline.
        destruct ((status res =? 429) && (attempt + 1 <? MAX_ATTEMPTS));
          [| destruct ((500 <=? status res) && (status res <=? 599) &&
                       (attempt + 1 <? MAX_ATTEMPTS))];
          destruct Hcases as [_ T]; now rewrite T. }
      destruct ((status res =? 429) && (attempt + 1 <? MAX_ATTEMPTS)) eqn:H429;
        [| destruct ((500 <=? status res) && (status res <=? 599) &&
                     (attempt + 1 <? MAX_ATTEMPTS)) eqn:H5xx ].
      * destruct Hcases as [E1 _]. apply (Hnext ev1 A1); [| exact E1].
        apply andb_prop in H429 as [_ H]. now apply Z.ltb_lt.
      * destruct Hcases as [E1 _]. apply (Hnext ev1 A1); [| exact E1].
        apply andb_prop in H5xx as [_ H]. now apply Z.ltb_lt.
      * destruct Hcases as [E1 _].
        cbn [retry_loop]. unfold bind at 1. cbn [emit]. unfold bind at 1.
        rewrite E1. cbn [ret].
        match goal with
        | |- exists _ ev0, (_, ?l, _) = _ /\ _ => exists (Returned res), l
        end.
        split; [| split; [| split]].
        -- trace_simpl. rewrite A1. f_equal. lia.
        -- trace_simpl. lia.
        -- trace_simpl. lia.
        -- trace_simpl. rewrite A1.
           match goal with |- net ?k = _ => replace k with n by lia end.
           assumption.
    + pose proof (attempt_once_rejected url method hdrs net n (attempt + 1)
                    backoffMs e Hnet) as E1.
      destruct (MAX_ATTEMPTS <=? attempt + 1) eqn:Hge.
      * apply Z.leb_le in Hge.
        cbn [retry_loop]. unfold bind at 1. cbn [emit]. unfold bind at 1.
        rewrite E1.
        match goal with
        | |- exists _ ev0, (_, ?l, _) = _ /\ _ => exists (Thrown e), l
        end.
        split; [| split; [| split]].
        -- trace_simpl. f_equal. lia.
        -- trace_simpl. lia.
        -- trace_simpl. lia.
        -- trace_simpl. split; [lia |].
           match goal with |- net ?k = _ => replace k with n by lia end.
           assumption.
      * apply Z.leb_gt in Hge.
        eapply Hnext; [| exact Hge | exact E1]. reflexivity.
Qed.

(** One iteration that goes on. *)
Lemma retry_loop_continue (fuel : nat) (attempt backoffMs b : Z)
  (n n1 : nat) (ev1 : list Event) :
  attempt_once url method hdrs (attempt + 1) backoffMs net n =
  (Returned (Continue b), ev1, n1) ->
  retry_loop (S fuel) url method hdrs attempt backoffMs net n =
  let '(o, ev, n') := retry_loop fuel url method hdrs (attempt + 1) b net n1 in
  (o, Info ("attempt: " ++ show (attempt + 1) ++ "/" ++ show MAX_ATTEMPTS)
      :: ev1 ++ ev, n').
Proof.
  intros E. cbn [retry_loop]. unfold bind at 1. cbn [emit]. unfold bind at 1.
  rewrite E. now destruct (retry_loop fuel _ _ _ _ _ _ _) as [[o ev] n'].
Qed.

(** The last iteration, when it returns a response. *)
Lemma retry_loop_return (fuel : nat) (attempt backoffMs : Z)
  (n n1 : nat) (ev1 : list Event) (res : Response) :
  attempt_once url method hdrs (attempt + 1) backoffMs net n =
  (Returned (Return res), ev1, n1) ->
  retry_loop (S fuel) url method hdrs attempt backoffMs net n =
  (Returned res,
   Info ("attempt: " ++ show (attempt + 1) ++ "/" ++ show MAX_ATTEMPTS)
   :: ev1, n1).
Proof.
  intros E. cbn [retry_loop]. unfold bind at 1. cbn [emit]. unfold bind at 1.
  rewrite E. cbn. now rewrite app_nil_r.
Qed.

(** The last iteration, when it throws. *)
Lemma retry_loop_throw (fuel : nat) (attempt backoffMs : Z)
  (n n1 : nat) (ev1 : list Event) (e : JSError) :
  attempt_once url method hdrs (attempt + 1) backoffMs net n =
  (Thrown e, ev1, n1) ->
  retry_loop (S fuel) url method hdrs attempt backoffMs net n =
  (Thrown e,
   Info ("attempt: " ++ show (attempt + 1) ++ "/" ++ show MAX_ATTEMPTS)
   :: ev1, n1).
Proof.
  intros E. cbn [retry_loop]. unfold bind at 1. cbn [emit]. unfold bind at 1.
  now rewrite E.
Qed.

Lemma retry_loop_out_of_fuel (fuel : nat) (attempt backoffMs : Z)
  (n n1 : nat) (ev1 : list Event) :
  attempt_once url method hdrs (attempt + 1) backoffMs net n =
  (OutOfFuel, ev1, n1) ->
  retry_loop (S fuel) url method hdrs attempt backoffMs net n =
  (OutOfFuel,
   Info ("attempt: " ++ show (attempt + 1) ++ "/" ++ show MAX_ATTEMPTS)
   :: ev1, n1).
Proof.
  intros E. cbn [retry_loop]. unfold bind at 1. cbn [emit]. unfold bind at 1.
  now rewrite E.
Qed.

(** More fuel than the attempts that are left changes nothing. *)
Lemma retry_loop_fuel (fuel : nat) :
  forall (attempt backoffMs : Z) (n : nat),
    attempt < MAX_ATTEMPTS ->
    MAX_ATTEMPTS - attempt <= Z.of_nat fuel ->
    retry_loop (S fuel) url method hdrs attempt backoffMs net n =
    retry_loop fuel url method hdrs attempt backoffMs net n.
Proof.
  pose proof (eq_refl : MAX_ATTEMPTS = 5) as HM.
  induction fuel as [| f IH]; intros attempt backoffMs n Hlt Hfuel.
  - change (Z.of_nat 0) with 0 in Hfuel. lia.
  - destruct (attempt_once url method hdrs (attempt + 1) backoffMs net n)
      as [[[[b | res] | e |] ev1] n1] eqn:E.
    + pose proof (attempt_once_continue _ _ _ _ _ _ _ _ _ _ E) as Hlt'.
      rewrite (retry_loop_continue (S f) _ _ _ _ _ _ E).
      rewrite (retry_loop_continue f _ _ _ _ _ _ E).
      rewrite IH; [reflexivity | exact Hlt' | lia].
    + now rewrite !(retry_loop_return _ _ _ _ _ _ _ E).
    + now rewrite !(retry_loop_throw _ _ _ _ _ _ _ E).
    + now rewrite !(retry_loop_out_of_fuel _ _ _ _ _ _ E).
Qed.

End Loop.

(** The executor always ends: it makes between one and [MAX_ATTEMPTS]
    requests and yields the result of the last one, a response or, after
    [MAX_ATTEMPTS] requests, the transport failure of the last request. *)
Theorem requestWithRetries_total (url : string) (method : HttpMethod)
  (hdrs : list (string * string)) (net : Network) (n : nat) :
  exists o ev,
    requestWithRetries url method hdrs net n = (o, ev, (n + attempts ev)%nat) /\
    (1 <= attempts ev <= 5)%nat /\
    match o with
    | Returned res => net (n + attempts ev - 1)%nat = Responded res
    | Thrown e =>
        attempts ev = 5%nat /\ net (n + attempts ev - 1)%nat = Rejected e
    | OutOfFuel => False
    end.
Proof.
  destruct (retry_loop_ends url method hdrs net 5 0 500 n)
    as (o & ev & E & Hone & Hmax & Ho); [reflexivity | discriminate |].
  unfold requestWithRetries, requestWithRetries_fuel.
  change (Z.to_nat MAX_ATTEMPTS) with 5%nat.
  unfold bind. cbn [emit]. rewrite E.
  match goal with |- exists _ ev0, (_, ?l, _) = _ /\ _ => exists o, l end.
  change (MAX_ATTEMPTS - 0) with 5 in *.
  trace_simpl. split; [reflexivity |]. split; [lia |].
  destruct o as [res | e |]; [exact Ho | | exact Ho].
  destruct Ho as [H5 Ho]. split; [lia | exact Ho].
Qed.

(** Any fuel from [MAX_ATTEMPTS] on gives the same run. *)
Theorem requestWithRetries_fuel_enough (fuel : nat) (url : string)
  (method : HttpMethod) (hdrs : list (string * string))
  (net : Network) (n : nat) :
  (5 <= fuel)%nat ->
  requestWithRetries_fuel fuel url method hdrs net n =
  requestWithRetries url method hdrs net n.
Proof.
  intros Hf. unfold requestWithRetries.
  change (Z.to_nat MAX_ATTEMPTS) with 5%nat.
  induction Hf as [| f Hf IH]; [reflexivity |].
  rewrite <- IH. unfold requestWithRetries_fuel, bind.
  cbn [emit]. rewrite retry_loop_fuel; [reflexivity | reflexivity |].
  change (MAX_ATTEMPTS - 0) with 5. lia.
Qed.

(** ** The executor on given sequences of results *)

(** C1.  On the responses 429 with [Retry-After: 2], 429 without the
    header, 200, the executor requests, waits 2, requests, waits the
    backoff of that moment (the initial 500 doubled once), requests, and
    returns the third response: three attempts in all. *)
Theorem retry_after_then_backoff (url : string) (method : HttpMethod)
  (hdrs : list (string * string)) (net : Network) (r1 r2 r3 : Response) :
  net 0%nat = Responded r1 -> status r1 = 429 ->
  headers_get r1 "Retry-After" = Some "2" ->
  net 1%nat = Responded r2 -> status r2 = 429 ->
  headers_get r2 "Retry-After" = None ->
  net 2%nat = Responded r3 -> status r3 = 200 ->
  exists ev,
    execute (requestWithRetries url method hdrs) net = (Returned r3, ev, 3%nat) /\
    timeline ev =
      [Fetch url method hdrs; Sleep 2;
       Fetch url method hdrs; Sleep (next_backoff 500);
       Fetch url method hdrs] /\
    next_backoff 500 = 1000 /\
    attempts ev = 3%nat.
Proof.
  intros N1 S1 H1 N2 S2 H2 N3 S3.
  destruct (attempt_once_429 url method hdrs net 0 (0 + 1) 500 r1 N1 S1)
    as (ev1 & E1 & T1); [reflexivity |].
  destruct (attempt_once_429 url method hdrs net 1 (0 + 1 + 1)
              (next_backoff 500) r2 N2 S2) as (ev2 & E2 & T2); [reflexivity |].
  destruct (attempt_once_final url method hdrs net 2 (0 + 1 + 1 + 1)
              (next_backoff (next_backoff 500)) r3 N3)
    as (ev3 & E3 & T3); [right; rewrite S3; lia |].
  unfold execute, requestWithRetries, requestWithRetries_fuel.
  change (Z.to_nat MAX_ATTEMPTS) with 5%nat.
  unfold bind at 1. cbn [emit].
  rewrite (retry_loop_continue _ _ _ _ _ _ _ _ _ _ _ E1).
  rewrite (retry_loop_continue _ _ _ _ _ _ _ _ _ _ _ E2).
  rewrite (retry_loop_return _ _ _ _ _ _ _ _ _ _ _ E3).
  eexists. split; [reflexivity |].
  assert (W1 : retry_wait r1 500 = 2)
    by (unfold retry_wait; rewrite H1; reflexivity).
  assert (W2 : retry_wait r2 (next_backoff 500) = next_backoff 500)
    by (unfold retry_wait; now rewrite H2).
  split; [| split; [reflexivity |]].
  - trace_simpl. rewrite T1, T2, T3, W1, W2. reflexivity.
  - rewrite <- attempts_timeline. trace_simpl. rewrite T1, T2, T3. reflexivity.
Qed.

Lemma retry_after_then_backoff_witness :
  exists ev,
    execute (requestWithRetries "https://abacus.jasoncameron.dev/hit/my-org/build"
               GET [("Accept", "application/json")])
            (answers [response 429 [("Retry-After", "2")] "slow down";
                      response 429 [] EmptyString;
                      response 200 [] "{}"] unreachable) =
    (Returned (mkResponse 200 [] (BodyText "{}")), ev, 3%nat) /\
    timeline ev =
      [Fetch "https://abacus.jasoncameron.dev/hit/my-org/build" GET
         [("Accept", "application/json")]; Sleep 2;
       Fetch "https://abacus.jasoncameron.dev/hit/my-org/build" GET
         [("Accept", "application/json")]; Sleep (next_backoff 500);
       Fetch "https://abacus.jasoncameron.dev/hit/my-org/build" GET
         [("Accept", "application/json")]] /\
    next_backoff 500 = 1000 /\
    attempts ev = 3%nat.
Proof.
  apply (retry_after_then_backoff _ _ _ _
           (mkResponse 429 [("Retry-After", "2")] (BodyText "slow down"))
           (mkResponse 429 [] (BodyText EmptyString))
           (mkResponse 200 [] (BodyText "{}")));
    reflexivity.
Defined.

(** C2.  On five 503 responses in a row the executor makes five requests,
    waiting 500, 1000, 2000 and 4000 between them, and returns the fifth
    response: the outcome is a response, not an exception. *)
Theorem five_503_returns_last (url : string) (method : HttpMethod)
  (hdrs : list (string * string)) (net : Network) :
  (forall i, (i < 5)%nat -> exists res, net i = Responded res /\ status res = 503) ->
  exists res ev,
    net 4%nat = Responded res /\
    execute (requestWithRetries url method hdrs) net = (Returned res, ev, 5%nat) /\
    timeline ev =
      [Fetch url method hdrs; Sleep 500; Fetch url method hdrs; Sleep 1000;
       Fetch url method hdrs; Sleep 2000; Fetch url method hdrs; Sleep 4000;
       Fetch url method hdrs] /\
    attempts ev = 5%nat.
Proof.
  intros H.
  destruct (H 0%nat) as (r0 & N0 & S0); [lia |].
  destruct (H 1%nat) as (r1 & N1 & S1); [lia |].
  destruct (H 2%nat) as (r2 & N2 & S2); [lia |].
  destruct (H 3%nat) as (r3 & N3 & S3); [lia |].
  destruct (H 4%nat) as (r4 & N4 & S4); [lia |].
  destruct (attempt_once_5xx url method hdrs net 0 (0 + 1) 500 r0 N0)
    as (ev0 & E0 & T0); [rewrite S0; lia | reflexivity |].
  destruct (attempt_once_5xx url method hdrs net 1 (0 + 1 + 1)
              (next_backoff 500) r1 N1)
    as (ev1 & E1 & T1); [rewrite S1; lia | reflexivity |].
  destruct (attempt_once_5xx url method hdrs net 2 (0 + 1 + 1 + 1)
              (next_backoff (next_backoff 500)) r2 N2)
    as (ev2 & E2 & T2); [rewrite S2; lia | reflexivity |].
  destruct (attempt_once_5xx url method hdrs net 3 (0 + 1 + 1 + 1 + 1)
              (next_backoff (next_backoff (next_backoff 500))) r3 N3)
    as (ev3 & E3 & T3); [rewrite S3; lia | reflexivity |].
  destruct (attempt_once_final url method hdrs net 4 (0 + 1 + 1 + 1 + 1 + 1)
              (next_backoff (next_backoff (next_backoff (next_backoff 500))))
              r4 N4)
    as (ev4 & E4 & T4); [left; discriminate |].
  unfold execute, requestWithRetries, requestWithRetries_fuel.
  change (Z.to_nat MAX_ATTEMPTS) with 5%nat.
  unfold bind at 1. cbn [emit].
  rewrite (retry_loop_continue _ _ _ _ _ _ _ _ _ _ _ E0).
  rewrite (retry_loop_continue _ _ _ _ _ _ _ _ _ _ _ E1).
  rewrite (retry_loop_continue _ _ _ _ _ _ _ _ _ _ _ E2).
  rewrite (retry_loop_continue _ _ _ _ _ _ _ _ _ _ _ E3).
  rewrite (retry_loop_return _ _ _ _ _ _ _ _ _ _ _ E4).
  exists r4. eexists. split; [exact N4 |]. split; [reflexivity |]. split.
  - trace_simpl. rewrite T0, T1, T2, T3, T4. reflexivity.
  - rewrite <- attempts_timeline. trace_simpl.
    rewrite T0, T1, T2, T3, T4. reflexivity.
Qed.

Lemma five_503_returns_last_witness :
  exists res ev,
    answers (List.repeat (response 503 [] "busy") 5) unreachable 4%nat =
    Responded res /\
    execute (requestWithRetries "https://abacus.jasoncameron.dev/get/my-org/build"
               GET [("Accept", "application/json")])
            (answers (List.repeat (response 503 [] "busy") 5) unreachable) =
    (Returned res, ev, 5%nat) /\
    timeline ev =
      [Fetch "https://abacus.jasoncameron.dev/get/my-org/build" GET
         [("Accept", "application/json")]; Sleep 500;
       Fetch "https://abacus.jasoncameron.dev/get/my-org/build" GET
         [("Accept", "application/json")]; Sleep 1000;
       Fetch "https://abacus.jasoncameron.dev/get/my-org/build" GET
         [("Accept", "application/json")]; Sleep 2000;
       Fetch "https://abacus.jasoncameron.dev/get/my-org/build" GET
         [("Accept", "application/json")]; Sleep 4000;
       Fetch "https://abacus.jasoncameron.dev/get/my-org/build" GET
         [("Accept", "application/json")]] /\
    attempts ev = 5%nat.
Proof.
  apply five_503_returns_last.
  intros i Hi. exists (mkResponse 503 [] (BodyText "busy")).
  do 5 (destruct i as [| i]; [split; reflexivity |]). lia.
Defined.

(** C3.  When every request fails in the transport, the executor makes
    five requests, waiting 500, 1000, 2000 and 4000 between them, and
    then throws the failure of the fifth request as it is; no continuation
    of the executor runs, and the entry point reports the message of that
    very failure. *)
Theorem transport_failure_surfaces (url : string) (method : HttpMethod)
  (hdrs : list (string * string)) (net : Network) :
  (forall i, (i < 5)%nat -> exists e, net i = Rejected e) ->
  exists e ev,
    net 4%nat = Rejected e /\
    execute (requestWithRetries url method hdrs) net = (Thrown e, ev, 5%nat) /\
    timeline ev =
      [Fetch url method hdrs; Sleep 500; Fetch url method hdrs; Sleep 1000;
       Fetch url method hdrs; Sleep 2000; Fetch url method hdrs; Sleep 4000;
       Fetch url method hdrs] /\
    attempts ev = 5%nat /\
    forall k : Response -> M unit,
      execute (try_catch (res <- requestWithRetries url method hdrs ;; k res)
                         (fun err => emit (SetFailed (message err)))) net =
      (Returned tt, (ev ++ [SetFailed (message e)])%list, 5%nat).
Proof.
  intros H.
  destruct (H 0%nat) as (e0 & N0); [lia |].
  destruct (H 1%nat) as (e1 & N1); [lia |].
  destruct (H 2%nat) as (e2 & N2); [lia |].
  destruct (H 3%nat) as (e3 & N3); [lia |].
  destruct (H 4%nat) as (e4 & N4); [lia |].
  pose proof (attempt_once_rejected url method hdrs net 0 (0 + 1) 500 e0 N0)
    as E0.
  pose proof (attempt_once_rejected url method hdrs net 1 (0 + 1 + 1)
                (next_backoff 500) e1 N1) as E1.
  pose proof (attempt_once_rejected url method hdrs net 2 (0 + 1 + 1 + 1)
                (next_backoff (next_backoff 500)) e2 N2) as E2.
  pose proof (attempt_once_rejected url method hdrs net 3 (0 + 1 + 1 + 1 + 1)
                (next_backoff (next_backoff (next_backoff 500))) e3 N3) as E3.
  pose proof (attempt_once_rejected url method hdrs net 4
                (0 + 1 + 1 + 1 + 1 + 1)
                (next_backoff (next_backoff (next_backoff (next_backoff 500))))
                e4 N4) as E4.
  change (MAX_ATTEMPTS <=? 0 + 1) with false in E0.
  change (MAX_ATTEMPTS <=? 0 + 1 + 1) with false in E1.
  change (MAX_ATTEMPTS <=? 0 + 1 + 1 + 1) with false in E2.
  change (MAX_ATTEMPTS <=? 0 + 1 + 1 + 1 + 1) with false in E3.
  change (MAX_ATTEMPTS <=? 0 + 1 + 1 + 1 + 1 + 1) with true in E4.
  cbv iota in E0, E1, E2, E3, E4.
  assert (E : exists ev,
             execute (requestWithRetries url method hdrs) net =
             (Thrown e4, ev, 5%nat) /\
             timeline ev =
             [Fetch url method hdrs; Sleep 500; Fetch url method hdrs;
              Sleep 1000; Fetch url method hdrs; Sleep 2000;
              Fetch url method hdrs; Sleep 4000; Fetch url method hdrs]).
  { unfold execute, requestWithRetries, requestWithRetries_fuel.
    change (Z.to_nat MAX_ATTEMPTS) with 5%nat.
    unfold bind at 1. cbn [emit].
    rewrite (retry_loop_continue _ _ _ _ _ _ _ _ _ _ _ E0).
    rewrite (retry_loop_continue _ _ _ _ _ _ _ _ _ _ _ E1).
    rewrite (retry_loop_continue _ _ _ _ _ _ _ _ _ _ _ E2).
    rewrite (retry_loop_continue _ _ _ _ _ _ _ _ _ _ _ E3).
    rewrite (retry_loop_throw _ _ _ _ _ _ _ _ _ _ _ E4).
    eexists. split; reflexivity. }
  destruct E as (ev & E & T).
  exists e4, ev. split; [exact N4 |]. split; [exact E |].
  split; [exact T | split].
  - rewrite <- attempts_timeline. now rewrite T.
  - intros k. unfold execute, try_catch, bind in *. rewrite E. reflexivity.
Qed.

Lemma transport_failure_surfaces_witness :
  exists e ev,
    unreachable 4%nat = Rejected e /\
    execute (requestWithRetries "https://abacus.jasoncameron.dev/hit/my-org/build"
               GET [("Accept", "application/json")]) unreachable =
    (Thrown e, ev, 5%nat) /\
    timeline ev =
      [Fetch "https://abacus.jasoncameron.dev/hit/my-org/build" GET
         [("Accept", "application/json")]; Sleep 500;
       Fetch "https://abacus.jasoncameron.dev/hit/my-org/build" GET
         [("Accept", "application/json")]; Sleep 1000;
       Fetch "https://abacus.jasoncameron.dev/hit/my-org/build" GET
         [("Accept", "application/json")]; Sleep 2000;
       Fetch "https://abacus.jasoncameron.dev/hit/my-org/build" GET
         [("Accept", "application/json")]; Sleep 4000;
       Fetch "https://abacus.jasoncameron.dev/hit/my-org/build" GET
         [("Accept", "application/json")]] /\
    attempts ev = 5%nat /\
    forall k : Response -> M unit,
      execute (try_catch
                 (res <- requestWithRetries
                           "https://abacus.jasoncameron.dev/hit/my-org/build"
                           GET [("Accept", "application/json")] ;; k res)
                 (fun err => emit (SetFailed (message err)))) unreachable =
      (Returned tt, (ev ++ [SetFailed (message e)])%list, 5%nat).
Proof.
  apply transport_failure_surfaces.
  intros i Hi. exists (TypeError "fetch failed"). reflexivity.
Defined.

(** A 429 response with attempts left whose [Retry-After] header is not
    empty and not an integer: the error [parseInteger] throws is caught by
    the handler of transport failures, and the request is retried after
    the current backoff. *)
Lemma malformed_retry_after_is_retried (url : string) (method : HttpMethod)
  (hdrs : list (string * string)) (net : Network) (n : nat)
  (attempt backoffMs : Z) (res : Response) (ra : string) :
  net n = Responded res -> status res = 429 -> attempt < MAX_ATTEMPTS ->
  headers_get res "Retry-After" = Some ra -> truthy ra = true ->
  integer_input ra = None ->
  exists ev,
    attempt_once url method hdrs attempt backoffMs net n =
    (Returned (Continue (next_backoff backoffMs)), ev, S n) /\
    timeline ev = [Fetch url method hdrs; Sleep backoffMs].
Proof.
  intros Hnet Hst Hlt Hra Htr Hint.
  destruct (attempt_once_429 url method hdrs net n attempt backoffMs res
              Hnet Hst Hlt) as (ev & E & T).
  exists ev. split; [exact E |].
  rewrite T. unfold retry_wait. now rewrite Hra, Htr, Hint.
Qed.

(** C4.  The run on a 429 response with [Retry-After: soon] followed by a
    200 response: the malformed header is logged as a network error, the
    executor waits the backoff of 500 and returns the second response;
    nothing is thrown. *)
Theorem malformed_retry_after_run :
  execute (requestWithRetries "https://abacus.jasoncameron.dev/hit/my-org/build"
             GET [("Accept", "application/json")])
          (answers [response 429 [("Retry-After", "soon")] EmptyString;
                    response 200 [] "{}"] unreachable) =
  (Returned (mkResponse 200 [] (BodyText "{}")),
   [Info "request: GET https://abacus.jasoncameron.dev/hit/my-org/build";
    Info "attempt: 1/5";
    Fetch "https://abacus.jasoncameron.dev/hit/my-org/build" GET
      [("Accept", "application/json")];
    Info "response: status=429";
    Info "rate-limit: retryAfterMs=soon";
    Info ("network error: Invalid Retry-After: expected integer, got " ++
          Str.dq ++ "soon" ++ Str.dq);
    Info "retry: network backoffMs=500";
    Sleep 500;
    Info "attempt: 2/5";
    Fetch "https://abacus.jasoncameron.dev/hit/my-org/build" GET
      [("Accept", "application/json")];
    Info "response: status=200"],
   2%nat).
Proof. vm_compute. reflexivity. Qed.

(** ** The redacting logger *)

(** Induction on values, with the hypothesis for every element and for
    every field value. *)
Lemma JSValue_induction (P : JSValue -> Prop) :
  P JNull -> (forall b, P (JBool b)) -> (forall x, P (JNum x)) ->
  (forall s, P (JStr s)) ->
  (forall elems, Forall P elems -> P (JArr elems)) ->
  (forall fields, Forall (fun kv => P (snd kv)) fields -> P (JObj fields)) ->
  forall v, P v.
Proof.
  intros Hnull Hbool Hnum Hstr Harr Hobj.
  fix IH 1. intros [| b | x | s | elems | fields].
  - exact Hnull.
  - apply Hbool.
  - apply Hnum.
  - apply Hstr.
  - apply Harr. induction elems as [| e l IHl]; constructor; [apply IH | exact IHl].
  - apply Hobj. induction fields as [| [k e] l IHl]; constructor;
      [apply IH | exact IHl].
Qed.

(** The index of an array element is never a credential-like name. *)
Lemma index_not_redacted (i : Z) : redact_replacer (Str.of_Z i) = None.
Proof.
  unfold redact_replacer, Str.of_Z.
  destruct (Z.to_int i) as [d | d]; [destruct d | ]; reflexivity.
Qed.

(** Serializing with the replacer of [sanitizeForLogs] is serializing the
    redacted value. *)
Lemma serialize_redact (gap : string) (v : JSValue) :
  forall indent,
    JSON.serialize redact_replacer gap indent v =
    JSON.serialize no_replacer gap indent (redact v).
Proof.
  induction v as [| b | x | s | elems IH | fields IH] using JSValue_induction;
    intros indent; try reflexivity.
  - cbn [JSON.serialize redact]. f_equal.
    generalize 0 as i.
    induction IH as [| e l He _ IHl]; intros i; [reflexivity |].
    cbn [map]. rewrite index_not_redacted. cbn [no_replacer].
    rewrite He. f_equal. apply IHl.
  - cbn [JSON.serialize redact]. f_equal.
    induction IH as [| [k e] l He _ IHl]; [reflexivity |].
    cbn [map fst snd no_replacer]. unfold redact_replacer at 1.
    destruct (redactKeys_has k).
    + cbn [JSON.serialize]. f_equal. apply IHl.
    + cbn [snd] in He. rewrite He. f_equal. apply IHl.
Qed.

Lemma redact_masked (v : JSValue) : masked (redact v) = true.
Proof.
  induction v as [| b | x | s | elems IH | fields IH] using JSValue_induction;
    try reflexivity.
  - cbn [redact masked].
    induction IH as [| e l He _ IHl]; [reflexivity |].
    cbn [map forallb]. now rewrite He, IHl.
  - cbn [redact masked].
    induction IH as [| [k e] l He _ IHl]; [reflexivity |].
    cbn [map forallb fst snd]. rewrite IHl.
    destruct (redactKeys_has k); [reflexivity |].
    cbn [snd] in He. now rewrite He.
Qed.

(** C5, as the code has it.  The logger masks the fields named exactly
    [admin_key], [authorization] or [Authorization], at any depth: what it
    prints for a value that is not a string is the serialization of the
    redacted value, truncated, and in the redacted value every such field
    holds the mask token.  For [{admin_key: "abc123", value: 7}] the
    output has the mask token and not the secret. *)
Theorem sanitizeForLogs_redacts :
  (forall v : JSValue,
     sanitizeForLogs v =
     match v with
     | JStr s => truncate s MAX_LOG_BODY_CHARS
     | _ => truncate (JSON.stringify no_replacer "  " (redact v))
                     MAX_LOG_BODY_CHARS
     end /\
     masked (redact v) = true) /\
  (forall k, redactKeys_has k = true <->
             k = "admin_key" \/ k = "authorization" \/ k = "Authorization") /\
  let out := sanitizeForLogs
               (JObj [("admin_key", JStr "abc123");
                      ("value", JNum (Num.of_Z 7))]) in
  Str.contains "abc123" out = false /\ Str.contains (JSON.quote "***") out = true.
Proof.
  split; [| split].
  - intros v. split; [| apply redact_masked].
    unfold sanitizeForLogs, JSON.stringify.
    change (redact_replacer EmptyString) with (@None string).
    change (no_replacer EmptyString) with (@None string).
    destruct v; try reflexivity; now rewrite serialize_redact.
  - intros k. unfold redactKeys_has, redactKeys. cbn [existsb].
    rewrite !orb_true_iff, !String.eqb_eq. intuition congruence.
  - vm_compute. split; reflexivity.
Qed.

(** C5, as the specification words it, fails: a field named [ADMIN_KEY]
    matches [admin_key] when case is ignored, and its value is printed. *)
Lemma uppercase_admin_key_not_masked :
  Str.lower "ADMIN_KEY" = "admin_key" /\
  sanitizeForLogs (JObj [("ADMIN_KEY", JStr "abc123");
                         ("value", JNum (Num.of_Z 7))]) =
  Str.q ("{" ++ Str.nl ++
         "  'ADMIN_KEY': 'abc123'," ++ Str.nl ++
         "  'value': 7" ++ Str.nl ++ "}") /\
  Str.contains "abc123"
    (sanitizeForLogs (JObj [("ADMIN_KEY", JStr "abc123");
                            ("value", JNum (Num.of_Z 7))])) = true.
Proof. vm_compute. repeat split. Qed.

(** ** The response interpreter *)

(** The interpretation of a 2xx response whose body is not JSON text. *)
Lemma interpret_non_json (operation : string) (res : Response) (raw : string)
  (net : Network) (n : nat) :
  body res = BodyText raw -> raw <> EmptyString ->
  JSON.parse raw = None -> ok res = true ->
  readJsonSafely res net n =
  (Returned (raw, JObj [("error", JStr raw)]), [], n) /\
  interpret operation res net n =
  (Returned tt,
   [Debug ("response body: " ++ sanitizeForLogs (JObj [("error", JStr raw)]));
    Info "outputs: {}"], n).
Proof.
  intros Hbody Hne Hparse Hok.
  assert (R : readJsonSafely res net n =
              (Returned (raw, JObj [("error", JStr raw)]), [], n)).
  { unfold readJsonSafely, bind, text. rewrite Hbody. cbn.
    destruct raw; [contradiction |]. cbn. now rewrite Hparse. }
  split; [exact R |].
  unfold interpret. unfold bind at 1. rewrite R.
  unfold bind at 1. cbn [emit]. unfold bind at 1. rewrite Hok.
  cbn [negb ret].
  assert (Hop : forall k, (k =? "error")%string = false ->
                          opt_member (JObj [("error", JStr raw)]) k = None).
  { intros k Hk. cbn [opt_member JSON.lookup].
    rewrite String.eqb_sym. now rewrite Hk. }
  unfold logOutputs, copy_field, member.
  rewrite !Hop by reflexivity.
  destruct (operation =? "create")%string;
    destruct (operation =? "info")%string;
    destruct (operation =? "delete")%string;
    cbn; rewrite ?Hop by reflexivity; reflexivity.
Qed.

(** C7.  A 2xx response whose body is not empty and is not JSON text is
    read as the object [{ error: rawText }]; the interpretation then ends
    normally, with no failure and no output, and so does the invocation
    that received the response; an empty body is read as the empty
    object. *)
Theorem non_json_body_is_success :
  (forall (operation : string) (res : Response) (raw : string)
          (net : Network) (n : nat),
     body res = BodyText raw -> raw <> EmptyString ->
     JSON.parse raw = None -> ok res = true ->
     readJsonSafely res net n =
     (Returned (raw, JObj [("error", JStr raw)]), [], n) /\
     interpret operation res net n =
     (Returned tt,
      [Debug ("response body: " ++
              sanitizeForLogs (JObj [("error", JStr raw)]));
       Info "outputs: {}"], n)) /\
  (forall (getInput : Inputs) (net : Network) (req : Request) (res : Response)
          (raw : string) (ev0 evR : list Event) (n0 nR : nat),
     prepare getInput net O = (Returned req, ev0, n0) ->
     requestWithRetries (req_url req) (req_method req) (req_headers req)
                        net n0 = (Returned res, evR, nR) ->
     body res = BodyText raw -> raw <> EmptyString ->
     JSON.parse raw = None -> ok res = true ->
     execute (main getInput) net =
     (Returned tt,
      (ev0 ++ evR ++
       [Debug ("response body: " ++
               sanitizeForLogs (JObj [("error", JStr raw)]));
        Info "outputs: {}"])%list, nR)) /\
  (forall (res : Response) (net : Network) (n : nat),
     body res = BodyText EmptyString ->
     readJsonSafely res net n = (Returned (EmptyString, JObj []), [], n)).
Proof.
  split; [| split].
  - intros operation res raw net n. apply interpret_non_json.
  - intros getInput net req res raw ev0 evR n0 nR Hp Hr Hbody Hne Hparse Hok.
    destruct (interpret_non_json (operation_of getInput) res raw net nR
                Hbody Hne Hparse Hok) as [_ Hi].
    unfold execute, main, run, try_catch, bind.
    now rewrite Hp, Hr, Hi.
  - intros res net n Hbody.
    unfold readJsonSafely, bind, text. now rewrite Hbody.
Qed.

Lemma non_json_body_is_success_witness :
  readJsonSafely (mkResponse 200 [] (BodyText "<html>ok</html>")) unreachable 1%nat =
  (Returned ("<html>ok</html>", JObj [("error", JStr "<html>ok</html>")]),
   [], 1%nat) /\
  interpret "hit" (mkResponse 200 [] (BodyText "<html>ok</html>")) unreachable 1%nat =
  (Returned tt,
   [Debug ("response body: " ++
           sanitizeForLogs (JObj [("error", JStr "<html>ok</html>")]));
    Info "outputs: {}"], 1%nat).
Proof.
  apply (proj1 non_json_body_is_success);
    [reflexivity | discriminate | vm_compute; reflexivity | reflexivity].
Defined.

(** ** Names and the URL builder *)

(** What the characters of a valid name are to the URL machinery. *)
Lemma name_char_facts (c : ascii) :
  name_char c = true ->
  uri_unreserved c = true /\ URL.keep_path c = true /\
  URL.is_c0_or_space c = false /\ URL.is_tab_or_newline c = false /\
  URL.is_slash c = false /\ Ascii.eqb "#" c = false /\
  Ascii.eqb "?" c = false /\ Ascii.eqb (Str.lower_char c) "%" = false.
Proof.
  destruct c as [[] [] [] [] [] [] [] []]; intros H;
    try discriminate H; vm_compute; repeat split.
Qed.

Lemma append_assoc (a b c : string) : (a ++ b) ++ c = a ++ b ++ c.
Proof.
  induction a as [| x a IH]; [reflexivity |]. cbn [append]. now rewrite IH.
Qed.

Lemma append_empty (a : string) : a ++ EmptyString = a.
Proof.
  induction a as [| x a IH]; [reflexivity |]. cbn [append]. now rewrite IH.
Qed.

Lemma forallb_app (p : ascii -> bool) (a b : string) :
  Str.forallb p (a ++ b) = Str.forallb p a && Str.forallb p b.
Proof.
  induction a as [| c a IH]; [reflexivity |].
  cbn [append Str.forallb]. now rewrite IH, andb_assoc.
Qed.

Lemma forallb_impl (p q : ascii -> bool) (s : string) :
  (forall c, p c = true -> q c = true) ->
  Str.forallb p s = true -> Str.forallb q s = true.
Proof.
  intros Hpq. induction s as [| c s IH]; [reflexivity |].
  cbn [Str.forallb]. rewrite !andb_true_iff. intros [Hc Hs].
  split; [now apply Hpq | now apply IH].
Qed.

Lemma pct_encode_id (keep : ascii -> bool) (s : string) :
  Str.forallb keep s = true -> Str.pct_encode keep s = s.
Proof.
  induction s as [| c s IH]; [reflexivity |].
  cbn [Str.forallb Str.pct_encode]. rewrite andb_true_iff. intros [Hc Hs].
  rewrite Hc, IH by assumption. reflexivity.
Qed.

(** [encodeURIComponent] leaves a valid name as it is. *)
Lemma encodeURIComponent_name (s : string) :
  Str.forallb name_char s = true -> encodeURIComponent s = s.
Proof.
  intros H. apply pct_encode_id.
  revert H. apply forallb_impl. intros c Hc. apply (name_char_facts c Hc).
Qed.

Lemma strip_trailing_visible (s : string) :
  Str.forallb visible s = true -> URL.strip_trailing s = s.
Proof.
  induction s as [| c s IH]; [reflexivity |].
  cbn [Str.forallb URL.strip_trailing]. rewrite andb_true_iff.
  intros [Hc Hs]. unfold visible in Hc. apply negb_true_iff in Hc.
  rewrite Hc. cbn [andb]. now rewrite IH.
Qed.

Lemma remove_tab_newline_visible (s : string) :
  Str.forallb visible s = true -> URL.remove_tab_newline s = s.
Proof.
  induction s as [| c s IH]; [reflexivity |].
  cbn [Str.forallb URL.remove_tab_newline]. rewrite andb_true_iff.
  intros [Hc Hs]. rewrite IH by assumption.
  replace (URL.is_tab_or_newline c) with false; [reflexivity |].
  symmetry. unfold visible, URL.is_c0_or_space in Hc.
  apply negb_true_iff, Z.leb_gt in Hc.
  unfold URL.is_tab_or_newline.
  rewrite !orb_false_iff, !Z.eqb_neq. lia.
Qed.

Lemma cut_none (p : ascii -> bool) (s : string) :
  Str.forallb (fun c => negb (p c)) s = true -> URL.cut p s = (s, None).
Proof.
  induction s as [| c s IH]; [reflexivity |].
  cbn [Str.forallb URL.cut]. rewrite andb_true_iff. intros [Hc Hs].
  apply negb_true_iff in Hc. rewrite Hc, IH by assumption. reflexivity.
Qed.

Lemma split_on_none (p : ascii -> bool) (s : string) :
  Str.forallb (fun c => negb (p c)) s = true -> Str.split_on p s = [s].
Proof.
  induction s as [| c s IH]; [reflexivity |].
  cbn [Str.forallb Str.split_on]. rewrite andb_true_iff. intros [Hc Hs].
  apply negb_true_iff in Hc. rewrite Hc, IH by assumption. reflexivity.
Qed.

Lemma split_on_app (p : ascii -> bool) (a b : string) (sep : ascii) :
  Str.forallb (fun c => negb (p c)) a = true -> p sep = true ->
  Str.split_on p (a ++ String sep b) = a :: Str.split_on p b.
Proof.
  intros Ha Hsep. induction a as [| c a IH].
  - cbn [append Str.split_on]. now rewrite Hsep.
  - cbn [Str.forallb] in Ha. apply andb_true_iff in Ha as [Hc Ha].
    apply negb_true_iff in Hc.
    cbn [append Str.split_on]. rewrite Hc, (IH Ha). reflexivity.
Qed.

(** A valid name is no dot segment, and the path state keeps it. *)
Lemma name_segment (s : string) :
  NAME_RE_test s = true ->
  URL.is_single_dot s = false /\ URL.is_double_dot s = false /\
  Str.pct_encode URL.keep_path s = s.
Proof.
  unfold NAME_RE_test. rewrite !andb_true_iff. intros [[Hch Hlen] _].
  split; [| split].
  - destruct s as [| c1 [| c2 [| c3 r]]]; try discriminate Hlen.
    cbn [Str.forallb] in Hch. apply andb_true_iff in Hch as [H1 _].
    pose proof (proj2 (proj2 (proj2 (proj2 (proj2 (proj2 (proj2
                  (name_char_facts c1 H1)))))))) as F1.
    unfold URL.is_single_dot. cbn [Str.lower String.eqb]. rewrite ?F1.
    repeat match goal with
           | |- context [(?a =? ?b)%char] => destruct (a =? b)%char
           end; reflexivity.
  - destruct s as [| c1 [| c2 [| c3 r]]]; try discriminate Hlen.
    cbn [Str.forallb] in Hch.
    apply andb_true_iff in Hch as [H1 Hch].
    apply andb_true_iff in Hch as [H2 _].
    pose proof (proj2 (proj2 (proj2 (proj2 (proj2 (proj2 (proj2
                  (name_char_facts c1 H1)))))))) as F1.
    pose proof (proj2 (proj2 (proj2 (proj2 (proj2 (proj2 (proj2
                  (name_char_facts c2 H2)))))))) as F2.
    unfold URL.is_double_dot. cbn [Str.lower String.eqb]. rewrite ?F1, ?F2.
    repeat match goal with
           | |- context [(?a =? ?b)%char] => destruct (a =? b)%char
           end; reflexivity.
  - apply pct_encode_id. revert Hch. apply forallb_impl.
    intros c Hc. apply (name_char_facts c Hc).
Qed.

Lemma NAME_RE_chars (s : string) :
  NAME_RE_test s = true -> Str.forallb name_char s = true.
Proof.
  unfold NAME_RE_test. rewrite !andb_true_iff. tauto.
Qed.

(** The URL of three valid names under the base endpoint. *)
Lemma parse_segments (a b c : string) :
  NAME_RE_test a = true -> NAME_RE_test b = true -> NAME_RE_test c = true ->
  URL.parse (BASE_URL ++ "/" ++ a ++ "/" ++ b ++ "/" ++ c) =
  Some (URL.mk "abacus.jasoncameron.dev" [a; b; c] None None).
Proof.
  intros Ha Hb Hc.
  pose proof (NAME_RE_chars a Ha) as Ca.
  pose proof (NAME_RE_chars b Hb) as Cb.
  pose proof (NAME_RE_chars c Hc) as Cc.
  assert (P : forall q : ascii -> bool,
             (forall x, name_char x = true -> q x = true) ->
             q "/"%char = true ->
             Str.forallb q (a ++ "/" ++ b ++ "/" ++ c) = true).
  { intros q Hq Hs.
    rewrite !forallb_app. cbn [Str.forallb]. rewrite Hs.
    rewrite (forallb_impl _ _ a Hq Ca), (forallb_impl _ _ b Hq Cb),
      (forallb_impl _ _ c Hq Cc). reflexivity. }
  remember (a ++ "/" ++ b ++ "/" ++ c) as tail eqn:Et.
  unfold URL.parse, BASE_URL.
  cbn.
  assert (V : Str.forallb visible tail = true).
  { apply P; [| reflexivity]. intros x Hx. unfold visible.
    now rewrite (proj1 (proj2 (proj2 (name_char_facts x Hx)))). }
  rewrite (strip_trailing_visible tail V), (remove_tab_newline_visible tail V).
  rewrite (cut_none (Ascii.eqb "#") tail).
  2:{ apply P; [| reflexivity]. intros x Hx.
      now rewrite (proj1 (proj2 (proj2 (proj2 (proj2 (proj2
                     (name_char_facts x Hx))))))). }
  cbn [URL.cut Ascii.eqb Bool.eqb].
  rewrite (cut_none (Ascii.eqb "?") tail).
  2:{ apply P; [| reflexivity]. intros x Hx.
      now rewrite (proj1 (proj2 (proj2 (proj2 (proj2 (proj2 (proj2
                     (name_char_facts x Hx)))))))). }
  cbn [URL.is_slash Ascii.eqb Bool.eqb orb option_map].
  assert (N : forall s, Str.forallb name_char s = true ->
                        Str.forallb (fun x => negb (URL.is_slash x)) s = true).
  { intros s. apply forallb_impl. intros x Hx.
    now rewrite (proj1 (proj2 (proj2 (proj2 (proj2 (name_char_facts x Hx)))))). }
  rewrite Et. cbn [append].
  rewrite (split_on_app URL.is_slash a _ "/" (N a Ca) eq_refl).
  rewrite (split_on_app URL.is_slash b _ "/" (N b Cb) eq_refl).
  rewrite (split_on_none URL.is_slash c (N c Cc)).
  destruct (name_segment a Ha) as (Sa & Da & Pa).
  destruct (name_segment b Hb) as (Sb & Db & Pb).
  destruct (name_segment c Hc) as (Sc & Dc & Pc).
  cbn [URL.path_state]. rewrite Sa, Da, Pa, Sb, Db, Pb, Sc, Dc, Pc.
  reflexivity.
Qed.

(** The eight operation names are valid names themselves. *)
Lemma Op_name_valid (op : Op.Operation) : NAME_RE_test (Op.name op) = true.
Proof. destruct op; reflexivity. Qed.

(** The URL built for one of the eight operations and valid names. *)
Lemma buildUrl_on_names (op : Op.Operation) (namespace key : string)
  (initializer value : option Z) :
  NAME_RE_test namespace = true -> NAME_RE_test key = true ->
  buildUrl (Op.name op) namespace key initializer value =
  ret (BASE_URL ++ "/" ++ Op.name op ++ "/" ++ namespace ++ "/" ++ key ++
       expected_query op initializer value).
Proof.
  intros Hns Hkey.
  unfold buildUrl.
  rewrite (encodeURIComponent_name _ (NAME_RE_chars _ Hns)),
    (encodeURIComponent_name _ (NAME_RE_chars _ Hkey)).
  change (normalizeBaseUrl BASE_URL) with BASE_URL.
  rewrite (parse_segments _ _ _ (Op_name_valid op) Hns Hkey).
  destruct op, initializer as [i |], value as [v |]; cbn;
    rewrite ?append_assoc, ?append_empty; cbn; reflexivity.
Qed.

(** C8.  For each of the eight operations and valid namespace and key,
    the built URL is the base endpoint, the path of the operation, the
    namespace and the key, which percent-encoding leaves as they are, and
    the query [initializer] for [create] only, [value] for [set] and
    [update] only; so a [hit] URL has no query, and the URL is a function
    of the inputs. *)
Theorem buildUrl_shape (op : Op.Operation) (namespace key : string)
  (initializer value : option Z) :
  NAME_RE_test namespace = true -> NAME_RE_test key = true ->
  buildUrl (Op.name op) namespace key initializer value =
  ret (BASE_URL ++ "/" ++ Op.name op ++ "/" ++
       encodeURIComponent namespace ++ "/" ++ encodeURIComponent key ++
       expected_query op initializer value) /\
  encodeURIComponent namespace = namespace /\
  encodeURIComponent key = key /\
  expected_query Op.hit initializer value = EmptyString.
Proof.
  intros Hns Hkey.
  pose proof (encodeURIComponent_name _ (NAME_RE_chars _ Hns)) as Ens.
  pose proof (encodeURIComponent_name _ (NAME_RE_chars _ Hkey)) as Ekey.
  rewrite Ens, Ekey. split; [| repeat split; assumption].
  now apply buildUrl_on_names.
Qed.

Lemma buildUrl_shape_witness :
  buildUrl "create" "my-org" "build-api" (Some 5) None =
  ret "https://abacus.jasoncameron.dev/create/my-org/build-api?initializer=5" /\
  encodeURIComponent "my-org" = "my-org" /\
  encodeURIComponent "build-api" = "build-api" /\
  expected_query Op.hit (Some 5) None = EmptyString.
Proof.
  apply (buildUrl_shape Op.create "my-org" "build-api" (Some 5) None);
    reflexivity.
Defined.


(** ** Quiet computations *)

Lemma quiet_ret {A} (a : A) : quiet (ret a).
Proof. intros net n. repeat split. discriminate. Qed.

Lemma quiet_throw {A} (e : JSError) : quiet (@throw A e).
Proof. intros net n. repeat split. discriminate. Qed.

Lemma quiet_emit (e : Event) :
  is_Fetch e = false -> is_Sleep e = false -> quiet (emit e).
Proof.
  intros HF HS net n. unfold emit, events_of, outcome_of. cbn.
  rewrite timeline_cons, HF, HS. repeat split. discriminate.
Qed.

Lemma quiet_bind {A B} (m : M A) (k : A -> M B) :
  quiet m -> (forall a, quiet (k a)) -> quiet (bind m k).
Proof.
  intros Hm Hk net n. unfold bind.
  destruct (Hm net n) as (T & N & O).
  destruct (m net n) as [[[a | e |] ev] n1]; cbn in T, N, O; subst n1.
  - destruct (Hk a net n) as (T' & N' & O').
    destruct (k a net n) as [[o ev'] n2]. cbn in T', N', O' |- *.
    unfold events_of, outcome_of. cbn.
    rewrite timeline_app. unfold events_of in T. cbn in T.
    now rewrite T, T'.
  - unfold events_of, outcome_of in *. cbn in *. repeat split; auto.
    discriminate.
  - unfold outcome_of in O. cbn in O. contradiction.
Qed.

Lemma quiet_try_catch {A} (m : M A) (h : JSError -> M A) :
  quiet m -> (forall e, quiet (h e)) -> quiet (try_catch m h).
Proof.
  intros Hm Hh net n. unfold try_catch.
  destruct (Hm net n) as (T & N & O).
  destruct (m net n) as [[[a | e |] ev] n1]; cbn in T, N, O; subst n1.
  - unfold events_of, outcome_of in *. cbn in *. repeat split; auto.
  - destruct (Hh e net n) as (T' & N' & O').
    destruct (h e net n) as [[o ev'] n2]. cbn in T', N', O' |- *.
    unfold events_of, outcome_of. cbn.
    rewrite timeline_app. unfold events_of in T. cbn in T.
    now rewrite T, T'.
  - unfold outcome_of in O. cbn in O. contradiction.
Qed.

Lemma quiet_when (c : bool) (m : M unit) : quiet m -> quiet (when c m).
Proof. intros Hm. destruct c; [exact Hm | apply quiet_ret]. Qed.

Lemma quiet_if {A} (c : bool) (m1 m2 : M A) :
  quiet m1 -> quiet m2 -> quiet (if c then m1 else m2).
Proof. now destruct c. Qed.

Ltac quiet_step :=
  match goal with
  | |- quiet (bind _ _) => apply quiet_bind; [| intros ?]
  | |- quiet (try_catch _ _) => apply quiet_try_catch; [| intros ?]
  | |- quiet (when _ _) => apply quiet_when
  | |- quiet (ret _) => apply quiet_ret
  | |- quiet (throw _) => apply quiet_throw
  | |- quiet (emit _) => apply quiet_emit; reflexivity
  | |- quiet (if _ then _ else _) => apply quiet_if
  | |- quiet (match ?x with _ => _ end) => destruct x
  | |- quiet (let '(_, _) := ?x in _) => destruct x
  end.

Ltac quiet_solve := repeat quiet_step.

Lemma requireNonEmpty_quiet (name value : string) :
  quiet (requireNonEmpty name value).
Proof. unfold requireNonEmpty. quiet_solve. Qed.

Lemma validateName_quiet (kind value : string) : quiet (validateName kind value).
Proof. unfold validateName. quiet_solve. Qed.

Lemma parseInteger_quiet (name raw : string) : quiet (parseInteger name raw).
Proof. unfold parseInteger. quiet_solve. Qed.

Lemma buildUrl_quiet (op namespace key : string) (i v : option Z) :
  quiet (buildUrl op namespace key i v).
Proof. unfold buildUrl. quiet_solve. Qed.

Lemma member_quiet (payload : JSValue) (name : string) :
  quiet (member payload name).
Proof. unfold member. quiet_solve. Qed.

Lemma setOutputIfPresent_quiet (name : string) (value : option JSValue) :
  quiet (setOutputIfPresent name value).
Proof. unfold setOutputIfPresent. quiet_solve. Qed.

Lemma text_quiet (res : Response) : quiet (text res).
Proof. unfold text. quiet_solve. Qed.

(** The preparation of the request makes no request. *)
Lemma prepare_quiet (getInput : Inputs) : quiet (prepare getInput).
Proof.
  unfold prepare.
  repeat first
    [ apply requireNonEmpty_quiet | apply validateName_quiet
    | apply parseInteger_quiet | apply buildUrl_quiet | quiet_step ].
Qed.

(** The interpretation of the response makes no request. *)
Lemma interpret_quiet (operation : string) (res : Response) :
  quiet (interpret operation res).
Proof.
  unfold interpret, readJsonSafely, logOutputs.
  repeat first
    [ apply member_quiet | apply setOutputIfPresent_quiet
    | apply text_quiet | quiet_step ].
Qed.

(** ** The invocation: preparation, request, interpretation *)

Lemma bind_returned {A B} (m : M A) (k : A -> M B) (net : Network)
  (n n' : nat) (b : B) (ev : list Event) :
  bind m k net n = (Returned b, ev, n') ->
  exists a ev1 n1 ev2,
    m net n = (Returned a, ev1, n1) /\
    k a net n1 = (Returned b, ev2, n') /\ ev = (ev1 ++ ev2)%list.
Proof.
  unfold bind. destruct (m net n) as [[[a | e |] ev1] n1]; try discriminate.
  destruct (k a net n1) as [[o ev2] n2] eqn:Ek. intros H.
  inversion H; subst. now exists a, ev1, n1, ev2.
Qed.

Lemma check_returned {A} (c : bool) (e : JSError) (a : A) (net : Network)
  (n n' : nat) (ev : list Event) (x : A) :
  (if c then throw e else ret a) net n = (Returned x, ev, n') -> c = false.
Proof. destruct c; [discriminate | reflexivity]. Qed.

Lemma requireNonEmpty_returned (name value : string) (net : Network)
  (n n' : nat) (ev : list Event) (x : unit) :
  requireNonEmpty name value net n = (Returned x, ev, n') ->
  value <> EmptyString /\ Str.trim value <> EmptyString.
Proof.
  unfold requireNonEmpty. intros H. apply check_returned in H.
  apply orb_false_iff in H as [Ht Hl]. split.
  - intros ->. discriminate Ht.
  - intros E. rewrite E in Hl. discriminate Hl.
Qed.

Lemma validateName_returned (kind value : string) (net : Network)
  (n n' : nat) (ev : list Event) (x : unit) :
  validateName kind value net n = (Returned x, ev, n') ->
  NAME_RE_test value = true.
Proof.
  unfold validateName. intros H. apply check_returned in H.
  now apply negb_false_iff in H.
Qed.

Lemma parseInteger_returned (name raw : string) (net : Network)
  (n n' : nat) (ev : list Event) (z : Z) :
  parseInteger name raw net n = (Returned z, ev, n') ->
  integer_input raw = Some z.
Proof.
  rewrite parseInteger_run. destruct (integer_input raw); [| discriminate].
  intros H. now inversion H.
Qed.

(** What a prepared request says about the inputs: the names are valid,
    an administrative operation has its credential, which the request
    carries, and [set] and [update] have an integer value. *)
Lemma prepare_returned (getInput : Inputs) (net : Network) (n n' : nat)
  (req : Request) (ev : list Event) :
  prepare getInput net n = (Returned req, ev, n') ->
  NAME_RE_test (getInput "namespace") = true /\
  NAME_RE_test (getInput "key") = true /\
  (isAdminOp (operation_of getInput) = true ->
   Str.trim (getInput "admin_key") <> EmptyString) /\
  (is_set_or_update (operation_of getInput) = true ->
   Str.trim (getInput "value") <> EmptyString /\
   exists v, integer_input (getInput "value") = Some v) /\
  req_method req = methodFor (operation_of getInput) /\
  req_headers req =
    request_headers (operation_of getInput) (getInput "admin_key").
Proof.
  unfold prepare. intros H.
  apply bind_returned in H as (? & ? & ? & ? & _ & H & _).
  apply bind_returned in H as (? & ? & ? & ? & _ & H & _).
  apply bind_returned in H as (? & ? & ? & ? & Hns & H & _).
  apply bind_returned in H as (? & ? & ? & ? & Hkey & H & _).
  apply bind_returned in H as (? & ? & ? & ? & _ & H & _).
  apply bind_returned in H as (? & ? & ? & ? & Hadmin & H & _).
  apply bind_returned in H as (? & ? & ? & ? & Hmissing & H & _).
  apply bind_returned in H as (i & ? & ? & ? & _ & H & _).
  apply bind_returned in H as (v & ? & ? & ? & Hvalue & H & _).
  apply bind_returned in H as (url & ? & ? & ? & _ & H & _).
  inversion H; subst; clear H. cbn [req_method req_headers].
  apply validateName_returned in Hns, Hkey.
  apply check_returned in Hmissing.
  split; [exact Hns |]. split; [exact Hkey |].
  split; [| split; [| split; reflexivity]].
  - intros Hop. rewrite Hop in Hadmin. cbn [when] in Hadmin.
    apply bind_returned in Hadmin as (? & ? & ? & ? & Hadmin & _ & _).
    now apply requireNonEmpty_returned in Hadmin.
  - intros Hop. rewrite Hop in Hmissing, Hvalue. cbn [andb] in Hmissing.
    apply orb_false_iff in Hmissing as [_ Htrim].
    apply String.eqb_neq in Htrim. split; [exact Htrim |].
    apply bind_returned in Hvalue as (z & ? & ? & ? & Hvalue & _ & _).
    apply parseInteger_returned in Hvalue. now exists z.
Qed.

Lemma ws_len_name (c : ascii) (r : string) :
  name_char c = true -> Str.ws_len (String c r) = O.
Proof.
  destruct c as [[] [] [] [] [] [] [] []]; intros H; try discriminate H;
    destruct r as [| c1 [| c2 r2]]; reflexivity.
Qed.

(** A valid name passes [requireNonEmpty]. *)
Lemma name_nonblank (v : string) :
  NAME_RE_test v = true ->
  negb (truthy v) || (String.length (Str.trim v) =? 0)%nat = false.
Proof.
  intros H. pose proof (NAME_RE_chars v H) as Hc.
  unfold NAME_RE_test in H. rewrite !andb_true_iff in H.
  destruct H as [[_ Hlen] _].
  destruct v as [| c r]; [discriminate Hlen |].
  cbn [Str.forallb] in Hc. apply andb_true_iff in Hc as [Hc _].
  assert (Hs : Str.trimStart (String c r) = String c r).
  { unfold Str.trimStart. cbn [String.length Str.trimStart_aux].
    now rewrite (ws_len_name c r Hc). }
  unfold Str.trim. rewrite Hs. cbn [Str.trimEnd]. unfold Str.is_blank.
  rewrite Hs. reflexivity.
Qed.

(** The URL parser accepts whatever follows the base endpoint and a
    slash. *)
Lemma parse_total (x : string) :
  exists u, URL.parse (BASE_URL ++ "/" ++ x) = Some u.
Proof.
  unfold URL.parse, BASE_URL. cbn.
  destruct (URL.cut (Ascii.eqb "#") _) as [a0 b0].
  cbn [URL.cut Ascii.eqb Bool.eqb].
  destruct (URL.cut (Ascii.eqb "?") a0) as [a1 b1].
  cbn. eexists. reflexivity.
Qed.

(** [buildUrl] never throws. *)
Lemma buildUrl_total (op namespace key : string) (i v : option Z) :
  exists url, buildUrl op namespace key i v = ret url.
Proof.
  unfold buildUrl. change (normalizeBaseUrl BASE_URL) with BASE_URL.
  destruct (parse_total (op ++ "/" ++ encodeURIComponent namespace ++
                         "/" ++ encodeURIComponent key)) as [u Hu].
  rewrite Hu. eexists. reflexivity.
Qed.

(** A request inside a [try] block comes first, whatever follows. *)
Lemma try_fetch_starts {A} (url : string) (method : HttpMethod)
  (hdrs : list (string * string)) (k : Response -> M A)
  (h : JSError -> M A) (net : Network) (n : nat) :
  exists rest,
    events_of (try_catch (bind (fetch url method hdrs) k) h net n) =
    Fetch url method hdrs :: rest.
Proof.
  unfold try_catch, bind, fetch, events_of. destruct (net n) as [res | e].
  - destruct (k res net (S n)) as [[[a | e |] ev'] n'']; cbn; eauto.
    destruct (h e net n'') as [[o2 ev2] n2]; cbn; eauto.
  - destruct (h e net (S n)) as [[o2 ev2] n2]; cbn; eauto.
Qed.

(** Every attempt starts with its request. *)
Lemma attempt_once_starts (url : string) (method : HttpMethod)
  (hdrs : list (string * string)) (attempt backoffMs : Z)
  (net : Network) (n : nat) :
  exists rest,
    events_of (attempt_once url method hdrs attempt backoffMs net n) =
    Fetch url method hdrs :: rest.
Proof. unfold attempt_once. apply try_fetch_starts. Qed.

(** The executor starts with two log lines and the first request. *)
Lemma requestWithRetries_starts (url : string) (method : HttpMethod)
  (hdrs : list (string * string)) (net : Network) (n : nat) :
  exists rest,
    events_of (requestWithRetries url method hdrs net n) =
    Info ("request: " ++ HttpMethod_to_string method ++ " " ++ url)
    :: Info ("attempt: " ++ show (0 + 1) ++ "/" ++ show MAX_ATTEMPTS)
    :: Fetch url method hdrs :: rest.
Proof.
  unfold requestWithRetries, requestWithRetries_fuel.
  change (Z.to_nat MAX_ATTEMPTS) with 5%nat.
  unfold bind at 1. cbn [emit].
  destruct (attempt_once_starts url method hdrs (0 + 1) 500 net n)
    as [rest Hrest].
  destruct (attempt_once url method hdrs (0 + 1) 500 net n)
    as [[[[b | res] | e |] ev1] n1] eqn:E; unfold events_of in Hrest;
    cbn [fst snd] in Hrest; subst ev1.
  - rewrite (retry_loop_continue _ _ _ _ _ _ _ _ _ _ _ E).
    destruct (retry_loop 4 _ _ _ _ _ _ _) as [[o ev] n'].
    unfold events_of. cbn. eauto.
  - rewrite (retry_loop_return _ _ _ _ _ _ _ _ _ _ _ E).
    unfold events_of. cbn. eauto.
  - rewrite (retry_loop_throw _ _ _ _ _ _ _ _ _ _ _ E).
    unfold events_of. cbn. eauto.
  - rewrite (retry_loop_out_of_fuel _ _ _ _ _ _ _ _ _ _ E).
    unfold events_of. cbn. eauto.
Qed.

(** Every request of an attempt is the one it was given. *)
Lemma attempt_once_fetches (url : string) (method : HttpMethod)
  (hdrs : list (string * string)) (attempt backoffMs : Z)
  (net : Network) (n : nat) :
  exists w,
    timeline (events_of (attempt_once url method hdrs attempt backoffMs net n)) =
    Fetch url method hdrs :: map Sleep w.
Proof.
  destruct (net n) as [res | e] eqn:Hnet.
  - destruct (attempt_once_responded url method hdrs net n attempt backoffMs
                res Hnet) as (ev & H).
    destruct ((status res =? 429) && (attempt <? MAX_ATTEMPTS));
      [| destruct ((500 <=? status res) && (status res <=? 599) &&
                   (attempt <? MAX_ATTEMPTS))];
      destruct H as [E T]; rewrite E; unfold events_of; cbn [fst snd];
      rewrite T; [eexists [_] | eexists [_] | exists []]; reflexivity.
  - rewrite (attempt_once_rejected url method hdrs net n attempt backoffMs
               e Hnet).
    destruct (MAX_ATTEMPTS <=? attempt); unfold events_of; cbn [fst snd];
      [exists [] | eexists [_]]; reflexivity.
Qed.

(** The requests of the loop are all the request it was given. *)
Lemma retry_loop_fetches (url : string) (method : HttpMethod)
  (hdrs : list (string * string)) (net : Network) (fuel : nat) :
  forall (attempt backoffMs : Z) (n : nat),
    Forall (fun e => is_Fetch e = true -> e = Fetch url method hdrs)
           (timeline (events_of
              (retry_loop fuel url method hdrs attempt backoffMs net n))).
Proof.
  induction fuel as [| f IH]; intros attempt backoffMs n.
  - constructor.
  - destruct (attempt_once_fetches url method hdrs (attempt + 1) backoffMs
                net n) as [w Hw].
    assert (Hs : Forall (fun e => is_Fetch e = true -> e = Fetch url method hdrs)
                        (Fetch url method hdrs :: map Sleep w)).
    { constructor; [reflexivity |]. apply Forall_forall. intros e He.
      apply in_map_iff in He as (ms & <- & _). discriminate. }
    destruct (attempt_once url method hdrs (attempt + 1) backoffMs net n)
      as [[[[b | res] | e |] ev1] n1] eqn:E; unfold events_of in Hw;
      cbn [fst snd] in Hw.
    + rewrite (retry_loop_continue _ _ _ _ _ _ _ _ _ _ _ E).
      specialize (IH (attempt + 1) b n1).
      destruct (retry_loop f _ _ _ _ _ _ _) as [[o ev] n'].
      unfold events_of in *. cbn [fst snd] in *.
      rewrite timeline_cons, timeline_app. cbn [is_Fetch is_Sleep orb].
      rewrite Hw. apply Forall_app. now split.
    + rewrite (retry_loop_return _ _ _ _ _ _ _ _ _ _ _ E).
      unfold events_of. cbn [fst snd].
      rewrite timeline_cons. cbn [is_Fetch is_Sleep orb]. now rewrite Hw.
    + rewrite (retry_loop_throw _ _ _ _ _ _ _ _ _ _ _ E).
      unfold events_of. cbn [fst snd].
      rewrite timeline_cons. cbn [is_Fetch is_Sleep orb]. now rewrite Hw.
    + rewrite (retry_loop_out_of_fuel _ _ _ _ _ _ _ _ _ _ E).
      unfold events_of. cbn [fst snd].
      rewrite timeline_cons. cbn [is_Fetch is_Sleep orb]. now rewrite Hw.
Qed.

Lemma requestWithRetries_fetches (url : string) (method : HttpMethod)
  (hdrs : list (string * string)) (net : Network) (n : nat) :
  Forall (fun e => is_Fetch e = true -> e = Fetch url method hdrs)
         (timeline (events_of (requestWithRetries url method hdrs net n))).
Proof.
  unfold requestWithRetries, requestWithRetries_fuel, bind. cbn [emit].
  pose proof (retry_loop_fetches url method hdrs net (Z.to_nat MAX_ATTEMPTS)
                0 500 n) as H.
  destruct (retry_loop _ _ _ _ _ _ _ _) as [[o ev] n'].
  unfold events_of in *. cbn [fst snd app] in *.
  rewrite timeline_cons. exact H.
Qed.

(** The requests and waits of an invocation are those of its executor. *)
Lemma main_timeline (getInput : Inputs) (net : Network) :
  timeline (events_of (execute (main getInput) net)) =
  match prepare getInput net O with
  | (Returned req, _, _) =>
      timeline (events_of (requestWithRetries (req_url req) (req_method req)
                             (req_headers req) net O))
  | _ => []
  end.
Proof.
  unfold execute, main, run, try_catch. unfold bind at 1.
  destruct (prepare_quiet getInput net O) as (T0 & N0 & O0).
  destruct (prepare getInput net O) as [[[req | e |] ev0] n0];
    unfold events_of, outcome_of in *; cbn [fst snd] in *;
    [subst n0; unfold bind at 1;
     destruct (requestWithRetries _ _ _ net O) as [[[res | e |] evR] nR];
     [destruct (interpret_quiet (operation_of getInput) res net nR)
        as (TI & NI & OI);
      destruct (interpret _ res net nR) as [[[u | e |] evI] nI];
      unfold events_of, outcome_of in *; cbn [fst snd] in * | |] | |];
    cbn [emit fst snd];
    rewrite ?timeline_app, ?timeline_cons, ?timeline_nil, ?T0, ?TI;
    cbn [is_Fetch is_Sleep orb app]; rewrite ?timeline_nil, ?app_nil_r;
    try reflexivity; contradiction.
Qed.

Lemma Forall_timeline (Q : Event -> Prop) (ev : list Event) :
  Forall (fun e => is_Fetch e = true -> Q e) (timeline ev) ->
  Forall (fun e => is_Fetch e = true -> Q e) ev.
Proof.
  rewrite !Forall_forall. intros H e He Hf. apply H; [| exact Hf].
  unfold timeline. apply filter_In. split; [exact He |]. now rewrite Hf.
Qed.

Lemma attempts_positive (ev : list Event) :
  (0 < attempts ev)%nat -> timeline ev <> [].
Proof.
  intros H E. rewrite <- attempts_timeline, E in H. cbv in H. lia.
Qed.

(** C9.  When an invocation makes a request at all, the validation has
    succeeded: namespace and key match the pattern, an administrative
    operation has a credential that is not blank, [set] and [update] have
    a value that is not blank and is an integer, and every request has
    the method of the operation and the headers built from the
    credential.  The namespaces [ab] and [bad/key] end the invocation
    with a failure and without a request. *)
Theorem no_request_before_validation :
  (forall (getInput : Inputs) (net : Network),
     (0 < attempts (events_of (execute (main getInput) net)))%nat ->
     NAME_RE_test (getInput "namespace") = true /\
     NAME_RE_test (getInput "key") = true /\
     (isAdminOp (operation_of getInput) = true ->
      Str.trim (getInput "admin_key") <> EmptyString) /\
     (is_set_or_update (operation_of getInput) = true ->
      Str.trim (getInput "value") <> EmptyString /\
      exists v, integer_input (getInput "value") = Some v) /\
     Forall (fun e =>
               is_Fetch e = true ->
               exists url,
                 e = Fetch url (methodFor (operation_of getInput))
                       (request_headers (operation_of getInput)
                          (getInput "admin_key")))
            (events_of (execute (main getInput) net))) /\
  (forall net : Network,
     execute (main (inputs_of [("namespace", "ab"); ("key", "build-api")])) net =
     (Returned tt,
      [SetFailed ("Invalid namespace: must match ^[A-Za-z0-9_-.]{3,64}$ (got "
                  ++ Str.dq ++ "ab" ++ Str.dq ++ ")")], O)) /\
  (forall net : Network,
     execute (main (inputs_of [("namespace", "bad/key"); ("key", "build-api")]))
             net =
     (Returned tt,
      [SetFailed ("Invalid namespace: must match ^[A-Za-z0-9_-.]{3,64}$ (got "
                  ++ Str.dq ++ "bad/key" ++ Str.dq ++ ")")], O)).
Proof.
  split; [| split; intros net; vm_compute; reflexivity].
  intros getInput net Hpos.
  apply attempts_positive in Hpos.
  pose proof (main_timeline getInput net) as HT.
  destruct (prepare getInput net O) as [[[req | e |] ev0] n0] eqn:Hp;
    [| congruence | congruence].
  destruct (prepare_returned getInput net O n0 req ev0 Hp)
    as (Hns & Hkey & Hadmin & Hvalue & Hm & Hh).
  repeat (split; [assumption |]).
  apply Forall_timeline. rewrite HT, <- Hm, <- Hh.
  eapply Forall_impl; [| apply requestWithRetries_fetches].
  intros e He Hf. exists (req_url req). now apply He.
Qed.

Lemma no_request_before_validation_witness :
  NAME_RE_test "my-org" = true /\
  NAME_RE_test "build-api" = true /\
  (isAdminOp "set" = true -> Str.trim "s3cret" <> EmptyString) /\
  (is_set_or_update "set" = true ->
   Str.trim "41" <> EmptyString /\ exists v, integer_input "41" = Some v) /\
  Forall (fun e =>
            is_Fetch e = true ->
            exists url,
              e = Fetch url (methodFor "set") (request_headers "set" "s3cret"))
         (events_of
            (execute
               (main (inputs_of [("operation", "set"); ("namespace", "my-org");
                                 ("key", "build-api"); ("value", "41");
                                 ("admin_key", "s3cret")]))
               (answers [response 200 [] "{}"] unreachable))).
Proof.
  apply (proj1 no_request_before_validation
           (inputs_of [("operation", "set"); ("namespace", "my-org");
                       ("key", "build-api"); ("value", "41");
                       ("admin_key", "s3cret")])
           (answers [response 200 [] "{}"] unreachable)).
  vm_compute. lia.
Defined.

(** The prepared request of an operation that is not administrative, not
    [set] or [update] and not [create]. *)
Lemma prepare_plain (getInput : Inputs) (net : Network) (n : nat) (url : string) :
  NAME_RE_test (getInput "namespace") = true ->
  NAME_RE_test (getInput "key") = true ->
  isAdminOp (operation_of getInput) = false ->
  is_set_or_update (operation_of getInput) = false ->
  (operation_of getInput =? "create")%string = false ->
  buildUrl (operation_of getInput) (getInput "namespace") (getInput "key")
           None None = ret url ->
  prepare getInput net n =
  (Returned (mkRequest url GET [("Accept", "application/json")]),
   [Info ("op: " ++ operation_of getInput ++ " namespace=" ++
          getInput "namespace" ++ " key=" ++ getInput "key")], n).
Proof.
  intros Hns Hkey Hadmin Hsu Hcreate Hurl.
  unfold prepare, requireNonEmpty, validateName, methodFor, request_headers.
  rewrite (name_nonblank _ Hns), (name_nonblank _ Hkey), Hns, Hkey.
  rewrite Hadmin, Hsu, Hcreate. unfold bind. cbn. rewrite Hurl. reflexivity.
Qed.

(** An invocation whose request is prepared starts with the events of
    the preparation, the two log lines of the executor and the request. *)
Lemma main_starts (getInput : Inputs) (net : Network) (req : Request)
  (ev0 : list Event) :
  prepare getInput net O = (Returned req, ev0, O) ->
  exists rest,
    events_of (execute (main getInput) net) =
    (ev0 ++
     [Info ("request: " ++ HttpMethod_to_string (req_method req) ++ " " ++
            req_url req);
      Info "attempt: 1/5";
      Fetch (req_url req) (req_method req) (req_headers req)] ++ rest)%list.
Proof.
  intros Hp. unfold execute, main, run, try_catch. unfold bind at 1.
  rewrite Hp. unfold bind at 1.
  destruct (requestWithRetries_starts (req_url req) (req_method req)
              (req_headers req) net O) as [rest Hrest].
  change (show (0 + 1) ++ "/" ++ show MAX_ATTEMPTS) with "1/5" in Hrest.
  destruct (requestWithRetries _ _ _ net O) as [[[res | e |] evR] nR];
    unfold events_of in *; cbn [fst snd] in Hrest; subst evR.
  - destruct (interpret _ res net nR) as [[[u | e |] evI] nI];
      cbn [fst snd emit app]; eexists;
      rewrite <- ?app_assoc; cbn [app]; reflexivity.
  - cbn [fst snd emit app]. eexists.
    rewrite <- ?app_assoc. cbn [app]. reflexivity.
  - cbn [fst snd emit app]. eexists. reflexivity.
Qed.

(** C6, as the code has it.  The operation name is not checked against
    the enumeration: with a valid namespace and key, a name that is none
    of the eight operations is sent as it is, in a [GET] request with the
    [Accept] header only, to the URL built from it without parameters; no
    failure is reported before that request. *)
Theorem unrecognised_operation_is_sent (getInput : Inputs) (net : Network) :
  (forall o, operation_of getInput <> Op.name o) ->
  NAME_RE_test (getInput "namespace") = true ->
  NAME_RE_test (getInput "key") = true ->
  exists url rest,
    buildUrl (operation_of getInput) (getInput "namespace") (getInput "key")
             None None = ret url /\
    events_of (execute (main getInput) net) =
    Info ("op: " ++ operation_of getInput ++ " namespace=" ++
          getInput "namespace" ++ " key=" ++ getInput "key")
    :: Info ("request: GET " ++ url)
    :: Info "attempt: 1/5"
    :: Fetch url GET [("Accept", "application/json")]
    :: rest.
Proof.
  intros Hop Hns Hkey.
  destruct (buildUrl_total (operation_of getInput) (getInput "namespace")
              (getInput "key") None None) as [url Hurl].
  assert (Hne : forall o, (operation_of getInput =? Op.name o)%string = false)
    by (intros o; apply String.eqb_neq, Hop).
  pose proof (Hne Op.set) as Hset. pose proof (Hne Op.update) as Hupdate.
  pose proof (Hne Op.reset) as Hreset. pose proof (Hne Op.delete) as Hdelete.
  pose proof (Hne Op.create) as Hcreate.
  cbn [Op.name] in Hset, Hupdate, Hreset, Hdelete, Hcreate.
  assert (Hadmin : isAdminOp (operation_of getInput) = false).
  { unfold isAdminOp. now rewrite Hset, Hupdate, Hreset, Hdelete. }
  assert (Hsu : is_set_or_update (operation_of getInput) = false).
  { unfold is_set_or_update. now rewrite Hset, Hupdate. }
  pose proof (prepare_plain getInput net O url Hns Hkey Hadmin Hsu
                Hcreate Hurl) as Hp.
  destruct (main_starts getInput net _ _ Hp) as [rest Hrest].
  exists url, rest. split; [exact Hurl |]. exact Hrest.
Qed.

Lemma unrecognised_operation_is_sent_witness :
  exists url rest,
    buildUrl "frobnicate" "my-org" "build-api" None None = ret url /\
    events_of
      (execute (main (inputs_of [("operation", "frobnicate");
                                 ("namespace", "my-org");
                                 ("key", "build-api")]))
               (answers [response 404 [] "{}"] unreachable)) =
    Info "op: frobnicate namespace=my-org key=build-api"
    :: Info ("request: GET " ++ url)
    :: Info "attempt: 1/5"
    :: Fetch url GET [("Accept", "application/json")]
    :: rest.
Proof.
  apply (unrecognised_operation_is_sent
           (inputs_of [("operation", "frobnicate"); ("namespace", "my-org");
                       ("key", "build-api")])
           (answers [response 404 [] "{}"] unreachable)).
  - intros o. destruct o; vm_compute; discriminate.
  - reflexivity.
  - reflexivity.
Defined.

(** C6, as the specification words it, fails: the operation [frobnicate]
    is none of the eight, and the invocation sends a request for it; the
    failure it reports comes from the answer of the service. *)
Lemma unrecognised_operation_reaches_network :
  (forall o, "frobnicate" <> Op.name o) /\
  execute (main (inputs_of [("operation", "frobnicate");
                            ("namespace", "my-org"); ("key", "build-api")]))
          (answers [response 404 [] (Str.q "{'error':'not found'}")]
                   unreachable) =
  (Returned tt,
   [Info "op: frobnicate namespace=my-org key=build-api";
    Info "request: GET https://abacus.jasoncameron.dev/frobnicate/my-org/build-api";
    Info "attempt: 1/5";
    Fetch "https://abacus.jasoncameron.dev/frobnicate/my-org/build-api" GET
      [("Accept", "application/json")];
    Info "response: status=404";
    Debug ("response body: " ++
           Str.q ("{" ++ Str.nl ++ "  'error': 'not found'" ++ Str.nl ++ "}"));
    SetFailed "not found (operation=frobnicate)"],
   1%nat).
Proof.
  split; [intros o; destruct o; discriminate | vm_compute; reflexivity].
Qed.

(** The initializer [create] parses: the input, or ["0"] when the input
    is empty. *)
Lemma prepare_create (getInput : Inputs) (net : Network) (n n' : nat)
  (req : Request) (ev : list Event) :
  operation_of getInput = "create" ->
  prepare getInput net n = (Returned req, ev, n') ->
  exists v,
    integer_input (if truthy (getInput "initializer")
                   then getInput "initializer" else "0") = Some v /\
    req_url req =
      BASE_URL ++ "/create/" ++ getInput "namespace" ++ "/" ++
      getInput "key" ++ "?initializer=" ++ URL.form_encode (show v).
Proof.
  intros Hop H.
  destruct (prepare_returned getInput net n n' req ev H)
    as (Hns & Hkey & _).
  unfold prepare in H. rewrite Hop in H.
  apply bind_returned in H as (? & ? & ? & ? & _ & H & _).
  apply bind_returned in H as (? & ? & ? & ? & _ & H & _).
  apply bind_returned in H as (? & ? & ? & ? & _ & H & _).
  apply bind_returned in H as (? & ? & ? & ? & _ & H & _).
  apply bind_returned in H as (? & ? & ? & ? & _ & H & _).
  apply bind_returned in H as (? & ? & ? & ? & _ & H & _).
  apply bind_returned in H as (? & ? & ? & ? & _ & H & _).
  apply bind_returned in H as (i & ? & ? & ? & Hi & H & _).
  apply bind_returned in H as (v & ? & ? & ? & Hv & H & _).
  apply bind_returned in H as (url & ? & ? & ? & Hurl & H & _).
  inversion H; subst; clear H. cbn [req_url].
  change ("create" =? "create")%string with true in Hi.
  change (is_set_or_update "create") with false in Hv.
  apply bind_returned in Hi as (z & ? & ? & ? & Hz & Hi & _).
  apply parseInteger_returned in Hz.
  inversion Hi; subst; clear Hi. inversion Hv; subst; clear Hv.
  exists z. split; [exact Hz |].
  pose proof (buildUrl_on_names Op.create (getInput "namespace")
                (getInput "key") (Some z) None Hns Hkey) as Hb.
  cbn [Op.name] in Hb. rewrite Hb in Hurl.
  inversion Hurl. reflexivity.
Qed.

(** The default initializer is the integer 0. *)
Lemma parseInteger_default : parseInteger "initializer" "0" = ret 0.
Proof. vm_compute. reflexivity. Qed.

(** Only [create] reads the initializer. *)
Lemma prepare_ignores_initializer (getInput getInput' : Inputs)
  (net : Network) (n : nat) :
  operation_of getInput <> "create" ->
  (forall name, name <> "initializer" -> getInput' name = getInput name) ->
  operation_of getInput' = operation_of getInput /\
  prepare getInput' net n = prepare getInput net n.
Proof.
  intros Hop Hsame.
  assert (Ho : operation_of getInput' = operation_of getInput).
  { unfold operation_of. now rewrite (Hsame "operation") by discriminate. }
  split; [exact Ho |].
  unfold prepare. rewrite Ho.
  rewrite (Hsame "namespace"), (Hsame "key"), (Hsame "value"),
    (Hsame "admin_key") by discriminate.
  apply String.eqb_neq in Hop. rewrite Hop. reflexivity.
Qed.

(** C10.  For [create] the initializer that is parsed is the input, or
    ["0"] when the input is empty, and the URL of every prepared [create]
    request ends with the [initializer] parameter; with an empty input
    and valid names, the request goes to [...?initializer=0].  For any
    other operation the initializer input is neither parsed nor attached:
    the invocation is the same whatever that input is. *)
Theorem create_defaults_initializer :
  (forall (getInput : Inputs) (net : Network) (req : Request)
          (ev : list Event) (n : nat),
     operation_of getInput = "create" ->
     prepare getInput net O = (Returned req, ev, n) ->
     exists v,
       integer_input (if truthy (getInput "initializer")
                      then getInput "initializer" else "0") = Some v /\
       req_url req =
         BASE_URL ++ "/create/" ++ getInput "namespace" ++ "/" ++
         getInput "key" ++ "?initializer=" ++ URL.form_encode (show v)) /\
  (forall (getInput : Inputs) (net : Network),
     operation_of getInput = "create" ->
     getInput "initializer" = EmptyString ->
     NAME_RE_test (getInput "namespace") = true ->
     NAME_RE_test (getInput "key") = true ->
     let url := BASE_URL ++ "/create/" ++ getInput "namespace" ++ "/" ++
                getInput "key" ++ "?initializer=0" in
     (0 < attempts (events_of (execute (main getInput) net)))%nat /\
     Forall (fun e =>
               is_Fetch e = true ->
               e = Fetch url GET [("Accept", "application/json")])
            (events_of (execute (main getInput) net))) /\
  (forall (getInput getInput' : Inputs) (net : Network),
     operation_of getInput <> "create" ->
     (forall name, name <> "initializer" -> getInput' name = getInput name) ->
     execute (main getInput') net = execute (main getInput) net).
Proof.
  split; [| split].
  - intros getInput net req ev n Hop Hp.
    exact (prepare_create getInput net O n req ev Hop Hp).
  - intros getInput net Hop Hinit Hns Hkey url.
    pose proof (buildUrl_on_names Op.create (getInput "namespace")
                  (getInput "key") (Some 0) None Hns Hkey) as Hb.
    cbn [Op.name] in Hb.
    change (expected_query Op.create (Some 0) None) with "?initializer=0" in Hb.
    assert (Hp : prepare getInput net O =
                 (Returned (mkRequest url GET [("Accept", "application/json")]),
                  [Info ("op: create namespace=" ++ getInput "namespace" ++
                         " key=" ++ getInput "key")], O)).
    { unfold prepare, requireNonEmpty, validateName, methodFor, request_headers.
      rewrite (name_nonblank _ Hns), (name_nonblank _ Hkey), Hns, Hkey.
      rewrite Hop, Hinit.
      change (isAdminOp "create") with false.
      change (is_set_or_update "create") with false.
      change ("create" =? "create")%string with true.
      change (truthy EmptyString) with false. cbv iota.
      rewrite parseInteger_default.
      unfold bind. cbn. rewrite Hb. reflexivity. }
    pose proof (main_timeline getInput net) as HT. rewrite Hp in HT.
    cbn [req_url req_method req_headers] in HT.
    split.
    + rewrite <- attempts_timeline, HT, attempts_timeline.
      destruct (requestWithRetries_total url GET
                  [("Accept", "application/json")] net O)
        as (o & evR & E & Hone & _).
      rewrite E. unfold events_of. cbn [fst snd]. lia.
    + apply Forall_timeline. rewrite HT. apply requestWithRetries_fetches.
  - intros getInput getInput' net Hop Hsame.
    destruct (prepare_ignores_initializer getInput getInput' net O Hop Hsame)
      as [Ho Hp].
    unfold execute, main, run, try_catch, bind. now rewrite Hp, Ho.
Qed.

Lemma create_defaults_initializer_witness :
  (0 < attempts
         (events_of
            (execute (main (inputs_of [("operation", "create");
                                       ("namespace", "my-org");
                                       ("key", "build-api")]))
                     (answers [response 200 [] "{}"] unreachable))))%nat /\
  Forall (fun e =>
            is_Fetch e = true ->
            e = Fetch (BASE_URL ++ "/create/" ++ "my-org" ++ "/" ++
                       "build-api" ++ "?initializer=0")
                      GET [("Accept", "application/json")])
         (events_of
            (execute (main (inputs_of [("operation", "create");
                                       ("namespace", "my-org");
                                       ("key", "build-api")]))
                     (answers [response 200 [] "{}"] unreachable))).
Proof.
  apply (proj1 (proj2 create_defaults_initializer)
           (inputs_of [("operation", "create"); ("namespace", "my-org");
                       ("key", "build-api")])
           (answers [response 200 [] "{}"] unreachable));
    reflexivity.
Defined.

(* ===================================================================== *)
(** * Further properties of the code *)
(* ===================================================================== *)

(** ** The executor on any network *)

Lemma sleeps_app (a b : list Event) :
  sleeps (a ++ b) = (sleeps a ++ sleeps b)%list.
Proof. unfold sleeps. apply flat_map_app. Qed.

Lemma attempt_once_retry (url : string) (method : HttpMethod)
  (hdrs : list (string * string)) (net : Network) (n : nat)
  (attempt backoffMs : Z) :
  retryable (net n) = true -> attempt < MAX_ATTEMPTS ->
  exists ev,
    attempt_once url method hdrs attempt backoffMs net n =
    (Returned (Continue (next_backoff backoffMs)), ev, S n) /\
    timeline ev = [Fetch url method hdrs; Sleep (wait_after (net n) backoffMs)].
Proof.
  intros Hr Ha.
  destruct (net n) as [res | e] eqn:Hn.
  - cbn in Hr. unfold final_status in Hr.
    destruct (status res =? 429) eqn:E429.
    + apply Z.eqb_eq in E429.
      destruct (attempt_once_429 url method hdrs net n attempt backoffMs res
                  Hn E429 Ha) as [ev [H1 H2]].
      exists ev. split; [exact H1|].
      cbn. rewrite E429. cbn. exact H2.
    + cbn in Hr. apply negb_true_iff, negb_false_iff in Hr.
      apply andb_true_iff in Hr. destruct Hr as [H5 H6].
      apply Z.leb_le in H5, H6.
      destruct (attempt_once_5xx url method hdrs net n attempt backoffMs res
                  Hn (conj H5 H6) Ha) as [ev [H1 H2]].
      exists ev. split; [exact H1|].
      cbn. rewrite E429. exact H2.
  - pose proof (attempt_once_rejected url method hdrs net n attempt backoffMs e Hn)
      as H.
    destruct (MAX_ATTEMPTS <=? attempt) eqn:E.
    + apply Z.leb_le in E. lia.
    + eexists. split; [exact H|]. reflexivity.
Qed.

Lemma attempt_once_last (url : string) (method : HttpMethod)
  (hdrs : list (string * string)) (net : Network) (n : nat)
  (attempt backoffMs : Z) :
  MAX_ATTEMPTS <= attempt \/ retryable (net n) = false ->
  exists ev,
    attempt_once url method hdrs attempt backoffMs net n =
    (match net n with
     | Responded res => Returned (Return res)
     | Rejected e => Thrown e
     end, ev, S n) /\
    timeline ev = [Fetch url method hdrs].
Proof.
  intros H.
  destruct (net n) as [res | e] eqn:Hn.
  - apply attempt_once_final; [exact Hn|].
    destruct H as [H | H]; [left; exact H | right].
    cbn in H. apply negb_false_iff in H. unfold final_status in H.
    apply andb_true_iff in H. destruct H as [H1 H2].
    apply negb_true_iff in H1, H2. apply Z.eqb_neq in H1.
    split; [exact H1|].
    apply andb_false_iff in H2. destruct H2 as [H2 | H2];
      apply Z.leb_gt in H2; lia.
  - destruct H as [H | H]; [| discriminate H].
    pose proof (attempt_once_rejected url method hdrs net n attempt backoffMs e Hn)
      as H'.
    apply Z.leb_le in H. rewrite H in H'.
    eexists. split; [exact H'|]. reflexivity.
Qed.

(** The loop from a given state: when the next [k] results are retried and
    the one after them is not, or is the result of the last attempt, the
    loop ends with that result after [k + 1] requests and [k] waits. *)
Lemma retry_loop_stops (url : string) (method : HttpMethod)
  (hdrs : list (string * string)) (net : Network) (k : nat) :
  forall (fuel : nat) (attempt backoffMs : Z) (n : nat),
    attempt + Z.of_nat k < MAX_ATTEMPTS ->
    (k < fuel)%nat ->
    (forall i, (i < k)%nat -> retryable (net (n + i)%nat) = true) ->
    attempt + Z.of_nat k + 1 = MAX_ATTEMPTS \/
    retryable (net (n + k)%nat) = false ->
    exists ev,
      retry_loop fuel url method hdrs attempt backoffMs net n =
      (outcome_for (net (n + k)%nat), ev, (n + S k)%nat) /\
      attempts ev = S k /\
      sleeps ev = waits net n backoffMs k.
Proof.
  induction k as [| k IH]; intros fuel attempt backoffMs n Ha Hf Hretry Hlast.
  - destruct fuel as [| fuel]; [lia|].
    rewrite Nat.add_0_r in *.
    destruct (attempt_once_last url method hdrs net n (attempt + 1) backoffMs)
      as [ev1 [H1 T1]].
    { destruct Hlast as [H | H]; [left; lia | right; exact H]. }
    destruct (net n) as [res | e] eqn:Hn.
    + rewrite (retry_loop_return _ _ _ _ _ _ _ _ _ _ _ H1).
      eexists. split; [f_equal; lia|].
      split.
      * rewrite attempts_cons, <- attempts_timeline, T1. reflexivity.
      * change (sleeps (?a :: ev1)) with (sleeps ev1).
        rewrite <- sleeps_timeline, T1. reflexivity.
    + rewrite (retry_loop_throw _ _ _ _ _ _ _ _ _ _ _ H1).
      eexists. split; [f_equal; lia|].
      split.
      * rewrite attempts_cons, <- attempts_timeline, T1. reflexivity.
      * change (sleeps (?a :: ev1)) with (sleeps ev1).
        rewrite <- sleeps_timeline, T1. reflexivity.
  - destruct fuel as [| fuel]; [lia|].
    destruct (attempt_once_retry url method hdrs net n (attempt + 1) backoffMs)
      as [ev1 [H1 T1]].
    { specialize (Hretry O ltac:(lia)). rewrite Nat.add_0_r in Hretry.
      exact Hretry. }
    { lia. }
    rewrite (retry_loop_continue _ _ _ _ _ _ _ _ _ _ _ H1).
    destruct (IH fuel (attempt + 1) (next_backoff backoffMs) (S n))
      as [ev [H2 [A2 S2]]].
    { lia. }
    { lia. }
    { intros i Hi. specialize (Hretry (S i) ltac:(lia)).
      replace (S n + i)%nat with (n + S i)%nat by lia. exact Hretry. }
    { replace (S n + k)%nat with (n + S k)%nat by lia.
      destruct Hlast as [H | H]; [left; lia | right; exact H]. }
    rewrite H2.
    replace (S n + k)%nat with (n + S k)%nat by lia.
    eexists. split; [f_equal; lia|].
    split.
    + rewrite attempts_cons, attempts_app, <- (attempts_timeline ev1), T1, A2.
      reflexivity.
    + change (sleeps (?a :: ?l)) with (sleeps l).
      rewrite sleeps_app, <- (sleeps_timeline ev1), T1, S2. reflexivity.
Qed.

(** Every network has a stopping point among its first five results. *)
Lemma stopping_point (net : Network) (n : nat) (m : nat) :
  exists k,
    (k <= m)%nat /\
    (forall i, (i < k)%nat -> retryable (net (n + i)%nat) = true) /\
    (k = m \/ retryable (net (n + k)%nat) = false).
Proof.
  induction m as [| m [k [Hk [Hr Hl]]]].
  - exists O. split; [lia|]. split; [intros i Hi; lia | left; reflexivity].
  - destruct Hl as [Hl | Hl].
    + subst k. destruct (retryable (net (n + m)%nat)) eqn:E.
      * exists (S m). split; [lia|]. split; [| left; reflexivity].
        intros i Hi. destruct (Nat.eq_dec i m) as [-> | Hne];
          [exact E | apply Hr; lia].
      * exists m. split; [lia|]. split; [exact Hr | right; exact E].
    + exists k. split; [lia|]. split; [exact Hr | right; exact Hl].
Qed.

Lemma requestWithRetries_stops (url : string) (method : HttpMethod)
  (hdrs : list (string * string)) (net : Network) (n k : nat) :
  (k <= 4)%nat ->
  (forall i, (i < k)%nat -> retryable (net (n + i)%nat) = true) ->
  k = 4%nat \/ retryable (net (n + k)%nat) = false ->
  exists ev,
    requestWithRetries url method hdrs net n =
    (outcome_for (net (n + k)%nat), ev, (n + S k)%nat) /\
    attempts ev = S k /\
    sleeps ev = waits net n 500 k.
Proof.
  intros Hk Hr Hl.
  pose proof (eq_refl : MAX_ATTEMPTS = 5) as HM.
  destruct (retry_loop_stops url method hdrs net k (Z.to_nat MAX_ATTEMPTS)
              0 500 n) as [ev [H [HA HS]]].
  { lia. }
  { rewrite HM. change (Z.to_nat 5) with 5%nat. lia. }
  { exact Hr. }
  { destruct Hl as [-> | Hl]; [left; rewrite HM; reflexivity | right; exact Hl]. }
  unfold requestWithRetries, requestWithRetries_fuel, bind, emit.
  cbv beta iota. rewrite H. cbv beta iota.
  exists (Info ("request: " ++ HttpMethod_to_string method ++ " " ++ url) :: ev).
  split; [reflexivity|]. split.
  - rewrite attempts_cons. exact HA.
  - exact HS.
Qed.




Lemma wait_after_backoff (r : FetchResult) (b : Z) :
  (forall res, r = Responded res -> headers_get res "Retry-After" = None) ->
  wait_after r b = b.
Proof.
  intros H. destruct r as [res | e]; cbn; [| reflexivity].
  destruct (status res =? 429); [| reflexivity].
  unfold retry_wait. rewrite (H res eq_refl). reflexivity.
Qed.

(** X1. The executor retries exactly the results that are a 429 or 5xx
    response or a transport failure: on every network it stops at the
    first of its five requests whose result is none of these, or at the
    fifth; it ends with the result of that request (the response is
    returned, the failure is thrown), and it has waited once after each
    earlier request. *)
Theorem requestWithRetries_stops_at_first_final (url : string)
  (method : HttpMethod) (hdrs : list (string * string)) (net : Network) :
  exists k ev,
    (k <= 4)%nat /\
    (forall i, (i < k)%nat -> retryable (net i) = true) /\
    (k = 4%nat \/ retryable (net k) = false) /\
    execute (requestWithRetries url method hdrs) net =
    (outcome_for (net k), ev, S k) /\
    attempts ev = S k /\
    sleeps ev = waits net 0 500 k.
Proof.
  destruct (stopping_point net 0 4) as [k [Hk [Hr Hl]]].
  destruct (requestWithRetries_stops url method hdrs net 0 k Hk Hr Hl)
    as [ev [H [HA HS]]].
  exists k, ev. cbn [Nat.add] in *.
  repeat (split; [assumption|]). exact HS.
Qed.


Lemma waits_schedule (net : Network) (n k : nat) :
  (k <= 4)%nat ->
  (forall i res, (i < k)%nat -> net (n + i)%nat = Responded res ->
                 headers_get res "Retry-After" = None) ->
  waits net n 500 k = firstn k [500; 1000; 2000; 4000].
Proof.
  intros Hk H.
  assert (W : forall i b, (i < k)%nat -> wait_after (net (n + i)%nat) b = b).
  { intros i b Hi. apply wait_after_backoff. intros res Hres.
    exact (H i res Hi Hres). }
  destruct k as [| [| [| [| [| k]]]]]; [| | | | | lia]; cbn [waits firstn].
  - reflexivity.
  - rewrite <- (Nat.add_0_r n) at 1. rewrite W by lia. reflexivity.
  - rewrite <- (Nat.add_0_r n) at 1. rewrite <- (Nat.add_1_r n).
    rewrite !W by lia. reflexivity.
  - rewrite <- (Nat.add_0_r n) at 1. rewrite <- (Nat.add_1_r n).
    replace (S (n + 1)) with (n + 2)%nat by lia.
    rewrite !W by lia. reflexivity.
  - rewrite <- (Nat.add_0_r n) at 1. rewrite <- (Nat.add_1_r n).
    replace (S (n + 1)) with (n + 2)%nat by lia.
    replace (S (n + 2)) with (n + 3)%nat by lia.
    rewrite !W by lia. reflexivity.
Qed.

(** X3. When none of the first four responses carries a [Retry-After]
    header, the waits of the executor are the first of 500, 1000, 2000 and
    4000 ms, one after each request but the last: the backoff doubles from
    500 ms, and its ceiling of 8000 ms is never waited. *)
Theorem requestWithRetries_backoff_schedule (url : string)
  (method : HttpMethod) (hdrs : list (string * string)) (net : Network) :
  (forall i res, (i < 4)%nat -> net i = Responded res ->
                 headers_get res "Retry-After" = None) ->
  let ev := events_of (execute (requestWithRetries url method hdrs) net) in
  sleeps ev = firstn (attempts ev - 1) [500; 1000; 2000; 4000] /\
  Forall (fun ms => ms <= 4000) (sleeps ev).
Proof.
  intros Hh.
  destruct (stopping_point net 0 4) as [k [Hk [Hr Hl]]].
  destruct (requestWithRetries_stops url method hdrs net 0 k Hk Hr Hl)
    as [ev [H [HA HS]]].
  cbv zeta. unfold execute. rewrite H. cbn [events_of fst snd].
  rewrite HS, HA, waits_schedule.
  - replace (S k - 1)%nat with k by lia. split; [reflexivity|].
    destruct k as [| [| [| [| [| k]]]]]; [| | | | | lia]; cbn [firstn];
      repeat (constructor; [lia|]); constructor.
  - exact Hk.
  - intros i res Hi. cbn [Nat.add]. apply Hh. lia.
Qed.

Lemma requestWithRetries_backoff_schedule_witness :
  let ev := events_of
              (execute (requestWithRetries
                          "https://abacus.jasoncameron.dev/hit/my-org/build"
                          GET [("Accept", "application/json")])
                       (answers [response 503 [] "busy";
                                 Rejected (TypeError "fetch failed");
                                 response 429 [] EmptyString;
                                 response 200 [] "{}"] unreachable)) in
  sleeps ev = firstn (attempts ev - 1) [500; 1000; 2000; 4000] /\
  Forall (fun ms => ms <= 4000) (sleeps ev).
Proof.
  apply requestWithRetries_backoff_schedule.
  intros i res Hi Hres.
  destruct i as [| [| [| [| i]]]]; [| | | | lia]; cbn in Hres;
    try discriminate Hres; injection Hres as <-; reflexivity.
Defined.

Lemma try_fetch_strip {A} (url : string) (method : HttpMethod)
  (hdrs hdrs' : list (string * string)) (k : Response -> M A)
  (h : JSError -> M A) (net : Network) (n : nat) :
  same_up_to_headers
    (try_catch (bind (fetch url method hdrs) k) h net n)
    (try_catch (bind (fetch url method hdrs') k) h net n).
Proof.
  unfold same_up_to_headers, try_catch, bind, fetch.
  destruct (net n) as [res | e].
  - destruct (k res net (S n)) as [[[a | e | ] ev] n'] eqn:E; cbn.
    + repeat split.
    + destruct (h e net n') as [[o ev'] n'']; cbn. repeat split.
    + repeat split.
  - destruct (h e net (S n)) as [[o ev'] n'']; cbn. repeat split.
Qed.

Lemma attempt_once_strip (url : string) (method : HttpMethod)
  (hdrs hdrs' : list (string * string)) (attempt backoffMs : Z)
  (net : Network) (n : nat) :
  same_up_to_headers
    (attempt_once url method hdrs attempt backoffMs net n)
    (attempt_once url method hdrs' attempt backoffMs net n).
Proof. unfold attempt_once. apply try_fetch_strip. Qed.

Lemma retry_loop_strip (url : string) (method : HttpMethod)
  (hdrs hdrs' : list (string * string)) (net : Network) (fuel : nat) :
  forall (attempt backoffMs : Z) (n : nat),
    same_up_to_headers
      (retry_loop fuel url method hdrs attempt backoffMs net n)
      (retry_loop fuel url method hdrs' attempt backoffMs net n).
Proof.
  induction fuel as [| fuel IH]; intros attempt backoffMs n.
  - repeat split.
  - destruct (attempt_once_strip url method hdrs hdrs' (attempt + 1) backoffMs
                net n) as [Ho [Hn Hev]].
    destruct (attempt_once url method hdrs (attempt + 1) backoffMs net n)
      as [[o1 ev1] n1] eqn:E1.
    destruct (attempt_once url method hdrs' (attempt + 1) backoffMs net n)
      as [[o2 ev2] n2] eqn:E2.
    cbn in Ho, Hn, Hev. subst o2 n2.
    destruct o1 as [[b | res] | e | ].
    + rewrite (retry_loop_continue _ _ _ _ _ _ _ _ _ _ _ E1),
              (retry_loop_continue _ _ _ _ _ _ _ _ _ _ _ E2).
      destruct (IH (attempt + 1) b n1) as [Ho' [Hn' Hev']].
      destruct (retry_loop fuel url method hdrs (attempt + 1) b net n1)
        as [[o3 ev3] n3].
      destruct (retry_loop fuel url method hdrs' (attempt + 1) b net n1)
        as [[o4 ev4] n4].
      cbn in Ho', Hn', Hev' |- *. subst o4 n4.
      split; [reflexivity|]. split; [reflexivity|].
      cbn [events_of fst snd map strip_headers].
      rewrite !map_app, Hev, Hev'. reflexivity.
    + rewrite (retry_loop_return _ _ _ _ _ _ _ _ _ _ _ E1),
              (retry_loop_return _ _ _ _ _ _ _ _ _ _ _ E2).
      split; [reflexivity|]. split; [reflexivity|].
      cbn [events_of fst snd map strip_headers]. rewrite Hev. reflexivity.
    + rewrite (retry_loop_throw _ _ _ _ _ _ _ _ _ _ _ E1),
              (retry_loop_throw _ _ _ _ _ _ _ _ _ _ _ E2).
      split; [reflexivity|]. split; [reflexivity|].
      cbn [events_of fst snd map strip_headers]. rewrite Hev. reflexivity.
    + rewrite (retry_loop_out_of_fuel _ _ _ _ _ _ _ _ _ _ E1),
              (retry_loop_out_of_fuel _ _ _ _ _ _ _ _ _ _ E2).
      split; [reflexivity|]. split; [reflexivity|].
      cbn [events_of fst snd map strip_headers]. rewrite Hev. reflexivity.
Qed.

Lemma requestWithRetries_strip (url : string) (method : HttpMethod)
  (hdrs hdrs' : list (string * string)) (net : Network) (n : nat) :
  same_up_to_headers (requestWithRetries url method hdrs net n)
                     (requestWithRetries url method hdrs' net n).
Proof.
  unfold requestWithRetries, requestWithRetries_fuel, bind, emit.
  cbv beta iota.
  destruct (retry_loop_strip url method hdrs hdrs' net (Z.to_nat MAX_ATTEMPTS)
              0 500 n) as [Ho [Hn Hev]].
  destruct (retry_loop (Z.to_nat MAX_ATTEMPTS) url method hdrs 0 500 net n)
    as [[o1 ev1] n1].
  destruct (retry_loop (Z.to_nat MAX_ATTEMPTS) url method hdrs' 0 500 net n)
    as [[o2 ev2] n2].
  cbn in Ho, Hn, Hev |- *. subst o2 n2.
  split; [reflexivity|]. split; [reflexivity|].
  cbn [events_of fst snd map strip_headers app]. rewrite Hev. reflexivity.
Qed.

(** X4. The executor does not log the headers of the request: two runs
    on the same network that differ only in the headers given end in the
    same way after the same number of requests, and their events (log
    lines, requests, waits) are the same up to the headers recorded in
    the requests themselves. *)
Theorem requestWithRetries_ignores_headers (url : string)
  (method : HttpMethod) (hdrs hdrs' : list (string * string))
  (net : Network) (n : nat) :
  let r := requestWithRetries url method hdrs net n in
  let r' := requestWithRetries url method hdrs' net n in
  outcome_of r = outcome_of r' /\ snd r = snd r' /\
  map strip_headers (events_of r) = map strip_headers (events_of r') /\
  filter (fun e => negb (is_Fetch e)) (events_of r) =
  filter (fun e => negb (is_Fetch e)) (events_of r').
Proof.
  cbv zeta.
  destruct (requestWithRetries_strip url method hdrs hdrs' net n)
    as [Ho [Hn Hev]].
  repeat (split; [assumption|]).
  assert (F : forall l,
             filter (fun e => negb (is_Fetch e)) l =
             filter (fun e => negb (is_Fetch e)) (map strip_headers l)).
  { induction l as [| e l IH]; [reflexivity|].
    destruct e; cbn; rewrite <- ?IH; reflexivity. }
  rewrite F, (F (events_of (requestWithRetries url method hdrs' net n))), Hev.
  reflexivity.
Qed.

(** ** The events of composed computations *)

Lemma emits_only_ret (P : Event -> Prop) {A} (a : A) : emits_only P (ret a).
Proof. intros net n. constructor. Qed.


Lemma emits_only_emit (P : Event -> Prop) (e : Event) :
  P e -> emits_only P (emit e).
Proof. intros H net n. cbn. constructor; [exact H | constructor]. Qed.

Lemma emits_only_bind (P : Event -> Prop) {A B} (m : M A) (k : A -> M B) :
  emits_only P m -> (forall a, emits_only P (k a)) -> emits_only P (bind m k).
Proof.
  intros Hm Hk net n. unfold bind. specialize (Hm net n).
  destruct (m net n) as [[[a | e | ] ev] n']; cbn in Hm |- *; try exact Hm.
  specialize (Hk a net n').
  destruct (k a net n') as [[o ev'] n'']. cbn in Hk |- *.
  apply Forall_app. split; assumption.
Qed.






Section NoResult.

(** A property of events that holds of everything but outputs and the
    failure. *)
Variable P : Event -> Prop.
Hypothesis P_other : forall e, is_result e = false -> P e.











End NoResult.

(** ** The interpretation of the response *)

Lemma truthy_false (s : string) : truthy s = false -> s = EmptyString.
Proof. destruct s; [reflexivity | discriminate]. Qed.

Lemma readJsonSafely_run (res : Response) (net : Network) (n : nat) :
  readJsonSafely res net n =
  match body res with
  | BodyText raw => (Returned (raw, payload_of raw), [], n)
  | BodyError e => (Thrown e, [], n)
  end.
Proof.
  unfold readJsonSafely, bind, text, payload_of.
  destruct (body res) as [raw | e]; [| reflexivity].
  cbn. destruct (truthy raw) eqn:E; cbn.
  - destruct (JSON.parse raw); reflexivity.
  - rewrite (truthy_false raw E). reflexivity.
Qed.

Lemma interpret_run (operation : string) (res : Response) (net : Network)
  (n : nat) :
  interpret operation res net n =
  match body res with
  | BodyError e => (Thrown e, [], n)
  | BodyText raw =>
      (emit (Debug ("response body: " ++
                    sanitizeForLogs match payload_of raw with
                                    | JNull => JStr raw
                                    | _ => payload_of raw
                                    end)) ;;;
       (if negb (ok res) then
          throw (Error (match opt_member (payload_of raw) "error" with
                        | Some (JStr e) => e
                        | _ => "Request failed with status " ++
                               show (status res)
                        end ++ " (operation=" ++ operation ++ ")"))
        else ret tt) ;;;
       set_outputs operation (payload_of raw)) net n
  end.
Proof.
  unfold interpret. unfold bind at 1. rewrite readJsonSafely_run.
  destruct (body res) as [raw | e]; [| reflexivity].
  unfold set_outputs.
  destruct ((emit _ ;;; _) net n) as [[o ev] n']. reflexivity.
Qed.

Lemma JSValue_null_dec (v : JSValue) : v = JNull \/ v <> JNull.
Proof. destruct v; [left; reflexivity | right; discriminate ..]. Qed.

Lemma emits_only_bind_ret (P : Event -> Prop) {A B} (a : A) (k : A -> M B) :
  emits_only P (k a) -> emits_only P (bind (ret a) k).
Proof.
  intros H net n. unfold bind, ret. specialize (H net n).
  destruct (k a net n) as [[o ev] n']. exact H.
Qed.

Lemma member_run (payload : JSValue) (name : string) :
  payload <> JNull -> member payload name = ret (opt_member payload name).
Proof. intros H. destruct payload; [contradiction | reflexivity ..]. Qed.

Lemma setOutputIfPresent_emits (P : Event -> Prop) (name : string)
  (value : option JSValue) :
  (forall x, value = Some x -> x <> JNull -> P (SetOutput name (ToString x))) ->
  emits_only P (setOutputIfPresent name value).
Proof.
  intros H. destruct value as [x |]; [| apply emits_only_ret].
  destruct x; try apply emits_only_ret;
    (apply emits_only_emit, H; [reflexivity | discriminate]).
Qed.

Lemma output_step (P : Event -> Prop) (payload : JSValue) (name : string)
  (rest : M unit) :
  (forall x, opt_member payload name = Some x -> x <> JNull ->
             P (SetOutput name (ToString x))) ->
  emits_only P rest ->
  emits_only P (v <- member payload name ;; setOutputIfPresent name v ;;; rest).
Proof.
  intros H Hrest.
  destruct (JSValue_null_dec payload) as [-> | Hnn].
  - intros net n. constructor.
  - rewrite member_run by exact Hnn.
    apply emits_only_bind_ret, emits_only_bind;
      [apply setOutputIfPresent_emits, H | intros _; exact Hrest].
Qed.

Lemma output_last (P : Event -> Prop) (payload : JSValue) (name : string) :
  (forall x, opt_member payload name = Some x -> x <> JNull ->
             P (SetOutput name (ToString x))) ->
  emits_only P (v <- member payload name ;; setOutputIfPresent name v).
Proof.
  intros H.
  destruct (JSValue_null_dec payload) as [-> | Hnn].
  - intros net n. constructor.
  - rewrite member_run by exact Hnn.
    apply emits_only_bind_ret, setOutputIfPresent_emits, H.
Qed.

Lemma set_outputs_emits (P : Event -> Prop) (operation : string)
  (payload : JSValue) :
  (forall name x,
     In name (output_names operation) ->
     opt_member payload name = Some x -> x <> JNull ->
     P (SetOutput name (ToString x))) ->
  (forall e, is_result e = false -> P e) ->
  emits_only P (set_outputs operation payload).
Proof.
  intros Hout Hother.
  unfold set_outputs, output_names in *.
  destruct (operation =? "create")%string, (operation =? "info")%string,
           (operation =? "delete")%string;
    cbn [when app] in *;
    repeat first
      [ apply output_step; [intros x; apply Hout; cbn; tauto |]
      | apply output_last; intros x; apply Hout; cbn; tauto
      | apply emits_only_bind; [| intros _]
      | apply emits_only_ret
      | apply emits_only_emit, Hother; reflexivity
      | match goal with
        | |- emits_only _ (match ?x with _ => _ end) => destruct x
        end ].
Qed.

(** ** Computations that return *)







Lemma set_outputs_null (operation : string) (net : Network) (n : nat) :
  set_outputs operation JNull net n =
  (Thrown (TypeError "Cannot read properties of null (reading 'value')"),
   [], n).
Proof. reflexivity. Qed.

Lemma output_names_not_error (operation name : string) :
  In name (output_names operation) -> ("error" =? name)%string = false.
Proof.
  unfold output_names.
  destruct (operation =? "create")%string, (operation =? "info")%string,
           (operation =? "delete")%string;
    cbn [app In]; intros H;
    repeat (destruct H as [<- | H]; [reflexivity|]); contradiction.
Qed.

Lemma payload_of_field (raw name : string) (x : JSValue) :
  ("error" =? name)%string = false ->
  opt_member (payload_of raw) name = Some x ->
  exists fields,
    JSON.parse raw = Some (JObj fields) /\ JSON.lookup name fields = Some x.
Proof.
  intros Hne. unfold payload_of.
  destruct (negb (truthy raw)); [discriminate|].
  destruct (JSON.parse raw) as [json |].
  - destruct json; try discriminate. cbn. intros H. eexists. split; eauto.
  - cbn [opt_member JSON.lookup]. rewrite Hne. discriminate.
Qed.

(** X5. A response whose status is not 2xx fails the invocation once its
    body is read: nothing is output, and the message ends with the
    operation.  The message is the text of the [error] field of a JSON
    body, the whole body when the body is not JSON, and otherwise (an
    empty body, no [error] field, or one that is not a string) the fixed
    text with the status. *)
Theorem interpret_reports_failure (operation : string) (res : Response)
  (raw : string) (net : Network) (n : nat) :
  body res = BodyText raw -> ok res = false ->
  exists msg dbg,
    interpret operation res net n =
    (Thrown (Error (msg ++ " (operation=" ++ operation ++ ")")),
     [Debug dbg], n) /\
    (raw = EmptyString ->
     msg = "Request failed with status " ++ show (status res)) /\
    (raw <> EmptyString -> JSON.parse raw = None -> msg = raw) /\
    (forall json,
       raw <> EmptyString -> JSON.parse raw = Some json ->
       msg = match opt_member json "error" with
             | Some (JStr e) => e
             | _ => "Request failed with status " ++ show (status res)
             end).
Proof.
  intros Hbody Hok.
  rewrite interpret_run, Hbody. unfold bind, emit. rewrite Hok. cbn.
  eexists. eexists. split; [reflexivity|].
  unfold payload_of.
  split; [| split].
  - intros ->. reflexivity.
  - intros Hne Hparse. rewrite Hparse.
    destruct raw; [contradiction | reflexivity].
  - intros json Hne Hparse. rewrite Hparse.
    destruct raw; [contradiction | reflexivity].
Qed.

Lemma interpret_reports_failure_witness :
  exists msg dbg,
    interpret "get"
      (mkResponse 404 [] (BodyText (Str.q "{'error':'not found'}")))
      unreachable 1%nat =
    (Thrown (Error (msg ++ " (operation=" ++ "get" ++ ")")),
     [Debug dbg], 1%nat) /\
    (Str.q "{'error':'not found'}" = EmptyString ->
     msg = "Request failed with status " ++ show 404) /\
    (Str.q "{'error':'not found'}" <> EmptyString ->
     JSON.parse (Str.q "{'error':'not found'}") = None ->
     msg = Str.q "{'error':'not found'}") /\
    (forall json,
       Str.q "{'error':'not found'}" <> EmptyString ->
       JSON.parse (Str.q "{'error':'not found'}") = Some json ->
       msg = match opt_member json "error" with
             | Some (JStr e) => e
             | _ => "Request failed with status " ++ show 404
             end).
Proof.
  apply (interpret_reports_failure "get"
           (mkResponse 404 [] (BodyText (Str.q "{'error':'not found'}")))
           (Str.q "{'error':'not found'}") unreachable 1%nat);
    reflexivity.
Defined.

(** X6. Every output of the interpretation comes from a 2xx response with
    a JSON object as its body: its name is one of the outputs of the
    operation ([value]; for [create] also [namespace], [key], [admin_key];
    for [info] its five fields; for [delete] also [status], [message]) and
    its value is the string form of the field of that name, which is
    present and not [null]. *)
Theorem interpret_outputs (operation : string) (res : Response)
  (net : Network) (n : nat) (name value : string) :
  In (SetOutput name value) (events_of (interpret operation res net n)) ->
  ok res = true /\
  In name (output_names operation) /\
  exists raw fields x,
    body res = BodyText raw /\
    JSON.parse raw = Some (JObj fields) /\
    JSON.lookup name fields = Some x /\ x <> JNull /\ value = ToString x.
Proof.
  set (P := fun e : Event =>
              match e with
              | SetOutput name value =>
                  ok res = true /\
                  In name (output_names operation) /\
                  exists raw fields x,
                    body res = BodyText raw /\
                    JSON.parse raw = Some (JObj fields) /\
                    JSON.lookup name fields = Some x /\ x <> JNull /\
                    value = ToString x
              | _ => True
              end).
  intros Hin.
  assert (HF : Forall P (events_of (interpret operation res net n))).
  { rewrite interpret_run.
    destruct (body res) as [raw | e] eqn:Hbody; [| constructor].
    apply emits_only_bind; [apply emits_only_emit; exact I | intros _].
    destruct (ok res) eqn:Hok; cbn [negb].
    - apply emits_only_bind; [apply emits_only_ret | intros _].
      apply set_outputs_emits.
      + intros nm x Hnm Hx Hnn. cbn.
        split; [reflexivity|]. split; [exact Hnm|].
        destruct (payload_of_field raw nm x
                    (output_names_not_error operation nm Hnm) Hx)
          as [fields [Hp Hl]].
        exists raw, fields, x. auto.
      + intros e0 He0. destruct e0; try exact I. discriminate He0.
    - intros net' n'. constructor. }
  rewrite Forall_forall in HF. exact (HF _ Hin).
Qed.

Lemma interpret_outputs_witness :
  ok (mkResponse 200 [] (BodyText (Str.q "{'value':42}"))) = true /\
  In "value" (output_names "hit") /\
  exists raw fields x,
    body (mkResponse 200 [] (BodyText (Str.q "{'value':42}"))) = BodyText raw /\
    JSON.parse raw = Some (JObj fields) /\
    JSON.lookup "value" fields = Some x /\ x <> JNull /\ "42" = ToString x.
Proof.
  apply (interpret_outputs "hit"
           (mkResponse 200 [] (BodyText (Str.q "{'value':42}")))
           unreachable 1%nat "value" "42").
  vm_compute. right. left. reflexivity.
Defined.

(** ** The invocation as a whole *)






(** X8. An invocation makes at most five requests, and they are all the
    same request: the retries repeat the URL, the method and the headers
    of the first one. *)
Theorem main_repeats_one_request (getInput : Inputs) (net : Network) :
  let ev := events_of (execute (main getInput) net) in
  (attempts ev <= 5)%nat /\
  exists url,
    Forall (fun e =>
              is_Fetch e = true ->
              e = Fetch url (methodFor (operation_of getInput))
                    (request_headers (operation_of getInput)
                       (getInput "admin_key")))
           ev.
Proof.
  cbv zeta.
  rewrite <- attempts_timeline.
  pose proof (main_timeline getInput net) as T.
  destruct (prepare getInput net O) as [[[req | e | ] ev0] n0] eqn:E0.
  - destruct (prepare_returned _ _ _ _ _ _ E0) as [_ [_ [_ [_ [Hm Hh]]]]].
    rewrite T, attempts_timeline. split.
    + destruct (requestWithRetries_total (req_url req) (req_method req)
                  (req_headers req) net O) as [o [ev [E [Ha _]]]].
      rewrite E. cbn [events_of fst snd]. lia.
    + exists (req_url req). apply Forall_timeline. rewrite T, <- Hm, <- Hh.
      apply requestWithRetries_fetches.
  - rewrite T. split; [rewrite attempts_nil; lia|].
    exists EmptyString. apply Forall_timeline. rewrite T. constructor.
  - rewrite T. split; [rewrite attempts_nil; lia|].
    exists EmptyString. apply Forall_timeline. rewrite T. constructor.
Qed.

(** ** The checks of the inputs *)

Lemma blank_true (v : string) :
  Str.trim v = EmptyString ->
  negb (truthy v) || (String.length (Str.trim v) =? 0)%nat = true.
Proof. intros ->. apply orb_true_r. Qed.

Lemma blank_false (v : string) :
  Str.trim v <> EmptyString ->
  negb (truthy v) || (String.length (Str.trim v) =? 0)%nat = false.
Proof.
  intros H. destruct v as [| c r]; [contradiction H; reflexivity|].
  cbn [truthy Str.is_empty negb orb].
  destruct (Str.trim (String c r)); [contradiction H; reflexivity | reflexivity].
Qed.

Lemma blank_value_true (v : string) :
  Str.trim v = EmptyString ->
  negb (truthy v) || (Str.trim v =? EmptyString)%string = true.
Proof. intros ->. apply orb_true_r. Qed.

Lemma blank_value_false (v : string) :
  Str.trim v <> EmptyString ->
  negb (truthy v) || (Str.trim v =? EmptyString)%string = false.
Proof.
  intros H. destruct v as [| c r]; [contradiction H; reflexivity|].
  cbn [truthy Str.is_empty negb orb]. apply String.eqb_neq, H.
Qed.

Lemma parseInteger_some (name raw : string) (z : Z) :
  integer_input raw = Some z -> parseInteger name raw = ret z.
Proof.
  unfold integer_input, parseInteger. cbv zeta.
  destruct (negb (Num.isFinite (Num.Number raw)) ||
            negb (Num.isInteger (Num.Number raw))); [discriminate|].
  intros H. injection H as <-. reflexivity.
Qed.

Lemma parseInteger_none (name raw : string) :
  integer_input raw = None ->
  parseInteger name raw =
  throw (Error ("Invalid " ++ name ++ ": expected integer, got " ++
                Str.dq ++ raw ++ Str.dq)).
Proof.
  unfold integer_input, parseInteger. cbv zeta.
  destruct (negb (Num.isFinite (Num.Number raw)) ||
            negb (Num.isInteger (Num.Number raw))); [reflexivity | discriminate].
Qed.

(** X9. The names are checked before anything else, in a fixed order: a
    blank namespace, then a blank key, then a namespace that does not match
    the pattern, then such a key.  The first check that fails gives the
    failure message, whatever the other inputs are; nothing is logged and
    no request is made. *)
Theorem name_checks_in_order (getInput : Inputs) (net : Network) :
  let namespace := getInput "namespace" in
  let key := getInput "key" in
  let fails msg :=
    execute (main getInput) net = (Returned tt, [SetFailed msg], O) in
  (Str.trim namespace = EmptyString ->
   fails "Missing required input: namespace") /\
  (Str.trim namespace <> EmptyString -> Str.trim key = EmptyString ->
   fails "Missing required input: key") /\
  (Str.trim namespace <> EmptyString -> Str.trim key <> EmptyString ->
   NAME_RE_test namespace = false ->
   fails ("Invalid namespace: must match ^[A-Za-z0-9_-.]{3,64}$ (got " ++
          Str.dq ++ namespace ++ Str.dq ++ ")")) /\
  (NAME_RE_test namespace = true -> Str.trim key <> EmptyString ->
   NAME_RE_test key = false ->
   fails ("Invalid key: must match ^[A-Za-z0-9_-.]{3,64}$ (got " ++
          Str.dq ++ key ++ Str.dq ++ ")")).
Proof.
  cbv zeta. unfold execute, main, run, prepare, requireNonEmpty, validateName.
  split; [| split; [| split]].
  - intros H. rewrite (blank_true _ H). reflexivity.
  - intros H1 H2. rewrite (blank_false _ H1), (blank_true _ H2). reflexivity.
  - intros H1 H2 H3.
    rewrite (blank_false _ H1), (blank_false _ H2), H3. reflexivity.
  - intros H1 H2 H3.
    rewrite (name_nonblank _ H1), (blank_false _ H2), H1, H3. reflexivity.
Qed.

Lemma name_checks_in_order_witness :
  execute (main (inputs_of [("namespace", "my org"); ("key", "x")]))
          unreachable =
  (Returned tt,
   [SetFailed ("Invalid namespace: must match ^[A-Za-z0-9_-.]{3,64}$ (got " ++
               Str.dq ++ "my org" ++ Str.dq ++ ")")], O).
Proof.
  apply (proj1 (proj2 (proj2 (name_checks_in_order
           (inputs_of [("namespace", "my org"); ("key", "x")]) unreachable))));
    first [reflexivity | discriminate].
Defined.

Lemma truthy_nonblank (v : string) :
  Str.trim v <> EmptyString -> truthy v = true.
Proof. destruct v; [intros H; contradiction H; reflexivity | reflexivity]. Qed.

(** X10. An administrative operation ([set], [update], [reset], [delete])
    with valid names and a blank [admin_key] fails after the operation has
    been logged: the message names the missing input, no secret is
    registered and no request is made. *)
Theorem admin_key_is_required (getInput : Inputs) (net : Network) :
  NAME_RE_test (getInput "namespace") = true ->
  NAME_RE_test (getInput "key") = true ->
  isAdminOp (operation_of getInput) = true ->
  Str.trim (getInput "admin_key") = EmptyString ->
  execute (main getInput) net =
  (Returned tt,
   [Info ("op: " ++ operation_of getInput ++ " namespace=" ++
          getInput "namespace" ++ " key=" ++ getInput "key");
    SetFailed "Missing required input: admin_key"], O).
Proof.
  intros Hns Hkey Hadmin Hblank.
  unfold execute, main, run, prepare, requireNonEmpty, validateName.
  rewrite (name_nonblank _ Hns), (name_nonblank _ Hkey), Hns, Hkey, Hadmin,
    (blank_true _ Hblank).
  reflexivity.
Qed.

Lemma admin_key_is_required_witness :
  execute (main (inputs_of [("operation", "reset"); ("namespace", "my-org");
                            ("key", "build-api"); ("admin_key", "  ")]))
          unreachable =
  (Returned tt,
   [Info ("op: " ++ "reset" ++ " namespace=" ++ "my-org" ++ " key=" ++
          "build-api");
    SetFailed "Missing required input: admin_key"], O).
Proof.
  apply (admin_key_is_required
           (inputs_of [("operation", "reset"); ("namespace", "my-org");
                       ("key", "build-api"); ("admin_key", "  ")])
           unreachable); reflexivity.
Defined.

(** X11. [set] and [update] with valid names and an [admin_key] need an
    integer [value]: a blank value fails as a missing input, a value that
    is not an integer as an invalid one.  Either failure comes after the
    admin key has been registered as a secret and before any request. *)
Theorem value_is_required (getInput : Inputs) (net : Network) :
  operation_of getInput = "set" \/ operation_of getInput = "update" ->
  NAME_RE_test (getInput "namespace") = true ->
  NAME_RE_test (getInput "key") = true ->
  Str.trim (getInput "admin_key") <> EmptyString ->
  (Str.trim (getInput "value") = EmptyString \/
   integer_input (getInput "value") = None) ->
  execute (main getInput) net =
  (Returned tt,
   [Info ("op: " ++ operation_of getInput ++ " namespace=" ++
          getInput "namespace" ++ " key=" ++ getInput "key");
    SetSecret (getInput "admin_key");
    SetFailed
      (if (Str.trim (getInput "value") =? EmptyString)%string
       then "Missing required input: value (required for operation=" ++
            operation_of getInput ++ ")"
       else "Invalid value: expected integer, got " ++ Str.dq ++
            getInput "value" ++ Str.dq)], O).
Proof.
  intros Hop Hns Hkey Hadmin Hvalue.
  unfold execute, main, run, prepare, requireNonEmpty, validateName.
  rewrite (name_nonblank _ Hns), (name_nonblank _ Hkey), Hns, Hkey,
    (blank_false _ Hadmin).
  destruct (string_dec (Str.trim (getInput "value")) EmptyString)
    as [Hblank | Hblank].
  - rewrite (blank_value_true _ Hblank), (proj2 (String.eqb_eq _ _) Hblank).
    destruct Hop as [-> | ->]; reflexivity.
  - destruct Hvalue as [Hvalue | Hvalue]; [contradiction|].
    rewrite (blank_value_false _ Hblank), (proj2 (String.eqb_neq _ _) Hblank),
      (parseInteger_none "value" _ Hvalue).
    destruct Hop as [-> | ->]; reflexivity.
Qed.

Lemma value_is_required_witness :
  execute (main (inputs_of [("operation", "set"); ("namespace", "my-org");
                            ("key", "build-api"); ("admin_key", "s3cret");
                            ("value", "4.5")]))
          unreachable =
  (Returned tt,
   [Info ("op: " ++ "set" ++ " namespace=" ++ "my-org" ++ " key=" ++
          "build-api");
    SetSecret "s3cret";
    SetFailed
      (if (Str.trim "4.5" =? EmptyString)%string
       then "Missing required input: value (required for operation=" ++
            "set" ++ ")"
       else "Invalid value: expected integer, got " ++ Str.dq ++
            "4.5" ++ Str.dq)], O).
Proof.
  apply (value_is_required
           (inputs_of [("operation", "set"); ("namespace", "my-org");
                       ("key", "build-api"); ("admin_key", "s3cret");
                       ("value", "4.5")])
           unreachable);
    first [reflexivity | discriminate | left; reflexivity
          | right; vm_compute; reflexivity].
Defined.

(** X12. [create] with valid names and an [initializer] that is given and
    is not an integer fails before any request, with a message that quotes
    the input. *)
Theorem create_initializer_is_checked (getInput : Inputs) (net : Network) :
  operation_of getInput = "create" ->
  NAME_RE_test (getInput "namespace") = true ->
  NAME_RE_test (getInput "key") = true ->
  integer_input (getInput "initializer") = None ->
  execute (main getInput) net =
  (Returned tt,
   [Info ("op: create namespace=" ++ getInput "namespace" ++ " key=" ++
          getInput "key");
    SetFailed ("Invalid initializer: expected integer, got " ++ Str.dq ++
               getInput "initializer" ++ Str.dq)], O).
Proof.
  intros Hop Hns Hkey Hinit.
  assert (Ht : truthy (getInput "initializer") = true).
  { destruct (getInput "initializer"); [discriminate Hinit | reflexivity]. }
  unfold execute, main, run, prepare, requireNonEmpty, validateName.
  rewrite (name_nonblank _ Hns), (name_nonblank _ Hkey), Hns, Hkey, Hop, Ht,
    (parseInteger_none "initializer" _ Hinit).
  reflexivity.
Qed.

Lemma create_initializer_is_checked_witness :
  execute (main (inputs_of [("operation", "create"); ("namespace", "my-org");
                            ("key", "build-api"); ("initializer", "ten")]))
          unreachable =
  (Returned tt,
   [Info ("op: create namespace=" ++ "my-org" ++ " key=" ++ "build-api");
    SetFailed ("Invalid initializer: expected integer, got " ++ Str.dq ++
               "ten" ++ Str.dq)], O).
Proof.
  apply (create_initializer_is_checked
           (inputs_of [("operation", "create"); ("namespace", "my-org");
                       ("key", "build-api"); ("initializer", "ten")])
           unreachable); reflexivity.
Defined.

(** The preparation on inputs that pass every check. *)
Lemma prepare_valid (getInput : Inputs) (net : Network) (n : nat) :
  let operation := operation_of getInput in
  let initializerRaw :=
    if truthy (getInput "initializer") then getInput "initializer" else "0" in
  NAME_RE_test (getInput "namespace") = true ->
  NAME_RE_test (getInput "key") = true ->
  (isAdminOp operation = true ->
   Str.trim (getInput "admin_key") <> EmptyString) ->
  (is_set_or_update operation = true ->
   Str.trim (getInput "value") <> EmptyString /\
   integer_input (getInput "value") <> None) ->
  ((operation =? "create")%string = true ->
   integer_input initializerRaw <> None) ->
  exists url,
    buildUrl operation (getInput "namespace") (getInput "key")
      (if (operation =? "create")%string then integer_input initializerRaw
       else None)
      (if is_set_or_update operation then integer_input (getInput "value")
       else None) = ret url /\
    prepare getInput net n =
    (Returned (mkRequest url (methodFor operation)
                 (request_headers operation (getInput "admin_key"))),
     Info ("op: " ++ operation ++ " namespace=" ++ getInput "namespace" ++
           " key=" ++ getInput "key")
     :: (if isAdminOp operation then [SetSecret (getInput "admin_key")]
         else []), n).
Proof.
  cbv zeta. intros Hns Hkey Hadmin Hvalue Hinit.
  destruct (buildUrl_total (operation_of getInput) (getInput "namespace")
              (getInput "key")
              (if (operation_of getInput =? "create")%string
               then integer_input
                      (if truthy (getInput "initializer")
                       then getInput "initializer" else "0")
               else None)
              (if is_set_or_update (operation_of getInput)
               then integer_input (getInput "value") else None))
    as [url Hurl].
  exists url. split; [exact Hurl|].
  unfold prepare, requireNonEmpty, validateName.
  rewrite (name_nonblank _ Hns), (name_nonblank _ Hkey), Hns, Hkey.
  destruct (isAdminOp (operation_of getInput)) eqn:Ha;
    [rewrite (blank_false _ (Hadmin eq_refl)) |];
    (destruct (is_set_or_update (operation_of getInput)) eqn:Hs;
     [ destruct (Hvalue eq_refl) as [Hb Hi];
       destruct (integer_input (getInput "value")) as [v |] eqn:Hv;
       [| contradiction];
       rewrite (blank_value_false _ Hb), (parseInteger_some "value" _ _ Hv)
     |]);
    (destruct (operation_of getInput =? "create")%string eqn:Hc;
     [ destruct (integer_input _) as [i |] eqn:Hi' in Hinit, Hurl;
       [| destruct (Hinit eq_refl eq_refl)];
       rewrite (parseInteger_some "initializer" _ _ Hi')
     |]);
    unfold bind; cbn; rewrite Hurl; reflexivity.
Qed.

(** X13. Inputs that pass every check are sent: with valid names, an
    [admin_key] for an administrative operation, an integer [value] for
    [set] and [update] and an integer [initializer] for [create], the
    invocation logs the operation, registers the admin key as a secret
    when the operation is administrative, and then makes the request, with
    the URL of [buildUrl], the method of the operation and its headers.
    The secret is registered before the request is logged or made. *)
Theorem valid_inputs_are_sent (getInput : Inputs) (net : Network) :
  let operation := operation_of getInput in
  let initializerRaw :=
    if truthy (getInput "initializer") then getInput "initializer" else "0" in
  NAME_RE_test (getInput "namespace") = true ->
  NAME_RE_test (getInput "key") = true ->
  (isAdminOp operation = true ->
   Str.trim (getInput "admin_key") <> EmptyString) ->
  (is_set_or_update operation = true ->
   Str.trim (getInput "value") <> EmptyString /\
   integer_input (getInput "value") <> None) ->
  ((operation =? "create")%string = true ->
   integer_input initializerRaw <> None) ->
  exists url rest,
    buildUrl operation (getInput "namespace") (getInput "key")
      (if (operation =? "create")%string then integer_input initializerRaw
       else None)
      (if is_set_or_update operation then integer_input (getInput "value")
       else None) = ret url /\
    events_of (execute (main getInput) net) =
    (Info ("op: " ++ operation ++ " namespace=" ++ getInput "namespace" ++
           " key=" ++ getInput "key")
     :: (if isAdminOp operation then [SetSecret (getInput "admin_key")]
         else []) ++
     Info ("request: " ++ HttpMethod_to_string (methodFor operation) ++ " " ++
           url)
     :: Info "attempt: 1/5"
     :: Fetch url (methodFor operation)
          (request_headers operation (getInput "admin_key"))
     :: rest)%list.
Proof.
  cbv zeta. intros Hns Hkey Hadmin Hvalue Hinit.
  destruct (prepare_valid getInput net O Hns Hkey Hadmin Hvalue Hinit)
    as [url [Hurl Hp]].
  destruct (main_starts getInput net _ _ Hp) as [rest Hrest].
  exists url, rest. split; [exact Hurl|].
  rewrite Hrest. cbn [req_url req_method req_headers].
  rewrite <- app_comm_cons. reflexivity.
Qed.

Lemma valid_inputs_are_sent_witness :
  exists url rest,
    buildUrl "update" "my-org" "build-api" None (Some (-3)) = ret url /\
    events_of
      (execute (main (inputs_of [("operation", "update");
                                 ("namespace", "my-org"); ("key", "build-api");
                                 ("admin_key", "s3cret"); ("value", "-3")]))
               (answers [response 200 [] "{}"] unreachable)) =
    (Info ("op: " ++ "update" ++ " namespace=" ++ "my-org" ++ " key=" ++
           "build-api")
     :: [SetSecret "s3cret"] ++
     Info ("request: " ++ "POST" ++ " " ++ url)
     :: Info "attempt: 1/5"
     :: Fetch url POST
          [("Accept", "application/json"); ("Authorization", "Bearer s3cret")]
     :: rest)%list.
Proof.
  apply (valid_inputs_are_sent
           (inputs_of [("operation", "update"); ("namespace", "my-org");
                       ("key", "build-api"); ("admin_key", "s3cret");
                       ("value", "-3")])
           (answers [response 200 [] "{}"] unreachable));
    first [reflexivity | intros _; discriminate
          | intros _; split; discriminate | discriminate ].
Defined.

(** ** What the invocation does with the admin key *)

Lemma similar_refl {A} (R : A -> A -> Prop) (m : M A) :
  (forall a, R a a) -> similar R m m.
Proof.
  intros HR net n. split; [reflexivity|]. split; [reflexivity|].
  destruct (outcome_of (m net n)); auto.
Qed.

Lemma similar_bind {A B} (R : A -> A -> Prop) (S : B -> B -> Prop)
  (m m' : M A) (k k' : A -> M B) :
  similar R m m' -> (forall a a', R a a' -> similar S (k a) (k' a')) ->
  similar S (bind m k) (bind m' k').
Proof.
  intros Hm Hk net n. unfold bind.
  destruct (Hm net n) as [Hn [Hev Ho]].
  destruct (m net n) as [[o ev] n1], (m' net n) as [[o' ev'] n1'].
  cbn in Hn, Hev, Ho. subst n1'.
  destruct o as [a | e | ], o' as [a' | e' | ]; try contradiction.
  - destruct (Hk a a' Ho net n1) as [Hn2 [Hev2 Ho2]].
    destruct (k a net n1) as [[o2 ev2] n2],
             (k' a' net n1) as [[o2' ev2'] n2'].
    cbn in Hn2, Hev2, Ho2 |- *.
    split; [exact Hn2|]. split; [| exact Ho2].
    rewrite !map_app, Hev, Hev2. reflexivity.
  - cbn. auto.
  - cbn. auto.
Qed.

Lemma similar_try_catch {A} (R : A -> A -> Prop) (m m' : M A)
  (h : JSError -> M A) :
  (forall a, R a a) -> similar R m m' ->
  similar R (try_catch m h) (try_catch m' h).
Proof.
  intros HR Hm net n. unfold try_catch.
  destruct (Hm net n) as [Hn [Hev Ho]].
  destruct (m net n) as [[o ev] n1], (m' net n) as [[o' ev'] n1'].
  cbn in Hn, Hev, Ho. subst n1'.
  destruct o as [a | e | ], o' as [a' | e' | ]; try contradiction.
  - cbn. auto.
  - subst e'.
    destruct (h e net n1) as [[o2 ev2] n2]. cbn.
    split; [reflexivity|]. split.
    + rewrite !map_app, Hev. reflexivity.
    + destruct o2; auto.
  - cbn. auto.
Qed.

Lemma requestWithRetries_similar (url : string) (method : HttpMethod)
  (hdrs hdrs' : list (string * string)) :
  similar eq (requestWithRetries url method hdrs)
             (requestWithRetries url method hdrs').
Proof.
  intros net n.
  destruct (requestWithRetries_strip url method hdrs hdrs' net n)
    as [Ho [Hn Hev]].
  split; [exact Hn|]. split.
  - assert (F : forall l,
               map hide_credentials l =
               map hide_credentials (map strip_headers l)).
    { induction l as [| e l IH]; [reflexivity|].
      cbn [map]. rewrite <- IH. destruct e; reflexivity. }
    rewrite F, (F (events_of (requestWithRetries url method hdrs' net n))), Hev.
    reflexivity.
  - rewrite <- Ho.
    destruct (outcome_of (requestWithRetries url method hdrs net n)); auto.
Qed.

Lemma prepare_similar (getInput getInput' : Inputs) :
  (forall name, name <> "admin_key" -> getInput' name = getInput name) ->
  Str.trim (getInput "admin_key") <> EmptyString ->
  Str.trim (getInput' "admin_key") <> EmptyString ->
  operation_of getInput' = operation_of getInput /\
  similar same_target (prepare getInput) (prepare getInput').
Proof.
  intros Hsame Hk Hk'.
  assert (Ho : operation_of getInput' = operation_of getInput).
  { unfold operation_of. now rewrite (Hsame "operation") by discriminate. }
  split; [exact Ho|].
  unfold prepare. rewrite Ho.
  rewrite (Hsame "namespace"), (Hsame "key"), (Hsame "value"),
    (Hsame "initializer") by discriminate.
  unfold requireNonEmpty at 3 6.
  rewrite (blank_false _ Hk), (blank_false _ Hk').
  repeat (eapply (similar_bind eq);
          [apply similar_refl; reflexivity | intros ? _ <-]).
  eapply (similar_bind eq).
  - destruct (isAdminOp (operation_of getInput));
      [| apply similar_refl; reflexivity].
    cbn [when]. eapply (similar_bind eq);
      [apply similar_refl; reflexivity | intros _ _ _].
    intros net n. repeat split.
  - intros _ _ _.
    repeat (eapply (similar_bind eq);
            [apply similar_refl; reflexivity | intros ? ? <-]).
    intros net n. repeat split.
Qed.

(** X14. The admin key reaches nothing but the registration of the secret
    and the headers of the requests: two invocations on the same network
    whose inputs differ only in a (non-blank) admin key do the same, event
    by event, once the registered secret and the request headers are
    hidden.  No log line, output or failure message depends on the key. *)
Theorem admin_key_is_not_observable (getInput getInput' : Inputs)
  (net : Network) :
  (forall name, name <> "admin_key" -> getInput' name = getInput name) ->
  Str.trim (getInput "admin_key") <> EmptyString ->
  Str.trim (getInput' "admin_key") <> EmptyString ->
  map hide_credentials (events_of (execute (main getInput) net)) =
  map hide_credentials (events_of (execute (main getInput') net)) /\
  outcome_of (execute (main getInput) net) =
  outcome_of (execute (main getInput') net).
Proof.
  intros Hsame Hk Hk'.
  destruct (prepare_similar getInput getInput' Hsame Hk Hk') as [Ho Hp].
  assert (S : similar eq (main getInput) (main getInput')).
  { unfold main, run. apply similar_try_catch; [reflexivity|].
    eapply similar_bind; [exact Hp|].
    intros req req' [Hu Hm]. rewrite Ho, Hu, Hm.
    eapply similar_bind; [apply requestWithRetries_similar|].
    intros res _ <-. apply similar_refl. reflexivity. }
  destruct (S net O) as [_ [Hev Hout]].
  split; [exact Hev|].
  unfold execute.
  destruct (outcome_of (main getInput net O)),
           (outcome_of (main getInput' net O));
    try contradiction; congruence.
Qed.

Lemma admin_key_is_not_observable_witness :
  let inputs k :=
    inputs_of [("operation", "set"); ("namespace", "my-org");
               ("key", "build-api"); ("value", "41"); ("admin_key", k)] in
  let net := answers [response 503 [] "busy";
                      response 200 [] (Str.q "{'value':41}")] unreachable in
  map hide_credentials (events_of (execute (main (inputs "s3cret")) net)) =
  map hide_credentials (events_of (execute (main (inputs "hunter2")) net)) /\
  outcome_of (execute (main (inputs "s3cret")) net) =
  outcome_of (execute (main (inputs "hunter2")) net).
Proof.
  cbv zeta.
  apply admin_key_is_not_observable.
  - intros name Hname. unfold inputs_of. cbn [find].
    destruct (String.eqb_spec "operation" name); [reflexivity|].
    destruct (String.eqb_spec "namespace" name); [reflexivity|].
    destruct (String.eqb_spec "key" name); [reflexivity|].
    destruct (String.eqb_spec "value" name); [reflexivity|].
    destruct (String.eqb_spec "admin_key" name); [| reflexivity].
    congruence.
  - discriminate.
  - discriminate.
Defined.

(** ** The outputs of a successful response *)

Lemma filter_output_of (name : string) (fields : list (string * JSValue)) :
  filter is_SetOutput (output_of name fields) = output_of name fields.
Proof.
  unfold output_of. destruct (JSON.lookup name fields) as [[] |]; reflexivity.
Qed.







Lemma payload_of_parsed (raw : string) (json : JSValue) :
  JSON.parse raw = Some json -> payload_of raw = json.
Proof.
  intros H. unfold payload_of.
  destruct raw; [discriminate H|]. cbn [truthy Str.is_empty negb].
  rewrite H. reflexivity.
Qed.



(** X16. A 2xx response whose body is the JSON value [null] fails the
    invocation: reading the first field throws a [TypeError], the body is
    logged as the text that was received, and no output is set. *)
Theorem interpret_null_body (operation : string) (res : Response)
  (raw : string) (net : Network) (n : nat) :
  ok res = true -> body res = BodyText raw ->
  JSON.parse raw = Some JNull ->
  exists e,
    interpret operation res net n =
    (Thrown e,
     [Debug ("response body: " ++ sanitizeForLogs (JStr raw))], n) /\
    err_name e = "TypeError".
Proof.
  intros Hok Hbody Hparse.
  rewrite interpret_run, Hbody, (payload_of_parsed _ _ Hparse).
  unfold bind at 1. unfold emit at 1. cbv beta iota.
  unfold bind at 1. rewrite Hok. cbn [negb ret]. cbv beta iota.
  rewrite set_outputs_null. eexists. split; reflexivity.
Qed.

Lemma interpret_null_body_witness :
  exists e,
    interpret "hit" (mkResponse 200 [] (BodyText "null")) unreachable 1%nat =
    (Thrown e,
     [Debug ("response body: " ++ sanitizeForLogs (JStr "null"))], 1%nat) /\
    err_name e = "TypeError".
Proof.
  apply (interpret_null_body "hit" (mkResponse 200 [] (BodyText "null"))
           "null" unreachable 1%nat); reflexivity.
Defined.

(** ** The log of the outputs *)

Lemma lookup_replace_other (k k' : string) (v : JSValue)
  (fields : list (string * JSValue)) :
  k <> k' ->
  JSON.lookup k (JSON.replace_field k' v fields) = JSON.lookup k fields.
Proof.
  intros Hne. induction fields as [| [k0 v0] r IH]; [reflexivity|].
  cbn [JSON.replace_field JSON.lookup].
  destruct (String.eqb_spec k0 k') as [-> | Hk0]; cbn [JSON.lookup].
  - destruct (String.eqb_spec k' k) as [-> | _]; [contradiction | reflexivity].
  - rewrite IH. reflexivity.
Qed.

Lemma lookup_replace_same (k : string) (v : JSValue)
  (fields : list (string * JSValue)) :
  JSON.lookup k (JSON.replace_field k v fields) =
  match JSON.lookup k fields with Some _ => Some v | None => None end.
Proof.
  induction fields as [| [k0 v0] r IH]; [reflexivity|].
  cbn [JSON.replace_field JSON.lookup].
  destruct (String.eqb_spec k0 k) as [-> | Hk0]; cbn [JSON.lookup].
  - rewrite String.eqb_refl. reflexivity.
  - rewrite (proj2 (String.eqb_neq _ _) Hk0), IH. reflexivity.
Qed.

Lemma copy_field_replace (k : string) (v : JSValue)
  (fields : list (string * JSValue)) :
  k <> "admin_key" ->
  copy_field (JObj (JSON.replace_field "admin_key" v fields)) k =
  copy_field (JObj fields) k.
Proof.
  intros H. unfold copy_field, opt_member.
  rewrite (lookup_replace_other k "admin_key" v fields H). reflexivity.
Qed.

(** X17. The line that logs the outputs does not show the admin key of
    the payload: it is the same line whatever value the [admin_key] field
    of the payload holds. *)
Theorem logOutputs_hides_admin_key (operation : string)
  (fields : list (string * JSValue)) (v : JSValue) :
  logOutputs operation (JObj (JSON.replace_field "admin_key" v fields)) =
  logOutputs operation (JObj fields).
Proof.
  unfold logOutputs.
  destruct (operation =? "create")%string, (operation =? "info")%string,
           (operation =? "delete")%string;
    cbv zeta; unfold fold_left;
    rewrite ?copy_field_replace by discriminate;
    try reflexivity;
    unfold opt_member; rewrite lookup_replace_same;
    destruct (JSON.lookup "admin_key" fields); reflexivity.
Qed.

(** ** The small helpers *)

Lemma length_append (a b : string) :
  String.length (a ++ b) = (String.length a + String.length b)%nat.
Proof. induction a as [| c a IH]; cbn; [reflexivity | now rewrite IH]. Qed.

Lemma take_append (a b : string) : Str.take (String.length a) (a ++ b) = a.
Proof. induction a as [| c a IH]; cbn; [now destruct b | now rewrite IH]. Qed.

Lemma take_length (n : nat) (s : string) :
  (n <= String.length s)%nat -> String.length (Str.take n s) = n.
Proof.
  revert s. induction n as [| n IH]; intros s H; [reflexivity|].
  destruct s as [| c r]; cbn in H |- *; [lia|]. rewrite IH; [reflexivity | lia].
Qed.

Lemma rev_onto_append (acc a b : string) :
  Str.rev_onto acc (a ++ b) = Str.rev_onto (Str.rev_onto acc a) b.
Proof.
  revert acc. induction a as [| c a IH]; intros acc; cbn; [reflexivity|].
  apply IH.
Qed.

(** X18. [normalizeBaseUrl] removes one trailing slash and no more: a URL
    followed by a slash gives the URL, also when the URL itself ends with
    a slash; the base URL of the service has none and is kept. *)
Theorem normalizeBaseUrl_one_slash (url : string) :
  normalizeBaseUrl (url ++ "/") = url /\
  normalizeBaseUrl ((url ++ "/") ++ "/") = url ++ "/" /\
  normalizeBaseUrl BASE_URL = BASE_URL.
Proof.
  assert (H : forall s, normalizeBaseUrl (s ++ "/") = s).
  { intros s. unfold normalizeBaseUrl, Str.endsWith, Str.rev.
    rewrite rev_onto_append. cbn [Str.rev_onto String.prefix].
    destruct (Ascii.ascii_dec "/" "/") as [_ | Hne]; [| contradiction].
    destruct (Str.rev_onto EmptyString s);
      (rewrite length_append; cbn [String.length];
       replace (String.length s + 1 - 1)%nat with (String.length s) by lia;
       apply take_append). }
  split; [apply H|]. split; [apply H | reflexivity].
Qed.

(** X19. [truncate] keeps a string of at most [max] characters as it is
    (also one of exactly [max] characters), and it never changes the first
    [max] characters of a longer one: what it appends comes after them.
    The string is one of ASCII characters, whose length here is its length
    in the source. *)
Theorem truncate_keeps_prefix (s : string) (max : Z) :
  Str.forallb (fun c => Str.code c <? 128) s = true ->
  0 <= max ->
  (Z.of_nat (String.length s) <= max -> truncate s max = s) /\
  Str.take (Z.to_nat max) (truncate s max) = Str.take (Z.to_nat max) s /\
  (max < Z.of_nat (String.length s) ->
   exists marker,
     truncate s max = Str.take (Z.to_nat max) s ++ marker /\
     Z.of_nat (String.length (Str.take (Z.to_nat max) s)) = max).
Proof.
  intros _ Hmax. unfold truncate. cbv zeta.
  destruct (Z.leb_spec (Z.of_nat (String.length s)) max) as [Hle | Hgt].
  - split; [reflexivity|]. split; [reflexivity|]. lia.
  - assert (HL : String.length (Str.take (Z.to_nat max) s) = Z.to_nat max).
    { apply take_length. lia. }
    split; [lia|]. split.
    + rewrite <- HL at 1. apply take_append.
    + intros _. eexists. split; [reflexivity|]. rewrite HL. lia.
Qed.

Lemma truncate_keeps_prefix_witness :
  (Z.of_nat (String.length "abcdefgh") <= 3 ->
   truncate "abcdefgh" 3 = "abcdefgh") /\
  Str.take (Z.to_nat 3) (truncate "abcdefgh" 3) =
  Str.take (Z.to_nat 3) "abcdefgh" /\
  (3 < Z.of_nat (String.length "abcdefgh") ->
   exists marker,
     truncate "abcdefgh" 3 = Str.take (Z.to_nat 3) "abcdefgh" ++ marker /\
     Z.of_nat (String.length (Str.take (Z.to_nat 3) "abcdefgh")) = 3).
Proof.
  apply (truncate_keeps_prefix "abcdefgh" 3); [reflexivity | lia].
Defined.

(** ** The URL of any namespace and key *)


















(** ** What the executor logs of a retried response *)

Lemma logBody_text (label : string) (res : Response) (raw : string)
  (net : Network) (n : nat) :
  body res = BodyText raw -> raw <> EmptyString ->
  Z.of_nat (String.length raw) <= MAX_LOG_BODY_CHARS ->
  logBody label res net n =
  (Returned tt, [Debug ("response body (" ++ label ++ "): " ++ raw)], n).
Proof.
  intros Hbody Hne Hlen.
  unfold logBody, bind, try_catch, text. rewrite Hbody. cbn [ret].
  destruct raw as [| c r]; [contradiction|].
  cbn [truthy Str.is_empty negb when emit app].
  unfold sanitizeForLogs, truncate. cbv zeta.
  rewrite (proj2 (Z.leb_le _ _) Hlen). reflexivity.
Qed.

(** X21. The body of a 5xx response that is retried is written to the
    debug log as it was received: a body of at most 2000 characters that
    is not empty is logged whole and unchanged, whatever it contains (the
    redaction of credential fields applies to structured values, and the
    body of a retried response is logged as text). *)
Theorem retried_body_is_logged_as_received (url : string)
  (method : HttpMethod) (hdrs : list (string * string)) (net : Network)
  (res : Response) (raw : string) :
  net O = Responded res -> 500 <= status res <= 599 ->
  body res = BodyText raw -> raw <> EmptyString ->
  Z.of_nat (String.length raw) <= MAX_LOG_BODY_CHARS ->
  In (Debug ("response body (5xx): " ++ raw))
     (events_of (execute (requestWithRetries url method hdrs) net)).
Proof.
  intros Hnet [Hlo Hhi] Hbody Hne Hlen.
  assert (H1 : exists ev1 ev2,
             attempt_once url method hdrs (0 + 1) 500 net O =
             (Returned (Continue (next_backoff 500)),
              (ev1 ++ Debug ("response body (5xx): " ++ raw) :: ev2)%list,
              1%nat)).
  { unfold attempt_once, try_catch, bind, fetch. rewrite Hnet.
    cbn [emit].
    destruct (logRateLimit_silent res net 1%nat) as (evR & ER & _).
    rewrite ER.
    replace (status res =? 429) with false
      by (symmetry; apply Z.eqb_neq; lia).
    rewrite (proj2 (Z.leb_le _ _) Hlo), (proj2 (Z.leb_le _ _) Hhi).
    cbn [andb]. change (0 + 1 <? MAX_ATTEMPTS) with true. cbv beta iota.
    rewrite (logBody_text "5xx" res raw net 1%nat Hbody Hne Hlen).
    cbn [sleep emit ret app].
    exists (Fetch url method hdrs ::
            Info ("response: status=" ++ show (status res)) :: evR)%list.
    eexists. reflexivity. }
  destruct H1 as [ev1 [ev2 H1]].
  unfold execute, requestWithRetries, requestWithRetries_fuel, bind, emit.
  change (Z.to_nat MAX_ATTEMPTS) with 5%nat. cbv beta iota.
  rewrite (retry_loop_continue url method hdrs net 4 0 500 _ O 1%nat _ H1).
  destruct (retry_loop 4 url method hdrs (0 + 1) (next_backoff 500) net 1%nat)
    as [[o ev] n'].
  cbn [events_of fst snd app].
  right. right. apply in_or_app. left. apply in_or_app. right. left.
  reflexivity.
Qed.

Lemma retried_body_is_logged_as_received_witness :
  In (Debug ("response body (5xx): " ++ Str.q "{'admin_key':'abc123'}"))
     (events_of
        (execute (requestWithRetries
                    "https://abacus.jasoncameron.dev/create/my-org/build"
                    GET [("Accept", "application/json")])
                 (answers [response 503 [] (Str.q "{'admin_key':'abc123'}");
                           response 200 [] "{}"] unreachable))).
Proof.
  apply (retried_body_is_logged_as_received
           "https://abacus.jasoncameron.dev/create/my-org/build" GET
           [("Accept", "application/json")]
           (answers [response 503 [] (Str.q "{'admin_key':'abc123'}");
                     response 200 [] "{}"] unreachable)
           (mkResponse 503 [] (BodyText (Str.q "{'admin_key':'abc123'}")))
           (Str.q "{'admin_key':'abc123'}"));
    first [reflexivity | discriminate | vm_compute; split; discriminate
          | vm_compute; discriminate].
Defined.

(** ** Inputs that are defaulted or not used *)

(** X22. The operation defaults to [hit]: an invocation without an
    [operation] input is the invocation with the operation [hit] and the
    same other inputs. *)
Theorem default_operation_is_hit (getInput getInput' : Inputs) :
  getInput "operation" = EmptyString ->
  getInput' "operation" = "hit" ->
  (forall name, name <> "operation" -> getInput' name = getInput name) ->
  operation_of getInput = "hit" /\ main getInput = main getInput'.
Proof.
  intros He Hh Hsame.
  assert (Ho : operation_of getInput = "hit").
  { unfold operation_of. rewrite He. reflexivity. }
  assert (Ho' : operation_of getInput' = "hit").
  { unfold operation_of. rewrite Hh. reflexivity. }
  split; [exact Ho|].
  unfold main, run, prepare. rewrite Ho, Ho'.
  rewrite (Hsame "namespace"), (Hsame "key"), (Hsame "value"),
    (Hsame "admin_key"), (Hsame "initializer") by discriminate.
  reflexivity.
Qed.

Lemma default_operation_is_hit_witness :
  operation_of (inputs_of [("namespace", "my-org"); ("key", "build-api")]) =
  "hit" /\
  main (inputs_of [("namespace", "my-org"); ("key", "build-api")]) =
  main (inputs_of [("operation", "hit"); ("namespace", "my-org");
                   ("key", "build-api")]).
Proof.
  apply default_operation_is_hit; try reflexivity.
  intros name Hname. unfold inputs_of. cbn [find].
  destruct (String.eqb_spec "operation" name); [congruence | reflexivity].
Defined.

(** X23. Inputs that the operation does not use play no part: the [value]
    input of an operation other than [set] and [update], and the
    [admin_key] input of an operation that is not administrative, are
    neither checked, nor registered, nor sent; the invocation is the same
    whatever they hold. *)
Theorem unused_inputs_are_ignored (getInput getInput' : Inputs) :
  (is_set_or_update (operation_of getInput) = false ->
   (forall name, name <> "value" -> getInput' name = getInput name) ->
   main getInput' = main getInput) /\
  (isAdminOp (operation_of getInput) = false ->
   (forall name, name <> "admin_key" -> getInput' name = getInput name) ->
   main getInput' = main getInput).
Proof.
  split; intros Hop Hsame.
  - assert (Ho : operation_of getInput' = operation_of getInput).
    { unfold operation_of. now rewrite (Hsame "operation") by discriminate. }
    unfold main, run, prepare. rewrite Ho.
    rewrite (Hsame "namespace"), (Hsame "key"), (Hsame "initializer"),
      (Hsame "admin_key") by discriminate.
    rewrite Hop. reflexivity.
  - assert (Ho : operation_of getInput' = operation_of getInput).
    { unfold operation_of. now rewrite (Hsame "operation") by discriminate. }
    unfold main, run, prepare, request_headers. rewrite Ho.
    rewrite (Hsame "namespace"), (Hsame "key"), (Hsame "initializer"),
      (Hsame "value") by discriminate.
    rewrite Hop. reflexivity.
Qed.

Lemma unused_inputs_are_ignored_witness :
  main (inputs_of [("admin_key", "s3cret"); ("namespace", "my-org");
                   ("key", "build-api")]) =
  main (inputs_of [("namespace", "my-org"); ("key", "build-api")]).
Proof.
  apply (proj2 (unused_inputs_are_ignored
                  (inputs_of [("namespace", "my-org"); ("key", "build-api")])
                  (inputs_of [("admin_key", "s3cret"); ("namespace", "my-org");
                              ("key", "build-api")]))).
  - reflexivity.
  - intros name Hname. unfold inputs_of. cbn [find].
    destruct (String.eqb_spec "admin_key" name); [congruence | reflexivity].
Defined.

(** ** The secret of a [create] response *)






(** ** The wait a 429 response asks for *)

(** X25. A 429 response to the first request whose [Retry-After] header
    is an integer makes the executor wait that many milliseconds before
    the second request, whatever follows: a negative number is a wait of
    0, and a number above the backoff ceiling of 8000 is waited in full. *)
Theorem retry_after_is_honoured (url : string) (method : HttpMethod)
  (hdrs : list (string * string)) (net : Network) (res : Response)
  (ra : string) (v : Z) :
  net O = Responded res -> status res = 429 ->
  headers_get res "Retry-After" = Some ra -> ra <> EmptyString ->
  integer_input ra = Some v ->
  exists rest,
    sleeps (events_of (execute (requestWithRetries url method hdrs) net)) =
    Z.max 0 v :: rest.
Proof.
  intros Hnet Hst Hra Hne Hv.
  destruct (stopping_point net 0 4) as [k [Hk [Hr Hl]]].
  destruct (requestWithRetries_stops url method hdrs net 0 k Hk Hr Hl)
    as [ev [H [HA HS]]].
  unfold execute. rewrite H. cbn [events_of fst snd]. rewrite HS.
  destruct k as [| k].
  - destruct Hl as [Hl | Hl]; [discriminate Hl|].
    cbn [Nat.add] in Hl. rewrite Hnet in Hl. cbn in Hl.
    unfold final_status in Hl. rewrite Hst in Hl. discriminate Hl.
  - cbn [waits]. rewrite Hnet. cbn [wait_after].
    rewrite Hst. change (429 =? 429) with true. cbv iota.
    unfold retry_wait. rewrite Hra, Hv.
    destruct ra; [contradiction|]. cbn [truthy Str.is_empty negb].
    eexists. reflexivity.
Qed.

Lemma retry_after_is_honoured_witness :
  exists rest,
    sleeps
      (events_of
         (execute (requestWithRetries
                     "https://abacus.jasoncameron.dev/hit/my-org/build"
                     GET [("Accept", "application/json")])
                  (answers [response 429 [("retry-after", "60000")] EmptyString;
                            response 200 [] "{}"] unreachable))) =
    Z.max 0 60000 :: rest.
Proof.
  apply (retry_after_is_honoured
           "https://abacus.jasoncameron.dev/hit/my-org/build" GET
           [("Accept", "application/json")]
           (answers [response 429 [("retry-after", "60000")] EmptyString;
                     response 200 [] "{}"] unreachable)
           (mkResponse 429 [("retry-after", "60000")] (BodyText EmptyString))
           "60000" 60000);
    first [reflexivity | discriminate | vm_compute; reflexivity].
Defined.

(** ** When the executor throws, when the interpretation succeeds *)

(** X26. The executor throws in one case only: its first four requests
    had results that are retried (a 429 or 5xx response or a transport
    failure) and the fifth request failed in the transport; what it throws
    is the error of that fifth request.  A transport failure of an earlier
    request is never fatal. *)
Theorem requestWithRetries_throws_iff (url : string) (method : HttpMethod)
  (hdrs : list (string * string)) (net : Network) (e : JSError) :
  outcome_of (execute (requestWithRetries url method hdrs) net) = Thrown e <->
  (forall i, (i < 4)%nat -> retryable (net i) = true) /\
  net 4%nat = Rejected e.
Proof.
  destruct (stopping_point net 0 4) as [k [Hk [Hr Hl]]].
  destruct (requestWithRetries_stops url method hdrs net 0 k Hk Hr Hl)
    as [ev [H _]].
  unfold execute. rewrite H. cbn [outcome_of fst snd Nat.add] in *.
  split.
  - intros Ho.
    destruct (net k) as [res | e'] eqn:Hnk; [discriminate Ho|].
    cbn in Ho. injection Ho as ->.
    destruct Hl as [-> | Hl].
    + split; [exact Hr | exact Hnk].
    + discriminate Hl.
  - intros [Hall H4].
    destruct Hl as [-> | Hl].
    + rewrite H4. reflexivity.
    + assert (k = 4%nat \/ (k < 4)%nat) as [-> | Hlt] by lia.
      * rewrite H4. reflexivity.
      * rewrite (Hall k Hlt) in Hl. discriminate Hl.
Qed.

Lemma requestWithRetries_throws_iff_witness :
  outcome_of
    (execute (requestWithRetries
                "https://abacus.jasoncameron.dev/hit/my-org/build" GET
                [("Accept", "application/json")])
             (answers [response 503 [] "busy";
                       Rejected (TypeError "fetch failed");
                       response 429 [] EmptyString;
                       response 500 [] EmptyString;
                       Rejected (TypeError "socket hang up")] unreachable)) =
  Thrown (TypeError "socket hang up").
Proof.
  apply (proj2 (requestWithRetries_throws_iff
                  "https://abacus.jasoncameron.dev/hit/my-org/build" GET
                  [("Accept", "application/json")]
                  (answers [response 503 [] "busy";
                            Rejected (TypeError "fetch failed");
                            response 429 [] EmptyString;
                            response 500 [] EmptyString;
                            Rejected (TypeError "socket hang up")] unreachable)
                  (TypeError "socket hang up"))).
  split; [| reflexivity].
  intros i Hi.
  destruct i as [| [| [| [| i]]]]; [reflexivity .. | lia].
Defined.



